(** * Resilient API client of the yoga-pose-detection frontend

    A shallow embedding of the endpoint-failover core of the React
    authentication context, in its three versions:

    - [Part000]     src/unnamed/part_000: health check with abort timers,
                    retrying [apiCall] over native and web transports;
    - [Part001]     src/unnamed/part_001: health check without abort timers,
                    [apiCall] with reactive failover between the two endpoints;
    - [AuthContext] src/frontend/src/contexts/AuthContext.js: retrying
                    [apiCall] against one fixed base URL.

    Asynchronous code is modelled in a state-and-exception monad over a
    [Machine]: the live React state, a log of the observable effects and two
    counters.  The network, the JavaScript engine and the other flows of the
    application that run while a call is suspended are the [World]. *)

From Stdlib Require Import ZArith List Bool Lia DecimalString Ascii.
From stdpp Require Import gmap strings.
From Equations Require Import Equations.

Set Warnings "-register-all".
Open Scope string_scope.
Open Scope list_scope.
Open Scope Z_scope.

(** ** JavaScript values *)

(** An [Error] object, as far as the code looks at it: [err.name] and
    [err.message]. *)
Record Error := mkError { name : string; message : string }.

(** [new Error(msg)] *)
Definition new_Error (msg : string) : Error :=
  {| name := "Error"; message := msg |}.

(** A parsed JSON payload.  Numbers are the integers that JavaScript prints
    in full. *)
Inductive JSON :=
| JNull
| JBool (b : bool)
| JNumber (n : Z)
| JString (s : string)
| JArray (items : list JSON)
| JObject (fields : list (string * JSON)).

(** [String.prototype.includes]: [sub] occurs somewhere in [s]
    (case-sensitive). *)
Fixpoint includes (s sub : string) : bool :=
  String.prefix sub s ||
  match s with
  | EmptyString => false
  | String _ rest => includes rest sub
  end.

(** Truthiness of a string-or-null value such as the token. *)
Definition truthy_string (s : option string) : bool :=
  match s with
  | Some (String _ _) => true
  | _ => false
  end.

(** Truthiness of a JSON value or [undefined] ([None]): objects and arrays
    are always truthy. *)
Definition truthy (v : option JSON) : bool :=
  match v with
  | None | Some JNull | Some (JBool false) | Some (JNumber 0) => false
  | Some (JString s) => truthy_string (Some s)
  | Some _ => true
  end.

Definition string_of_Z (n : Z) : string :=
  DecimalString.NilZero.string_of_int (Z.to_int n).

Fixpoint join (sep : string) (l : list string) : string :=
  match l with
  | [] => ""
  | [x] => x
  | x :: rest => x +:+ sep +:+ join sep rest
  end.

(** [String(v)], which [new Error(v)] applies to a message that is not a
    string. *)
Fixpoint to_String (v : JSON) : string :=
  match v with
  | JNull => "null"
  | JBool true => "true"
  | JBool false => "false"
  | JNumber n => string_of_Z n
  | JString s => s
  | JArray items =>
      join "," (map (fun x => match x with JNull => "" | _ => to_String x end) items)
  | JObject _ => "[object Object]"
  end.

(** Property lookup in a parsed object: of two fields with the same key the
    later one is the object's. *)
Fixpoint lookup_field (k : string) (fields : list (string * JSON)) : option JSON :=
  match fields with
  | [] => None
  | (k', v) :: rest =>
      match lookup_field k rest with
      | Some v' => Some v'
      | None => if String.eqb k k' then Some v else None
      end
  end.

(** [a || b] on a value that becomes an error message. *)
Definition or_message (v : option JSON) (fallback : string) : string :=
  match v with
  | Some j => if truthy v then to_String j else fallback
  | None => fallback
  end.

(** [process.env.X || default] *)
Definition or_default (v : option string) (default : string) : string :=
  match v with
  | Some s => if truthy_string v then s else default
  | None => default
  end.

(** ** Objects used as header maps *)

(** [{...acc, ...src}]: the properties of [src] are copied over [acc]. *)
Definition spread (acc src : gmap string string) : gmap string string :=
  src ∪ acc.

(** [...(token && { Authorization: `Bearer ${token}` })]: a falsy token
    ([null] or the empty string) spreads nothing. *)
Definition spread_auth (acc : gmap string string) (token : option string)
  : gmap string string :=
  match token with
  | Some t =>
      if truthy_string token
      then spread acc {[ "Authorization" := "Bearer " +:+ t ]}
      else acc
  | None => acc
  end.

(** ** Requests, responses, the environment *)

(** The [options] argument of [apiCall]. *)
Record Options := mkOptions {
  opt_method : option string;
  opt_headers : option (gmap string string);
  opt_body : option string
}.

(** The second argument of [fetch].  [init_signal] is the delay of the timer
    that aborts the request's [AbortController]; [init_timeout] is the
    [timeout] key, which [fetch] does not read. *)
Record FetchInit := mkInit {
  init_method : option string;
  init_headers : option (gmap string string);
  init_body : option string;
  init_signal : option Z;
  init_timeout : option Z
}.

(** What the network does with a [fetch]: after [latency] milliseconds the
    promise rejects, or resolves to a response with a status and a body that
    [res.json()] parses or rejects. *)
Inductive FetchResult :=
| Rejects (e : Error)
| Responds (status : Z) (json : Error + JSON).

Record FetchOutcome := mkOutcome { latency : Z; result : FetchResult }.

Record Response := mkResponse { res_status : Z; res_json : Error + JSON }.

(** [res.ok] *)
Definition ok (r : Response) : bool :=
  (200 <=? res_status r) && (res_status r <=? 299).

(** The argument and the result of [CapacitorHttp.request]. *)
Record NativeRequest := mkNative {
  nat_url : string;
  nat_method : string;
  nat_headers : gmap string string;
  nat_data : option JSON;
  readTimeout : Z;
  connectTimeout : Z
}.

Record NativeResponse := mkNativeResponse { status : Z; data : JSON }.

Inductive NativeOutcome :=
| NativeRejects (e : Error)
| NativeResponds (r : NativeResponse).

(** ** The React state and its writers *)

(** [apiStatus]: the specification's primary-active is ['production'] and
    its fallback-active is ['local']. *)
Inductive ApiStatus := checking | production | local | offline.

(** The two statements of the component that write [currentApiUrl] name a
    configured URL; the setter is not part of the context value, so no other
    code writes it. *)
Inductive Candidate := Production | Local.

(** A state update made by another flow of the component (a health check or
    a call in flight) while this one is suspended. *)
Inductive Write :=
| SetCurrentApiUrl (c : Candidate)
| SetApiStatus (s : ApiStatus).

(** What a run logs: the requests dispatched, the backoff waits, and the
    writes of the two state variables, in order. *)
Inductive Event :=
| EFetch (url : string) (init : FetchInit)
| ERequest (req : NativeRequest)
| ESleep (ms : Z)
| EUrl (url : string)
| EStatus (s : ApiStatus).

(** The live state of the component ([apiStatus], [currentApiUrl]), the
    number of requests sent so far, the number of suspension points passed
    so far, and the log. *)
Record Machine := mkMachine {
  apiStatus : ApiStatus;
  currentApiUrl : string;
  sent : nat;
  now : nat;
  trace : list Event
}.

(** [process.env] *)
Record Env := mkEnv {
  REACT_APP_API_URL : option string;
  REACT_APP_LOCAL_API_URL : option string
}.

(** What the code does not decide: the platform, the answer of the network
    to the [n]-th request sent, the engine's [JSON.parse] and the texts of
    its own errors, and the state updates other flows make at each
    suspension point of this one. *)
Record World := mkWorld {
  isNative : bool;
  fetch_net : nat -> string -> FetchInit -> FetchOutcome;
  native_net : nat -> NativeRequest -> NativeOutcome;
  JSON_parse : string -> Error + JSON;
  abort_message : string;
  null_message : string;
  background : nat -> list Write
}.

Definition PRODUCTION_API_URL (env : Env) : string :=
  or_default (REACT_APP_API_URL env) "https://yoga-pose-detection-1.onrender.com/api".

Definition LOCAL_API_URL (env : Env) : string :=
  or_default (REACT_APP_LOCAL_API_URL env) "http://localhost:5000/api".

Definition candidate_url (env : Env) (c : Candidate) : string :=
  match c with
  | Production => PRODUCTION_API_URL env
  | Local => LOCAL_API_URL env
  end.

(** [useState('checking')], [useState(PRODUCTION_API_URL)] *)
Definition initial (env : Env) : Machine :=
  {| apiStatus := checking; currentApiUrl := PRODUCTION_API_URL env;
     sent := 0; now := 0; trace := [] |}.

(** ** The monad of asynchronous code *)

Inductive Completion (A : Type) :=
| Return (a : A)
| Throw (e : Error).
Arguments Return {A} a.
Arguments Throw {A} e.

Definition M (A : Type) : Type := Machine -> Completion A * Machine.

Definition ret {A} (a : A) : M A := fun m => (Return a, m).

Definition throw {A} (e : Error) : M A := fun m => (Throw e, m).

Definition bind {A B} (c : M A) (k : A -> M B) : M B :=
  fun m =>
    match c m with
    | (Return a, m') => k a m'
    | (Throw e, m') => (Throw e, m')
    end.

(** [try { c } catch (e) { handler e }] *)
Definition try_catch {A} (c : M A) (handler : Error -> M A) : M A :=
  fun m =>
    match c m with
    | (Return a, m') => (Return a, m')
    | (Throw e, m') => handler e m'
    end.

Declare Scope js_scope.
Delimit Scope js_scope with js.
Notation "x <- c ;; k" := (bind c (fun x => k))
  (at level 100, c at next level, right associativity) : js_scope.
Notation "c ;; k" := (bind c (fun _ => k))
  (at level 100, right associativity) : js_scope.
Open Scope js_scope.

Definition log (e : Event) (m : Machine) : Machine :=
  {| apiStatus := apiStatus m; currentApiUrl := currentApiUrl m;
     sent := sent m; now := now m; trace := trace m ++ [e] |}.

Definition write_url (u : string) (m : Machine) : Machine :=
  {| apiStatus := apiStatus m; currentApiUrl := u;
     sent := sent m; now := now m; trace := trace m ++ [EUrl u] |}.

Definition write_status (s : ApiStatus) (m : Machine) : Machine :=
  {| apiStatus := s; currentApiUrl := currentApiUrl m;
     sent := sent m; now := now m; trace := trace m ++ [EStatus s] |}.

Definition setCurrentApiUrl (u : string) : M unit :=
  fun m => (Return tt, write_url u m).

Definition setApiStatus (s : ApiStatus) : M unit :=
  fun m => (Return tt, write_status s m).

Definition apply_write (env : Env) (m : Machine) (wr : Write) : Machine :=
  match wr with
  | SetCurrentApiUrl c => write_url (candidate_url env c) m
  | SetApiStatus s => write_status s m
  end.

Section Primitives.
Context (env : Env) (w : World).

(** A suspension point: the flow waits for a promise and the other flows
    of the component run, making the state updates the world schedules
    for this instant. *)
Definition suspend : M unit :=
  fun m =>
    let m' := fold_left (apply_write env) (background w (now m)) m in
    (Return tt,
     {| apiStatus := apiStatus m'; currentApiUrl := currentApiUrl m';
        sent := sent m'; now := S (now m'); trace := trace m' |}).

Definition count_sent : M nat :=
  fun m =>
    (Return (sent m),
     {| apiStatus := apiStatus m; currentApiUrl := currentApiUrl m;
        sent := S (sent m); now := now m; trace := trace m |}).

Definition emit (e : Event) : M unit := fun m => (Return tt, log e m).

Definition AbortError : Error :=
  {| name := "AbortError"; message := abort_message w |}.

(** [await fetch(url, init)].  With a signal whose timer fires before the
    network settles the promise, the promise rejects with an AbortError. *)
Definition fetch (url : string) (init : FetchInit) : M Response :=
  n <- count_sent ;;
  emit (EFetch url init) ;;
  suspend ;;
  let o := fetch_net w n url init in
  match init_signal init with
  | Some ms =>
      if ms <=? latency o then throw AbortError
      else match result o with
           | Rejects e => throw e
           | Responds st body => ret (mkResponse st body)
           end
  | None =>
      match result o with
      | Rejects e => throw e
      | Responds st body => ret (mkResponse st body)
      end
  end.

(** [await res.json()] *)
Definition json (r : Response) : M JSON :=
  suspend ;;
  match res_json r with
  | inl e => throw e
  | inr d => ret d
  end.

(** [await CapacitorHttp.request(req)] *)
Definition CapacitorHttp_request (req : NativeRequest) : M NativeResponse :=
  n <- count_sent ;;
  emit (ERequest req) ;;
  suspend ;;
  match native_net w n req with
  | NativeRejects e => throw e
  | NativeResponds r => ret r
  end.

(** [await new Promise(r => setTimeout(r, ms))] *)
Definition sleep (ms : Z) : M unit :=
  emit (ESleep ms) ;; suspend.

(** [JSON.parse(text)] *)
Definition parse (text : string) : M JSON :=
  match JSON_parse w text with
  | inl e => throw e
  | inr d => ret d
  end.

Definition TypeError_null : Error :=
  {| name := "TypeError"; message := null_message w |}.

(** [d.message]: a TypeError on [null], undefined on the other values
    that are not objects. *)
Definition get_message (d : JSON) : M (option JSON) :=
  match d with
  | JNull => throw TypeError_null
  | JObject fields => ret (lookup_field "message" fields)
  | _ => ret None
  end.

(** [d?.message] *)
Definition get_message_opt (d : JSON) : option JSON :=
  match d with
  | JObject fields => lookup_field "message" fields
  | _ => None
  end.

End Primitives.

(** The values of [token] and [currentApiUrl] in the render in which a
    callback was created.  [useCallback] hands the callback these constants;
    a later state update produces a new render and a new callback, and leaves
    the constants of this one as they are. *)
Record Render := mkRender {
  token : option string;
  url_of_render : string
}.

(** ** src/unnamed/part_000 *)

Module Part000.
Section Code.
Context (env : Env) (w : World).

Definition tryHealth (baseUrl : string) (timeoutMs : Z) : M unit :=
  res <- fetch env w (baseUrl +:+ "/health")
           {| init_method := Some "GET"; init_headers := None;
              init_body := None; init_signal := Some timeoutMs;
              init_timeout := None |} ;;
  if negb (ok res) then throw (new_Error "Health check failed") else ret tt.

Definition checkApiHealth : M ApiStatus :=
  setApiStatus checking ;;
  try_catch
    (tryHealth (PRODUCTION_API_URL env) 6000 ;;
     setCurrentApiUrl (PRODUCTION_API_URL env) ;;
     setApiStatus production ;;
     ret production)
    (fun _ =>
       try_catch
         (tryHealth (LOCAL_API_URL env) 3000 ;;
          setCurrentApiUrl (LOCAL_API_URL env) ;;
          setApiStatus local ;;
          ret local)
         (fun _ =>
            setApiStatus offline ;;
            ret offline)).

Section Call.
Context (r : Render) (endpoint : string) (options : Options).

Definition url : string := url_of_render r +:+ endpoint.

Definition headers : gmap string string :=
  spread
    (spread_auth {[ "Content-Type" := "application/json" ]} (token r))
    (default ∅ (opt_headers options)).

(** The body of the [try] block: one dispatch. *)
Definition attempt : M JSON :=
  if isNative w then
    payload <- match opt_body options with
               | Some b =>
                   if truthy_string (opt_body options)
                   then d <- parse w b ;; ret (Some d)
                   else ret None
               | None => ret None
               end ;;
    res <- CapacitorHttp_request env w
             {| nat_url := url;
                nat_method := or_default (opt_method options) "GET";
                nat_headers := headers;
                nat_data := payload;
                readTimeout := 60000;
                connectTimeout := 60000 |} ;;
    if 400 <=? status res
    then throw (new_Error (or_message (get_message_opt (data res)) "Request failed"))
    else ret (data res)
  else
    res <- fetch env w url
             {| init_method := Some (or_default (opt_method options) "GET");
                init_headers := Some headers;
                init_body := opt_body options;
                init_signal := Some 60000;
                init_timeout := None |} ;;
    d <- json env w res ;;
    if negb (ok res)
    then msg <- get_message w d ;;
         throw (new_Error (or_message msg "Request failed"))
    else ret d.

(** The test of the [catch] block, without [retries > 0]. *)
Definition retryable (err : Error) : bool :=
  String.eqb (name err) "AbortError"
  || includes (message err) "fetch"
  || includes (message err) "network".

(** [apiCall] in the body of the callback is the callback itself, a constant
    of the same render: the retry runs with the same [r], whatever the state
    has become.  The recursion ends because [retries] is positive when it
    recurses and one less in the call. *)

Equations? apiCall (retries : Z) (m : Machine) : Completion JSON * Machine
  by wf (Z.to_nat retries) lt :=
  apiCall retries m with attempt m => {
    | (Return d, m1) => (Return d, m1);
    | (Throw err, m1) with Z_lt_dec 0 retries => {
        | left _ =>
            if retryable err
            then apiCall (retries - 1) (snd (sleep env w 2000 m1))
            else (Throw err, m1);
        | right _ => (Throw err, m1) } }.
Proof. lia. Qed.

End Call.
End Code.
End Part000.

(** ** src/unnamed/part_001 *)

Module Part001.
Section Code.
Context (env : Env) (w : World).

(** A [return] inside the inner [try] blocks leaves the function: the
    blocks yield [Some] status when they returned and [None] when control
    falls through to the next statement. *)
Definition checkApiHealth : M ApiStatus :=
  try_catch
    (setApiStatus checking ;;
     returned <-
       try_catch
         (response <- fetch env w (PRODUCTION_API_URL env +:+ "/health")
                        {| init_method := Some "GET"; init_headers := None;
                           init_body := None; init_signal := None;
                           init_timeout := Some 5000 |} ;;
          if ok response
          then setCurrentApiUrl (PRODUCTION_API_URL env) ;;
               setApiStatus production ;;
               ret (Some production)
          else ret None)
         (fun prodError => ret None) ;;
     match returned with
     | Some st => ret st
     | None =>
         returned <-
           try_catch
             (response <- fetch env w (LOCAL_API_URL env +:+ "/health")
                            {| init_method := Some "GET"; init_headers := None;
                               init_body := None; init_signal := None;
                               init_timeout := Some 3000 |} ;;
              if ok response
              then setCurrentApiUrl (LOCAL_API_URL env) ;;
                   setApiStatus local ;;
                   ret (Some local)
              else ret None)
             (fun localError => ret None) ;;
         match returned with
         | Some st => ret st
         | None => setApiStatus offline ;; ret offline
         end
     end)
    (fun error => setApiStatus offline ;; ret offline).

Section Call.
Context (r : Render) (endpoint : string) (options : Options).

(** [{ headers: {...}, ...options }]: a [headers] key of [options]
    replaces the composed one. *)
Definition config : FetchInit :=
  {| init_method := opt_method options;
     init_headers :=
       match opt_headers options with
       | Some h => Some h
       | None =>
           Some (spread
                   (spread_auth {[ "Content-Type" := "application/json" ]} (token r))
                   ∅)
       end;
     init_body := opt_body options;
     init_signal := None;
     init_timeout := None |}.

Definition tryApiCall (baseUrl : string) : M JSON :=
  response <- fetch env w (baseUrl +:+ endpoint) config ;;
  d <- json env w response ;;
  if negb (ok response)
  then msg <- get_message w d ;;
       throw (new_Error (or_message msg "Something went wrong"))
  else ret d.

Definition apiCall : M JSON :=
  try_catch
    (tryApiCall (url_of_render r))
    (fun error =>
       if negb (String.eqb (url_of_render r) (LOCAL_API_URL env))
       then
         try_catch
           (setCurrentApiUrl (LOCAL_API_URL env) ;;
            tryApiCall (LOCAL_API_URL env))
           (fun localError =>
              setCurrentApiUrl (PRODUCTION_API_URL env) ;;
              throw (new_Error
                       ("Both production and local APIs failed. Production: "
                        +:+ message error +:+ ", Local: "
                        +:+ message localError)))
       else
         try_catch
           (setCurrentApiUrl (PRODUCTION_API_URL env) ;;
            tryApiCall (PRODUCTION_API_URL env))
           (fun prodError =>
              throw (new_Error
                       ("Both APIs failed. Local: "
                        +:+ message error +:+ ", Production: "
                        +:+ message prodError)))).

End Call.
End Code.
End Part001.

(** ** src/frontend/src/contexts/AuthContext.js *)

Module AuthContext.
Section Code.
Context (env : Env) (w : World).

(** This version has one base URL and no active endpoint; [url_of_render]
    is not read. *)
Definition API_BASE_URL : string :=
  or_default (REACT_APP_API_URL env) "http://localhost:5000/api".

Section Call.
Context (r : Render) (endpoint : string) (options : Options).

Definition url : string := API_BASE_URL +:+ endpoint.

Definition headers : gmap string string :=
  spread
    (spread_auth {[ "Content-Type" := "application/json" ]} (token r))
    (default ∅ (opt_headers options)).

Definition attempt : M JSON :=
  if isNative w then
    payload <- match opt_body options with
               | Some b =>
                   if truthy_string (opt_body options)
                   then d <- parse w b ;; ret (Some d)
                   else ret None
               | None => ret None
               end ;;
    capResponse <- CapacitorHttp_request env w
             {| nat_url := url;
                nat_method := or_default (opt_method options) "GET";
                nat_headers := headers;
                nat_data := payload;
                readTimeout := 60000;
                connectTimeout := 60000 |} ;;
    if 400 <=? status capResponse
    then msg <- get_message w (data capResponse) ;;
         throw (new_Error (or_message msg "Something went wrong"))
    else ret (data capResponse)
  else
    response <- fetch env w url
             {| init_method := Some (or_default (opt_method options) "GET");
                init_headers := Some headers;
                init_body := opt_body options;
                init_signal := Some 60000;
                init_timeout := None |} ;;
    d <- json env w response ;;
    if negb (ok response)
    then msg <- get_message w d ;;
         throw (new_Error (or_message msg "Something went wrong"))
    else ret d.

(** "Retry on network errors if retries left" *)
Definition retryable (error : Error) : bool :=
  String.eqb (name error) "AbortError"
  || includes (message error) "fetch"
  || includes (message error) "Failed to fetch"
  || includes (message error) "network".

Equations? apiCall (retries : Z) (m : Machine) : Completion JSON * Machine
  by wf (Z.to_nat retries) lt :=
  apiCall retries m with attempt m => {
    | (Return d, m1) => (Return d, m1);
    | (Throw error, m1) with Z_lt_dec 0 retries => {
        | left _ =>
            if retryable error
            then apiCall (retries - 1) (snd (sleep env w 2000 m1))
            else (Throw error, m1);
        | right _ => (Throw error, m1) } }.
Proof. lia. Qed.

End Call.
End Code.
End AuthContext.

(** * Observations on runs *)

(** The world without the other flows: nothing else runs while a call is
    suspended. *)
Definition quiet (w : World) : World :=
  {| isNative := isNative w; fetch_net := fetch_net w;
     native_net := native_net w; JSON_parse := JSON_parse w;
     abort_message := abort_message w; null_message := null_message w;
     background := fun _ => [] |}.

(** The URLs of the requests dispatched, in order. *)
Fixpoint requests (t : list Event) : list string :=
  match t with
  | [] => []
  | EFetch u _ :: rest => u :: requests rest
  | ERequest req :: rest => nat_url req :: requests rest
  | _ :: rest => requests rest
  end.

(** The backoff waits, in order. *)
Fixpoint sleeps (t : list Event) : list Z :=
  match t with
  | [] => []
  | ESleep ms :: rest => ms :: sleeps rest
  | _ :: rest => sleeps rest
  end.

(** The values written to [currentApiUrl], in order. *)
Fixpoint urls_written (t : list Event) : list string :=
  match t with
  | [] => []
  | EUrl u :: rest => u :: urls_written rest
  | _ :: rest => urls_written rest
  end.

(** The value of [currentApiUrl] after the writes of [t], from [u0]. *)
Definition url_after (t : list Event) (u0 : string) : string :=
  fold_left (fun u e => match e with EUrl u' => u' | _ => u end) t u0.

(** What a write of another flow logs. *)
Definition event_of_write (env : Env) (wr : Write) : Event :=
  match wr with
  | SetCurrentApiUrl c => EUrl (candidate_url env c)
  | SetApiStatus s => EStatus s
  end.

(** [m'] continues [m]: its log is the log of [m] followed by events that
    satisfy [P], and its active endpoint is the last one written. *)
Definition extends (P : Event -> Prop) (m m' : Machine) : Prop :=
  exists evs,
    trace m' = trace m ++ evs
    /\ Forall P evs
    /\ currentApiUrl m' = url_after evs (currentApiUrl m).

(** Every run of [c] continues the machine it starts from. *)
Definition grows {A} (P : Event -> Prop) (c : M A) : Prop :=
  forall m, extends P m (snd (c m)).

(** [P] allows the status writes, the timers and what the other flows of
    the world [w] log. *)
Record ambient (env : Env) (w : World) (P : Event -> Prop) : Prop := {
  amb_status : forall s, P (EStatus s);
  amb_sleep : forall ms, P (ESleep ms);
  amb_background :
    forall n, Forall (fun wr => P (event_of_write env wr)) (background w n)
}.

(** A dispatch to [url] with the headers [h]. *)
Definition carries (url : string) (h : gmap string string) (e : Event) : Prop :=
  match e with
  | EFetch u init => u = url /\ init_headers init = Some h
  | ERequest req => nat_url req = url /\ nat_headers req = h
  | _ => True
  end.

(** A write of the active endpoint with the base URL of a candidate. *)
Definition is_candidate (env : Env) (u : string) : Prop :=
  u = PRODUCTION_API_URL env \/ u = LOCAL_API_URL env.

Definition writes_candidate (env : Env) (e : Event) : Prop :=
  match e with
  | EUrl u => is_candidate env u
  | _ => True
  end.

(** A response with a 2xx status. *)
Definition responds_ok (o : FetchOutcome) : bool :=
  match result o with
  | Responds st _ => (200 <=? st) && (st <=? 299)
  | Rejects _ => false
  end.

(** The candidate answers its health request successfully: in part_000
    within the [ms] of the abort timer, in part_001 whenever the platform
    settles the request. *)
Definition healthy000 (ms : Z) (o : FetchOutcome) : bool :=
  (latency o <? ms) && responds_ok o.

Definition healthy001 (o : FetchOutcome) : bool := responds_ok o.

Definition health_init000 (ms : Z) : FetchInit :=
  {| init_method := Some "GET"; init_headers := None; init_body := None;
     init_signal := Some ms; init_timeout := None |}.

Definition health_init001 (ms : Z) : FetchInit :=
  {| init_method := Some "GET"; init_headers := None; init_body := None;
     init_signal := None; init_timeout := Some ms |}.

(** The priority algorithm in the words of the specification: the primary
    when it answers, else the fallback when it answers, else offline. *)
Definition priority_status (primary_up fallback_up : bool) : ApiStatus :=
  if primary_up then production
  else if fallback_up then local
  else offline.

Definition priority_requests (env : Env) (primary_up : bool) : list string :=
  if primary_up
  then [PRODUCTION_API_URL env +:+ "/health"]
  else [PRODUCTION_API_URL env +:+ "/health"; LOCAL_API_URL env +:+ "/health"].

(** What the promise of a [fetch] settles to. *)
Definition settle (w : World) (init : FetchInit) (o : FetchOutcome)
  : Completion Response :=
  let settled :=
    match result o with
    | Rejects e => Throw e
    | Responds st body => Return (mkResponse st body)
    end in
  match init_signal init with
  | Some ms => if ms <=? latency o then Throw (AbortError w) else settled
  | None => settled
  end.

(** The machine after a [fetch] was dispatched and settled. *)
Definition fetched (env : Env) (w : World) (url : string) (init : FetchInit)
  (m : Machine) : Machine :=
  snd (suspend env w (log (EFetch url init) (snd (count_sent m)))).





(** A network on which every request is refused. *)
Definition unreachable : World :=
  {| isNative := false;
     fetch_net := fun _ _ _ =>
       mkOutcome 20 (Rejects (mkError "TypeError" "Failed to fetch"));
     native_net := fun _ _ =>
       NativeRejects (new_Error "Unable to resolve host: network is unreachable");
     JSON_parse := fun _ => inr JNull;
     abort_message := "signal is aborted without reason";
     null_message := "Cannot read properties of null (reading 'message')";
     background := fun _ => [] |}.

Definition default_env : Env :=
  {| REACT_APP_API_URL := None; REACT_APP_LOCAL_API_URL := None |}.

(** The token the store holds: [null] and the empty string are no token
    (the code tests [token] for truth, here and in [if (!token)]). *)
Definition held (tok : option string) : option string :=
  match tok with
  | Some t => if truthy_string tok then Some t else None
  | None => None
  end.

(** The headers of a call in the words of the specification, key by key:
    the caller's value when the caller supplies the key; otherwise
    [Bearer <token>] under Authorization when a token is held, and
    [application/json] under Content-Type. *)
Definition expected_header (tok : option string) (caller : gmap string string)
  (k : string) : option string :=
  match caller !! k with
  | Some v => Some v
  | None =>
      if String.eqb k "Authorization"
      then match held tok with
           | Some t => Some ("Bearer " +:+ t)
           | None => None
           end
      else if String.eqb k "Content-Type" then Some "application/json"
      else None
  end.

(** The machine after a native request was dispatched and settled. *)
Definition requested (env : Env) (w : World) (req : NativeRequest)
  (m : Machine) : Machine :=
  snd (suspend env w (log (ERequest req) (snd (count_sent m)))).

(** The error made of a rejected response's payload [d]:
    [new Error(d.message || fallback)], or the TypeError of reading
    [message] off [null]. *)
Definition rejection (w : World) (fallback : string) (d : JSON) : Error :=
  match d with
  | JNull => TypeError_null w
  | _ => new_Error (or_message (get_message_opt d) fallback)
  end.

(** How a dispatch over fetch completes: the rejection of the promise or of
    [res.json()], the payload of a 2xx response, the error made of any
    other response. *)
Definition web_completion (w : World) (fallback : string) (init : FetchInit)
  (o : FetchOutcome) : Completion JSON :=
  match settle w init o with
  | Throw e => Throw e
  | Return res =>
      match res_json res with
      | inl e => Throw e
      | inr d => if ok res then Return d else Throw (rejection w fallback d)
      end
  end.

(** The machine after a dispatch over fetch: [res.json()] is awaited when
    the promise of [fetch] resolved. *)
Definition web_machine (env : Env) (w : World) (url : string) (init : FetchInit)
  (m : Machine) : Machine :=
  match settle w init (fetch_net w (sent m) url init) with
  | Return _ => snd (suspend env w (fetched env w url init m))
  | Throw _ => fetched env w url init m
  end.

(** [options.body ? JSON.parse(options.body) : undefined] *)
Definition native_payload (w : World) (options : Options)
  : Completion (option JSON) :=
  match opt_body options with
  | Some b =>
      if truthy_string (opt_body options)
      then match JSON_parse w b with
           | inl e => Throw e
           | inr d => Return (Some d)
           end
      else Return None
  | None => Return None
  end.

(** How a dispatch over the native transport completes, in part_000 and in
    AuthContext.js. *)
Definition native_completion000 (o : NativeOutcome) : Completion JSON :=
  match o with
  | NativeRejects e => Throw e
  | NativeResponds res =>
      if 400 <=? status res
      then Throw (new_Error (or_message (get_message_opt (data res)) "Request failed"))
      else Return (data res)
  end.

Definition native_completionAuth (w : World) (o : NativeOutcome) : Completion JSON :=
  match o with
  | NativeRejects e => Throw e
  | NativeResponds res =>
      if 400 <=? status res
      then Throw (rejection w "Something went wrong" (data res))
      else Return (data res)
  end.

(** The requests [apiCall] builds. *)
Definition call_init (method : option string) (h : gmap string string)
  (body : option string) : FetchInit :=
  {| init_method := Some (or_default method "GET"); init_headers := Some h;
     init_body := body; init_signal := Some 60000; init_timeout := None |}.

Definition call_request (url : string) (method : option string)
  (h : gmap string string) (payload : option JSON) : NativeRequest :=
  {| nat_url := url; nat_method := or_default method "GET"; nat_headers := h;
     nat_data := payload; readTimeout := 60000; connectTimeout := 60000 |}.

(** One more request, to [url], and no backoff wait. *)
Definition dispatched_once (url : string) (m m1 : Machine) : Prop :=
  sent m1 = S (sent m)
  /\ requests (trace m1) = requests (trace m) ++ [url]
  /\ sleeps (trace m1) = sleeps (trace m).

(** A dispatch that fails with an error the [catch] block retries: no
    answer within the 60000 ms of the abort timer, or a rejection that
    [retryable] accepts. *)
Definition transient_fetch (retryable : Error -> bool) (o : FetchOutcome) : bool :=
  (60000 <=? latency o)
  || match result o with
     | Rejects e => retryable e
     | Responds _ _ => false
     end.

Definition transient_native (retryable : Error -> bool) (o : NativeOutcome) : bool :=
  match o with
  | NativeRejects e => retryable e
  | NativeResponds _ => false
  end.

(** The [n]-th request sent fails transiently, whatever it is. *)
Definition fails_at (retryable : Error -> bool) (w : World) (n : nat) : Prop :=
  (forall url init, transient_fetch retryable (fetch_net w n url init) = true)
  /\ (forall req, transient_native retryable (native_net w n req) = true).

(** The [n]-th request sent is answered in time with a success status and
    the payload [d]. *)
Definition succeeds_at (w : World) (n : nat) (d : JSON) : Prop :=
  (forall url init,
      exists st,
        result (fetch_net w n url init) = Responds st (inr d)
        /\ latency (fetch_net w n url init) < 60000
        /\ 200 <= st <= 299)
  /\ (forall req,
         exists st,
           native_net w n req = NativeResponds (mkNativeResponse st d)
           /\ st < 400).

(** The body of the call is absent, empty or parsed by [JSON.parse]. *)
Definition body_parses (w : World) (options : Options) : Prop :=
  exists payload, native_payload w options = Return payload.

(** A backend that is unreachable when the first request is sent and
    answers every later one. *)
Definition waking_up : World :=
  {| isNative := false;
     fetch_net := fun n _ _ =>
       match n with
       | O => mkOutcome 20 (Rejects (mkError "TypeError" "Failed to fetch"))
       | S _ => mkOutcome 350 (Responds 200 (inr (JObject [("success", JBool true)])))
       end;
     native_net := fun n _ =>
       match n with
       | O => NativeRejects (new_Error "Unable to resolve host: network is unreachable")
       | S _ => NativeResponds (mkNativeResponse 200 (JObject [("success", JBool true)]))
       end;
     JSON_parse := fun _ => inr JNull;
     abort_message := "signal is aborted without reason";
     null_message := "Cannot read properties of null (reading 'message')";
     background := fun _ => [] |}.

Definition no_options : Options :=
  {| opt_method := None; opt_headers := None; opt_body := None |}.

Definition anonymous (url : string) : Render :=
  {| token := None; url_of_render := url |}.

(** A server that rejects every request with status 400 and the message
    [msg], reached over fetch or over the native transport. *)
Definition rejecting (native : bool) (msg : string) : World :=
  {| isNative := native;
     fetch_net := fun _ _ _ =>
       mkOutcome 120 (Responds 400 (inr (JObject [("message", JString msg)])));
     native_net := fun _ _ =>
       NativeResponds (mkNativeResponse 400 (JObject [("message", JString msg)]));
     JSON_parse := fun _ => inr (JObject []);
     abort_message := "signal is aborted without reason";
     null_message := "Cannot read properties of null (reading 'message')";
     background := fun _ => [] |}.

(** An engine for the examples: it parses the empty object and rejects the
    empty text and every other text with a SyntaxError. *)
Definition sample_parse (text : string) : Error + JSON :=
  if String.eqb text "{}" then inr (JObject [])
  else if String.eqb text "" then inl (mkError "SyntaxError" "Unexpected end of JSON input")
  else inl (mkError "SyntaxError" "Unexpected token in JSON").

(** The native app against a server that answers every request. *)
Definition native_app : World :=
  {| isNative := true;
     fetch_net := fun _ _ _ =>
       mkOutcome 20 (Rejects (mkError "TypeError" "Failed to fetch"));
     native_net := fun _ _ =>
       NativeResponds (mkNativeResponse 200 (JObject [("success", JBool true)]));
     JSON_parse := sample_parse;
     abort_message := "signal is aborted without reason";
     null_message := "Cannot read properties of null (reading 'message')";
     background := fun _ => [] |}.

(** The production backend is down and the local one is up; while the call
    waits out its first backoff, a health check started by another flow
    finishes and makes the local backend the active endpoint. *)
Definition failing_over : World :=
  {| isNative := false;
     fetch_net := fun _ url _ =>
       if String.prefix "http://localhost:5000/api" url
       then mkOutcome 15 (Responds 200 (inr (JObject [("success", JBool true)])))
       else mkOutcome 20 (Rejects (mkError "TypeError" "Failed to fetch"));
     native_net := fun _ _ =>
       NativeRejects (new_Error "Unable to resolve host: network is unreachable");
     JSON_parse := sample_parse;
     abort_message := "signal is aborted without reason";
     null_message := "Cannot read properties of null (reading 'message')";
     background := fun n =>
       match n with
       | 1%nat => [SetApiStatus checking; SetCurrentApiUrl Local; SetApiStatus local]
       | _ => []
       end |}.

(** Every request of [t] goes to the active endpoint that is current when
    it is dispatched ([u] at the start of [t]), followed by [endpoint]. *)
Fixpoint rereads (endpoint : string) (u : string) (t : list Event) : bool :=
  match t with
  | [] => true
  | EUrl u' :: rest => rereads endpoint u' rest
  | EFetch url _ :: rest =>
      String.eqb url (u +:+ endpoint) && rereads endpoint u rest
  | ERequest req :: rest =>
      String.eqb (nat_url req) (u +:+ endpoint) && rereads endpoint u rest
  | _ :: rest => rereads endpoint u rest
  end.

Definition post (body : string) : Options :=
  {| opt_method := Some "POST"; opt_headers := None; opt_body := Some body |}.

(** The operations of the three versions on the shared state: a health
    check or a call, each in a world of its own (its network answers and
    the writes of the flows that run beside it) and, for a call, from the
    render of any callback still held. *)
Inductive Op :=
| Probe000 (w : World)
| Probe001 (w : World)
| Call000 (w : World) (r : Render) (endpoint : string) (options : Options) (retries : Z)
| Call001 (w : World) (r : Render) (endpoint : string) (options : Options)
| CallAuth (w : World) (r : Render) (endpoint : string) (options : Options) (retries : Z).

Definition run_op (env : Env) (m : Machine) (op : Op) : Machine :=
  match op with
  | Probe000 w => snd (Part000.checkApiHealth env w m)
  | Probe001 w => snd (Part001.checkApiHealth env w m)
  | Call000 w r endpoint options retries =>
      snd (Part000.apiCall env w r endpoint options retries m)
  | Call001 w r endpoint options =>
      snd (Part001.apiCall env w r endpoint options m)
  | CallAuth w r endpoint options retries =>
      snd (AuthContext.apiCall env w r endpoint options retries m)
  end.

Definition run (env : Env) (ops : list Op) (m : Machine) : Machine :=
  fold_left (run_op env) ops m.

(** The message of the error thrown when both endpoints failed, the first
    with [e1] and the second with [e2]. *)
Definition both_failed (was_local : bool) (e1 e2 : Error) : string :=
  if was_local
  then "Both APIs failed. Local: " +:+ message e1
       +:+ ", Production: " +:+ message e2
  else "Both production and local APIs failed. Production: " +:+ message e1
       +:+ ", Local: " +:+ message e2.

(** The endpoint [apiCall] of part_001 turns to when the endpoint of its
    render fails. *)
Definition other_endpoint (env : Env) (r : Render) : string :=
  if String.eqb (url_of_render r) (LOCAL_API_URL env)
  then PRODUCTION_API_URL env
  else LOCAL_API_URL env.

(** A request of part_001's [apiCall]: a fetch with the [config] of the
    call, to one of the three URLs the call can name. *)
Definition failover_request (env : Env) (r : Render) (endpoint : string)
  (options : Options) (e : Event) : Prop :=
  match e with
  | EFetch u init =>
      init = Part001.config r options
      /\ (u = url_of_render r +:+ endpoint
          \/ u = LOCAL_API_URL env +:+ endpoint
          \/ u = PRODUCTION_API_URL env +:+ endpoint)
  | ERequest _ => False
  | _ => True
  end.

(** Two worlds whose networks give the same answers, after delays of their
    own. *)
Definition same_answers (w w' : World) : Prop :=
  forall n url init,
    result (fetch_net w n url init) = result (fetch_net w' n url init).

(** ** src/backend/server.js *)

Module Server.

(** FRONTEND_URL and the Origin header are texts that [trim] reads
    character by character, beyond ASCII too: they are the sequences of
    UTF-16 code units that the strings of the engine are.  ([NODE_ENV] is
    only compared and echoed.) *)
Definition text : Type := list N.

(** The text of an ASCII literal. *)
Fixpoint units (s : string) : text :=
  match s with
  | EmptyString => []
  | String c rest => N_of_ascii c :: units rest
  end.

(** The characters [String.prototype.trim] removes: WhiteSpace and
    LineTerminator of ECMAScript, that is tab, line feed, vertical tab,
    form feed, carriage return, space, U+00A0, U+1680, U+2000 to U+200A,
    U+2028, U+2029, U+202F, U+205F, U+3000 and U+FEFF. *)
Definition is_space (c : N) : bool :=
  ((9 <=? c) && (c <=? 13) || (c =? 32) || (c =? 160) || (c =? 5760)
   || (8192 <=? c) && (c <=? 8202) || (c =? 8232) || (c =? 8233)
   || (c =? 8239) || (c =? 8287) || (c =? 12288) || (c =? 65279))%N.

Fixpoint trimStart (s : text) : text :=
  match s with
  | [] => []
  | c :: rest => if is_space c then trimStart rest else s
  end.

Fixpoint trimEnd (s : text) : text :=
  match s with
  | [] => []
  | c :: rest =>
      match trimEnd rest with
      | [] => if is_space c then [] else [c]
      | kept => c :: kept
      end
  end.

(** [url.trim()] *)
Definition trim (s : text) : text := trimEnd (trimStart s).

(** The piece of [s] before the first [sep] and the pieces after it. *)
Fixpoint split_first (sep : N) (s : text) : text * list text :=
  match s with
  | [] => ([], [])
  | c :: rest =>
      let (piece, pieces) := split_first sep rest in
      if (c =? sep)%N then ([], piece :: pieces)
      else (c :: piece, pieces)
  end.

(** [s.split(sep)] for a separator of one character: always at least one
    piece. *)
Definition split (sep : N) (s : text) : list text :=
  let (piece, pieces) := split_first sep s in piece :: pieces.

(** [a === b] on two texts *)
Fixpoint text_eqb (a b : text) : bool :=
  match a, b with
  | [], [] => true
  | x :: a', y :: b' => (x =? y)%N && text_eqb a' b'
  | _, _ => false
  end.

(** The comma of [split(',')] *)
Definition comma : N := 44%N.

(** [process.env] of the server *)
Record ProcessEnv := mkProcessEnv {
  FRONTEND_URL : option text;
  NODE_ENV : option string
}.

Definition allowedOrigins (penv : ProcessEnv) : list text :=
  match FRONTEND_URL penv with
  | Some ((_ :: _) as urls) => map trim (split comma urls)
  | _ => [units "http://localhost:3000"; units "http://localhost:3001"]
  end.

(** [NODE_ENV === 'development'] *)
Definition development (penv : ProcessEnv) : bool :=
  match NODE_ENV penv with
  | Some e => String.eqb e "development"
  | None => false
  end.

(** The [origin] function handed to [cors]: [callback(null, true)] is
    [Return true], [callback(new Error(...))] is [Throw].  The request's
    origin is [None] when the header is absent; an empty one is falsy
    too. *)
Definition origin (penv : ProcessEnv) (o : option text) : Completion bool :=
  match o with
  | Some ((_ :: _) as requested) =>
      if existsb (text_eqb requested) (allowedOrigins penv) || development penv
      then Return true
      else Throw (new_Error "Not allowed by CORS")
  | _ => Return true
  end.

(** What a handler sends: [res.status(...)] (200 when not called) and the
    object given to [res.json]. *)
Record Reply := mkReply { reply_status : Z; reply_body : JSON }.

(** [app.get('/api/health', ...)]: [readyState] is
    [mongoose.connection.readyState], [timestamp] the ISO text of the
    current date.  A key whose value is [undefined] is left out of the
    JSON text. *)
Definition health (penv : ProcessEnv) (readyState : Z) (timestamp : string) : Reply :=
  {| reply_status := 200;
     reply_body :=
       JObject
         ([("status", JString "OK");
           ("message", JString "Yoga API Server is running");
           ("timestamp", JString timestamp)]
          ++ match NODE_ENV penv with
             | Some e => [("environment", JString e)]
             | None => []
             end
          ++ [("database",
               JString (if readyState =? 1 then "Connected" else "Disconnected"))]) |}.

(** The error handling middleware *)
Definition error_handler (penv : ProcessEnv) (err : Error) : Reply :=
  {| reply_status := 500;
     reply_body :=
       JObject
         [("message", JString "Something went wrong!");
          ("error",
           JString (if development penv then message err
                    else "Internal server error"))] |}.

(** The 404 handler *)
Definition not_found : Reply :=
  {| reply_status := 404;
     reply_body := JObject [("message", JString "Route not found")] |}.

End Server.

(** [c] occurs in [s]. *)
Fixpoint has_unit (c : N) (s : Server.text) : bool :=
  match s with
  | [] => false
  | x :: rest => (x =? c)%N || has_unit c rest
  end.

(** [s] is white space only; [s] neither begins nor ends with white
    space. *)
Fixpoint blank (s : Server.text) : bool :=
  match s with
  | [] => true
  | c :: rest => Server.is_space c && blank rest
  end.

Definition trimmed (s : Server.text) : Prop := Server.trim s = s.

(** [l.join(',')] *)
Fixpoint join_comma (l : list Server.text) : Server.text :=
  match l with
  | [] => []
  | [x] => x
  | x :: rest => x ++ Server.comma :: join_comma rest
  end.

(** An entry of FRONTEND_URL: an origin [u] between white space [a] and
    [b]. *)
Definition padded (entry : Server.text * Server.text * Server.text) : Server.text :=
  let '(a, u, b) := entry in a ++ u ++ b.

Definition bare (entry : Server.text * Server.text * Server.text) : Server.text :=
  let '(_, u, _) := entry in u.

Definition well_padded (entry : Server.text * Server.text * Server.text) : Prop :=
  let '(a, u, b) := entry in
  blank a = true /\ blank b = true /\ trimmed u /\ has_unit Server.comma u = false.

(** The [n]-th request sent is answered within the time limit by the
    server's reply [rep]. *)
Definition replies_at (w : World) (n : nat) (rep : Server.Reply) : Prop :=
  (forall url init,
      result (fetch_net w n url init)
      = Responds (Server.reply_status rep) (inr (Server.reply_body rep))
      /\ latency (fetch_net w n url init) < 60000)
  /\ (forall req,
         native_net w n req
         = NativeResponds (mkNativeResponse (Server.reply_status rep)
                             (Server.reply_body rep))).

(** The server as deployed without configuration, and one with two
    origins configured. *)
Definition bare_server : Server.ProcessEnv :=
  {| Server.FRONTEND_URL := None; Server.NODE_ENV := None |}.

Definition two_origins : list (Server.text * Server.text * Server.text) :=
  [([], Server.units "https://yoga.example.com", []);
   ([160; 32]%N, Server.units "http://localhost:3000", [8232; 65279; 9]%N)].

(** The message the client shows for a reply of the 404 handler or of the
    error handler. *)
Definition reply_message (rep : Server.Reply) : string :=
  if Server.reply_status rep =? 404 then "Route not found"
  else "Something went wrong!".

(** An answer of the server that arrives after [lat] ms. *)
Definition served (lat : Z) (rep : Server.Reply) : FetchOutcome :=
  mkOutcome lat (Responds (Server.reply_status rep) (inr (Server.reply_body rep))).

(** A network on which the server answers every request at once with
    [rep]. *)
Definition answering (native : bool) (rep : Server.Reply) : World :=
  {| isNative := native;
     fetch_net := fun _ _ _ => served 80 rep;
     native_net := fun _ _ =>
       NativeResponds (mkNativeResponse (Server.reply_status rep) (Server.reply_body rep));
     JSON_parse := sample_parse;
     abort_message := "signal is aborted without reason";
     null_message := "Cannot read properties of null (reading 'message')";
     background := fun _ => [] |}.

(** ** The session state of the provider *)

Module Session.

(** The state variables of [AuthProvider] beside the two of the machine,
    and the [yogaToken] entry of [localStorage].  A value that can be
    [undefined] is an [option]: [None] is [undefined], [Some JNull] is
    [null].  [yogaToken] is what [getItem] returns, [None] for [null]. *)
Record State := mkState {
  machine : Machine;
  user : option JSON;
  token : option JSON;
  loading : bool;
  error : string;
  yogaToken : option string
}.

(** What [login], [register] and [updateProfile] return:
    [{ success: true, message }], [{ success: false, message }], or
    nothing when the function ends without a [return]. *)
Inductive Result :=
| Succeeded (message : option JSON)
| Failed (message : option string)
| NoResult.

(** What [addAchievement] returns: [null], or
    [{ isNew: response.isNew, progress: response.progress }]. *)
Inductive Achievement :=
| NoAchievement
| Achieved (isNew progress : option JSON).

Definition A (X : Type) : Type := State -> Completion X * State.

Definition retA {X} (x : X) : A X := fun a => (Return x, a).

Definition throwA {X} (e : Error) : A X := fun a => (Throw e, a).

Definition bindA {X Y} (c : A X) (k : X -> A Y) : A Y :=
  fun a =>
    match c a with
    | (Return x, a') => k x a'
    | (Throw e, a') => (Throw e, a')
    end.

(** [try { c } catch (e) { handler e }] *)
Definition try_catchA {X} (c : A X) (handler : Error -> A X) : A X :=
  fun a =>
    match c a with
    | (Return x, a') => (Return x, a')
    | (Throw e, a') => handler e a'
    end.

(** [try { c } finally { f }]: [f] runs after [c] however [c] completes,
    and the completion is the one of [c] unless [f] throws. *)
Definition try_finally {X} (c : A X) (f : A unit) : A X :=
  fun a =>
    match c a with
    | (completion, a') =>
        match f a' with
        | (Return _, a'') => (completion, a'')
        | (Throw e, a'') => (Throw e, a'')
        end
    end.

(** A step of the machine, taken in the session. *)
Definition lift {X} (c : M X) : A X :=
  fun a =>
    match c (machine a) with
    | (completion, m') =>
        (completion,
         {| machine := m'; user := user a; token := token a;
            loading := loading a; error := error a; yogaToken := yogaToken a |})
    end.

Definition setUser (v : option JSON) : A unit :=
  fun a =>
    (Return tt,
     {| machine := machine a; user := v; token := token a;
        loading := loading a; error := error a; yogaToken := yogaToken a |}).

Definition setToken (v : option JSON) : A unit :=
  fun a =>
    (Return tt,
     {| machine := machine a; user := user a; token := v;
        loading := loading a; error := error a; yogaToken := yogaToken a |}).

Definition setLoading (b : bool) : A unit :=
  fun a =>
    (Return tt,
     {| machine := machine a; user := user a; token := token a;
        loading := b; error := error a; yogaToken := yogaToken a |}).

Definition setError (s : string) : A unit :=
  fun a =>
    (Return tt,
     {| machine := machine a; user := user a; token := token a;
        loading := loading a; error := s; yogaToken := yogaToken a |}).

(** The text a value is stored as: [String(v)]. *)
Definition String_of (v : option JSON) : string :=
  match v with
  | Some j => to_String j
  | None => "undefined"
  end.

(** [localStorage.setItem('yogaToken', v)] *)
Definition setItem (v : option JSON) : A unit :=
  fun a =>
    (Return tt,
     {| machine := machine a; user := user a; token := token a;
        loading := loading a; error := error a;
        yogaToken := Some (String_of v) |}).

(** [localStorage.removeItem('yogaToken')] *)
Definition removeItem : A unit :=
  fun a =>
    (Return tt,
     {| machine := machine a; user := user a; token := token a;
        loading := loading a; error := error a; yogaToken := None |}).

(** [d.k] on a payload: a TypeError on [null], whose text [null_read k]
    is the engine's; undefined on the other values that are not objects. *)
Definition read (null_read : string -> string) (d : JSON) (k : string)
  : A (option JSON) :=
  match d with
  | JNull => throwA (mkError "TypeError" (null_read k))
  | JObject fields => retA (lookup_field k fields)
  | _ => retA None
  end.

(** The token as a callback of the render sees it in
    [token && { Authorization: `Bearer ${token}` }]: its text when it is
    truthy.  A render holds a text or nothing, so this is exact for the
    tokens that are [null], [undefined] or a text, and for every other
    value whose text is not empty; the statements below use it for those
    only. *)
Definition token_text (v : option JSON) : option string :=
  match v with
  | Some j => if truthy v then Some (to_String j) else None
  | None => None
  end.

(** The constants of the render made from the state [a]. *)
Definition render_of (a : State) : Render :=
  mkRender (token_text (token a)) (currentApiUrl (machine a)).

(** The state in which the provider starts: the token is read from
    [localStorage]. *)
Definition start (env : Env) (stored : option string) : State :=
  {| machine := initial env;
     user := Some JNull;
     token := match stored with
              | Some s => Some (JString s)
              | None => Some JNull
              end;
     loading := true;
     error := "";
     yogaToken := stored |}.

(** [!!user] *)
Definition isAuthenticated (a : State) : bool := truthy (user a).

End Session.

Declare Scope app_scope.
Delimit Scope app_scope with app.
Notation "x <- c ;; k" := (Session.bindA c (fun x => k))
  (at level 100, c at next level, right associativity) : app_scope.
Notation "c ;; k" := (Session.bindA c (fun _ => k))
  (at level 100, right associativity) : app_scope.

Definition with_method (method : string) (body : option string) : Options :=
  {| opt_method := Some method; opt_headers := None; opt_body := body |}.

(** The [token] of a render, under a name that the [token] of the session
    does not hide. *)
Definition render_token (r : Render) : option string := token r.

(** ** The flows of src/frontend/src/contexts/AuthContext.js *)

Module Provider.
Import Session.
Section Flows.
Context (env : Env) (w : World) (null_read : string -> string).

(** The functions below belong to one render [r]: they call the [apiCall]
    of that render, with its default budget of 2. *)
Context (r : Render).

Definition apiCall (endpoint : string) (options : Options) : A JSON :=
  lift (AuthContext.apiCall env w r endpoint options 2).

Definition verifyToken : A unit :=
  (if negb (truthy_string (render_token r)) then setLoading false
   else
     try_finally
       (try_catchA
          (response <- apiCall "/auth/verify-token" (with_method "POST" None) ;;
           success <- read null_read response "success" ;;
           if truthy success
           then userData <- read null_read response "user" ;; setUser userData
           else removeItem ;; setToken (Some JNull))
          (fun error => removeItem ;; setToken (Some JNull)))
       (setLoading false))%app.

(** "Wake up the server first": the inner [try] of [login] and of
    [register].  The native request object has a url and a method only; the
    record has the empty map and 0 where it has no key. *)
Definition wake_up : A unit :=
  (try_catchA
     (if isNative w
      then _ <- lift (CapacitorHttp_request env w
                        {| nat_url := AuthContext.API_BASE_URL env +:+ "/health";
                           nat_method := "GET"; nat_headers := ∅;
                           nat_data := None; readTimeout := 0;
                           connectTimeout := 0 |}) ;;
           retA tt
      else _ <- lift (fetch env w (AuthContext.API_BASE_URL env +:+ "/health")
                        {| init_method := Some "GET"; init_headers := None;
                           init_body := None; init_signal := None;
                           init_timeout := None |}) ;;
           retA tt)
     (fun e => retA tt))%app.

(** [loginData] is an object and [body] is the text
    [JSON.stringify(loginData)] returns; [response.success] is first read
    for the console, before the message is cleared. *)
Definition login (body : string) : A Result :=
  (try_finally
     (try_catchA
        (setError "" ;;
         setLoading true ;;
         setError "Waking up server... This may take up to 60 seconds on first request." ;;
         wake_up ;;
         setError "Logging in..." ;;
         response <- apiCall "/auth/login" (with_method "POST" (Some body)) ;;
         success <- read null_read response "success" ;;
         setError "" ;;
         if truthy success
         then newToken <- read null_read response "token" ;;
              userData <- read null_read response "user" ;;
              setItem newToken ;;
              setToken newToken ;;
              setUser userData ;;
              message <- read null_read response "message" ;;
              retA (Succeeded message)
         else retA NoResult)
        (fun error =>
           let errorMessage :=
             if includes (message error) "fetch"
                || includes (message error) "NetworkError"
                || includes (message error) "Failed to fetch"
             then "Cannot connect to server at " +:+ AuthContext.API_BASE_URL env
                  +:+ ". Please check your internet connection and try again."
             else message error in
           setError errorMessage ;;
           retA (Failed (Some errorMessage))))
     (setLoading false))%app.

Definition register (body : string) : A Result :=
  (try_finally
     (try_catchA
        (setError "" ;;
         setLoading true ;;
         setError "Waking up server... This may take up to 60 seconds on first request." ;;
         wake_up ;;
         setError "Creating account..." ;;
         response <- apiCall "/auth/register" (with_method "POST" (Some body)) ;;
         setError "" ;;
         success <- read null_read response "success" ;;
         if truthy success
         then newToken <- read null_read response "token" ;;
              userData <- read null_read response "user" ;;
              setItem newToken ;;
              setToken newToken ;;
              setUser userData ;;
              message <- read null_read response "message" ;;
              retA (Succeeded message)
         else retA NoResult)
        (fun error =>
           setError (message error) ;;
           retA (Failed (Some (message error)))))
     (setLoading false))%app.

Definition logout : A unit :=
  (removeItem ;;
   setToken (Some JNull) ;;
   setUser (Some JNull) ;;
   setError "")%app.

Definition updateProfile (body : string) : A Result :=
  (try_catchA
     (response <- apiCall "/user/profile" (with_method "PUT" (Some body)) ;;
      success <- read null_read response "success" ;;
      if truthy success
      then userData <- read null_read response "user" ;;
           setUser userData ;;
           message <- read null_read response "message" ;;
           retA (Succeeded message)
      else retA NoResult)
     (fun error => retA (Failed (Some (message error)))))%app.

Definition getProgress : A (option JSON) :=
  (try_catchA
     (response <- apiCall "/progress" no_options ;;
      success <- read null_read response "success" ;;
      if truthy success then read null_read response "progress"
      else retA (Some JNull))
     (fun error => retA (Some JNull)))%app.

Definition addSession (body : string) : A (option JSON) :=
  (try_catchA
     (response <- apiCall "/progress/session" (with_method "POST" (Some body)) ;;
      success <- read null_read response "success" ;;
      if truthy success then read null_read response "progress"
      else retA (Some JNull))
     (fun error => retA (Some JNull)))%app.

Definition addAchievement (body : string) : A Achievement :=
  (try_catchA
     (response <- apiCall "/progress/achievement" (with_method "POST" (Some body)) ;;
      success <- read null_read response "success" ;;
      if truthy success
      then isNew <- read null_read response "isNew" ;;
           progress <- read null_read response "progress" ;;
           retA (Achieved isNew progress)
      else retA NoAchievement)
     (fun error => retA NoAchievement))%app.

Definition getStats : A (option JSON) :=
  (try_catchA
     (response <- apiCall "/progress/stats" no_options ;;
      success <- read null_read response "success" ;;
      if truthy success then read null_read response "stats"
      else retA (Some JNull))
     (fun error => retA (Some JNull)))%app.

End Flows.
End Provider.

(** ** The flows of src/unnamed/part_000 *)

Module Provider000.
Import Session.
Section Flows.
Context (env : Env) (w : World) (null_read : string -> string).
Context (r : Render).

Definition apiCall (endpoint : string) (options : Options) : A JSON :=
  lift (Part000.apiCall env w r endpoint options 2).

(** The effect of the provider: the health check, then the verification of
    the token of the render. *)
Definition init : A unit :=
  (lift (Part000.checkApiHealth env w) ;;
   if negb (truthy_string (render_token r)) then setLoading false
   else
     try_finally
       (try_catchA
          (res <- apiCall "/auth/verify-token" (with_method "POST" None) ;;
           success <- read null_read res "success" ;;
           if truthy success
           then userData <- read null_read res "user" ;; setUser userData
           else throwA (new_Error "Invalid token"))
          (fun _ => removeItem ;; setToken (Some JNull)))
       (setLoading false))%app.

(** [await fetch(`${currentApiUrl}/health`).catch(() => {})] *)
Definition wake_up : A unit :=
  (try_catchA
     (lift (fetch env w (url_of_render r +:+ "/health")
              {| init_method := None; init_headers := None; init_body := None;
                 init_signal := None; init_timeout := None |}) ;;
      retA tt)
     (fun _ => retA tt))%app.

Definition login (body : string) : A Result :=
  (try_finally
     (try_catchA
        (setLoading true ;;
         setError "Waking up server…" ;;
         wake_up ;;
         res <- apiCall "/auth/login" (with_method "POST" (Some body)) ;;
         newToken <- read null_read res "token" ;;
         setItem newToken ;;
         setToken newToken ;;
         userData <- read null_read res "user" ;;
         setUser userData ;;
         setError "" ;;
         retA (Succeeded None))
        (fun err =>
           setError "Unable to connect to server. Please try again." ;;
           retA (Failed None)))
     (setLoading false))%app.

Definition register (body : string) : A Result :=
  (try_finally
     (try_catchA
        (setLoading true ;;
         res <- apiCall "/auth/register" (with_method "POST" (Some body)) ;;
         newToken <- read null_read res "token" ;;
         setItem newToken ;;
         setToken newToken ;;
         userData <- read null_read res "user" ;;
         setUser userData ;;
         retA (Succeeded None))
        (fun err =>
           setError (message err) ;;
           retA (Failed None)))
     (setLoading false))%app.

Definition logout : A unit :=
  (removeItem ;;
   setUser (Some JNull) ;;
   setToken (Some JNull))%app.

End Flows.
End Provider000.

(** ** The flows of src/unnamed/part_001 *)

Module Provider001.
Import Session.
Section Flows.
Context (env : Env) (w : World) (null_read : string -> string).
Context (r : Render).

Definition apiCall (endpoint : string) (options : Options) : A JSON :=
  lift (Part001.apiCall env w r endpoint options).

Definition initializeApp : A unit :=
  (lift (Part001.checkApiHealth env w) ;;
   if negb (truthy_string (render_token r)) then setLoading false
   else
     try_finally
       (try_catchA
          (response <- apiCall "/auth/verify-token" (with_method "POST" None) ;;
           success <- read null_read response "success" ;;
           if truthy success
           then userData <- read null_read response "user" ;; setUser userData
           else removeItem ;; setToken (Some JNull))
          (fun error => removeItem ;; setToken (Some JNull)))
       (setLoading false))%app.

(** The message [login] shows for the error it caught. *)
Definition errorMessage (error : Error) : string :=
  if includes (message error) "fetch" || includes (message error) "NetworkError"
  then "Cannot connect to server. Current API: "
       +:+ (if String.eqb (url_of_render r) (PRODUCTION_API_URL env)
            then "Production (Render)" else "Local")
       +:+ ". " +:+ message error
  else if includes (message error) "Both APIs failed"
  then "Both production and local servers are unavailable. Please try again later."
  else message error.

Definition login (body : string) : A Result :=
  (try_finally
     (try_catchA
        (setError "" ;;
         setLoading true ;;
         response <- apiCall "/auth/login" (with_method "POST" (Some body)) ;;
         success <- read null_read response "success" ;;
         if truthy success
         then newToken <- read null_read response "token" ;;
              userData <- read null_read response "user" ;;
              setItem newToken ;;
              setToken newToken ;;
              setUser userData ;;
              message <- read null_read response "message" ;;
              retA (Succeeded message)
         else retA NoResult)
        (fun error =>
           setError (errorMessage error) ;;
           retA (Failed (Some (errorMessage error)))))
     (setLoading false))%app.

Definition register (body : string) : A Result :=
  (try_finally
     (try_catchA
        (setError "" ;;
         setLoading true ;;
         response <- apiCall "/auth/register" (with_method "POST" (Some body)) ;;
         success <- read null_read response "success" ;;
         if truthy success
         then newToken <- read null_read response "token" ;;
              userData <- read null_read response "user" ;;
              setItem newToken ;;
              setToken newToken ;;
              setUser userData ;;
              message <- read null_read response "message" ;;
              retA (Succeeded message)
         else retA NoResult)
        (fun error =>
           setError (message error) ;;
           retA (Failed (Some (message error)))))
     (setLoading false))%app.

Definition logout : A unit :=
  (removeItem ;;
   setToken (Some JNull) ;;
   setUser (Some JNull) ;;
   setError "")%app.

Definition updateProfile (body : string) : A Result :=
  (try_catchA
     (response <- apiCall "/user/profile" (with_method "PUT" (Some body)) ;;
      success <- read null_read response "success" ;;
      if truthy success
      then userData <- read null_read response "user" ;;
           setUser userData ;;
           message <- read null_read response "message" ;;
           retA (Succeeded message)
      else retA NoResult)
     (fun error => retA (Failed (Some (message error)))))%app.

Definition getProgress : A (option JSON) :=
  (try_catchA
     (response <- apiCall "/progress" no_options ;;
      success <- read null_read response "success" ;;
      if truthy success then read null_read response "progress"
      else retA (Some JNull))
     (fun error => retA (Some JNull)))%app.

Definition addSession (body : string) : A (option JSON) :=
  (try_catchA
     (response <- apiCall "/progress/session" (with_method "POST" (Some body)) ;;
      success <- read null_read response "success" ;;
      if truthy success then read null_read response "progress"
      else retA (Some JNull))
     (fun error => retA (Some JNull)))%app.

Definition addAchievement (body : string) : A Achievement :=
  (try_catchA
     (response <- apiCall "/progress/achievement" (with_method "POST" (Some body)) ;;
      success <- read null_read response "success" ;;
      if truthy success
      then isNew <- read null_read response "isNew" ;;
           progress <- read null_read response "progress" ;;
           retA (Achieved isNew progress)
      else retA NoAchievement)
     (fun error => retA NoAchievement))%app.

Definition getStats : A (option JSON) :=
  (try_catchA
     (response <- apiCall "/progress/stats" no_options ;;
      success <- read null_read response "success" ;;
      if truthy success then read null_read response "stats"
      else retA (Some JNull))
     (fun error => retA (Some JNull)))%app.

End Flows.
End Provider001.

(** The credentials of a session: the user, the token and the stored
    token. *)
Definition same_session (a a' : Session.State) : Prop :=
  Session.user a' = Session.user a
  /\ Session.token a' = Session.token a
  /\ Session.yogaToken a' = Session.yogaToken a.

(** A flow that ended without a successful result left the credentials as
    they were. *)
Definition keeps_session_unless_succeeded (a : Session.State)
  (out : Completion Session.Result * Session.State) : Prop :=
  match fst out with
  | Return (Session.Succeeded _) => True
  | _ => same_session a (snd out)
  end.

(** A flow that returned normally, with [loading] off. *)
Definition settled {X} (out : Completion X * Session.State) : Prop :=
  (exists x, fst out = Return x) /\ Session.loading (snd out) = false.

(** [d.k] where it does not throw. *)
Definition field (d : JSON) (k : string) : option JSON :=
  match d with
  | JObject fields => lookup_field k fields
  | _ => None
  end.



(** A server that answers every request with status 200 and [payload]. *)
Definition accepting (native : bool) (payload : JSON) : World :=
  answering native {| Server.reply_status := 200; Server.reply_body := payload |}.

(** The texts of V8 for reading a property of [null]. *)
Definition v8_null_read (k : string) : string :=
  "Cannot read properties of null (reading '" +:+ k +:+ "')".


(** A flow that returned normally. *)
Definition returns {X} (out : Completion X * Session.State) : Prop :=
  exists x, fst out = Return x.

(** How the verification of the token at start leaves the session: signed
    in as [u] with the token kept, or signed out. *)
Definition signed_in (a a' : Session.State) (u : option JSON) : Prop :=
  Session.user a' = u
  /\ Session.token a' = Session.token a
  /\ Session.yogaToken a' = Session.yogaToken a.

Definition signed_out (a a' : Session.State) : Prop :=
  Session.user a' = Session.user a
  /\ Session.token a' = Some JNull
  /\ Session.yogaToken a' = None.

(** The session [a'] that the verification leaves, from the session [a]
    and the completion [res] of its call. *)
Definition verified (a : Session.State) (res : Completion JSON * Machine)
  (a' : Session.State) : Prop :=
  Session.machine a' = snd res
  /\ Session.loading a' = false
  /\ Session.error a' = Session.error a
  /\ match fst res with
     | Return d =>
         if truthy (field d "success") then signed_in a a' (field d "user")
         else signed_out a a'
     | Throw _ => signed_out a a'
     end.

(** The session that a start without a token leaves: no call is made. *)
Definition skipped (a : Session.State) (m : Machine) (a' : Session.State) : Prop :=
  a' = {| Session.machine := m; Session.user := Session.user a;
          Session.token := Session.token a; Session.loading := false;
          Session.error := Session.error a;
          Session.yogaToken := Session.yogaToken a |}.

(** The browser cannot reach the production backend: every request to a
    URL under its base is rejected, with an error that the retry test of
    part_000 accepts (as the "Failed to fetch" of the browsers is). *)
Definition production_unreachable (env : Env) (w : World) : Prop :=
  isNative w = false
  /\ forall n endpoint init,
       exists e,
         result (fetch_net w n (PRODUCTION_API_URL env +:+ endpoint) init) = Rejects e
         /\ Part000.retryable e = true.

(** The local backend is up: it answers its health request within the
    3000 ms of part_000 with a 2xx status. *)
Definition local_healthy (env : Env) (w : World) : Prop :=
  forall n init,
    healthy000 3000 (fetch_net w n (LOCAL_API_URL env +:+ "/health") init) = true.


(** The live state of the component is the same in [m'] as in [m]. *)
Definition same_state (m m' : Machine) : Prop :=
  apiStatus m' = apiStatus m /\ currentApiUrl m' = currentApiUrl m.

(** [s] begins with [p]. *)
Fixpoint starts_with (p s : string) : bool :=
  match p with
  | EmptyString => true
  | String a p' =>
      match s with
      | EmptyString => false
      | String b s' => Ascii.eqb a b && starts_with p' s'
      end
  end.

(** A network on which the production backend of [default_env] is down and
    every other request is answered with [payload]. *)
Definition outage (payload : JSON) : World :=
  {| isNative := false;
     fetch_net := fun _ url _ =>
       if starts_with "https://yoga-pose-detection-1.onrender.com/api" url
       then mkOutcome 20 (Rejects (mkError "TypeError" "Failed to fetch"))
       else mkOutcome 15 (Responds 200 (inr payload));
     native_net := fun _ _ =>
       NativeRejects (new_Error "Unable to resolve host: network is unreachable");
     JSON_parse := sample_parse;
     abort_message := "signal is aborted without reason";
     null_message := "Cannot read properties of null (reading 'message')";
     background := fun _ => [] |}.

(** A render of the first pass: the stored token [tok], and production as
    the active endpoint. *)
Definition first_render (env : Env) (tok : string) : Render :=
  {| token := Some tok; url_of_render := PRODUCTION_API_URL env |}.

(** The payload with which a backend accepts a token. *)
Definition accepted : JSON :=
  JObject [("success", JBool true);
           ("user", JObject [("name", JString "Asha")])].

(** The browser gets no answer: every fetch is rejected at once, before the
    timer of a call fires, with any error. *)
Definition rejected_at_once (w : World) : Prop :=
  isNative w = false
  /\ forall n url init,
       latency (fetch_net w n url init) < 60000
       /\ exists e, result (fetch_net w n url init) = Rejects e.

(** [e] is an error with which the network rejects a request. *)
Definition network_error (w : World) (e : Error) : Prop :=
  exists n url init, result (fetch_net w n url init) = Rejects e.

(** The message of [login] in AuthContext.js for a connection failure. *)
Definition cannot_connect (env : Env) : string :=
  "Cannot connect to server at " +:+ AuthContext.API_BASE_URL env
  +:+ ". Please check your internet connection and try again.".

(** The message of [login] in part_001 for a connection failure with the
    error message [msg]. *)
Definition cannot_connect001 (env : Env) (r : Render) (msg : string) : string :=
  "Cannot connect to server. Current API: "
  +:+ (if String.eqb (url_of_render r) (PRODUCTION_API_URL env)
       then "Production (Render)" else "Local")
  +:+ ". " +:+ msg.

(** The server answers every request in time, with a success status and
    the payload [d]. *)
Definition answers (w : World) (d : JSON) : Prop :=
  forall n, succeeds_at w n d.

(** The payload grants the session: [success] is truthy and [token] is the
    text [t], not empty. *)
Definition grants (d : JSON) (t : string) : Prop :=
  truthy (field d "success") = true
  /\ field d "token" = Some (JString t)
  /\ t <> "".

(** The session [a'] holds the user of the payload [d] and the token [t],
    in the state and in the storage, and a call made from its next render
    or after a restart carries [Bearer t].  [headers] gives the headers of
    a call without options, in the render it is given. *)
Definition signs_in_with (headers : Render -> gmap string string) (env : Env)
  (d : JSON) (t : string) (a' : Session.State) : Prop :=
  Session.user a' = field d "user"
  /\ Session.token a' = Some (JString t)
  /\ Session.yogaToken a' = Some t
  /\ Session.loading a' = false
  /\ headers (Session.render_of a') !! "Authorization" = Some ("Bearer " +:+ t)
  /\ headers (Session.render_of (Session.start env (Session.yogaToken a')))
     !! "Authorization" = Some ("Bearer " +:+ t).

(** The headers of a call without options, in the three versions. *)
Definition headersAuth (r : Render) : gmap string string :=
  AuthContext.headers r no_options.

Definition headers000 (r : Render) : gmap string string :=
  Part000.headers r no_options.

Definition headers001 (r : Render) : gmap string string :=
  default ∅ (init_headers (Part001.config r no_options)).

(** The event [e], if it is a request, carries [Bearer t] under
    Authorization. *)
Definition carries_bearer (t : string) (e : Event) : Prop :=
  match e with
  | EFetch _ init =>
      exists h, init_headers init = Some h
                /\ h !! "Authorization" = Some ("Bearer " +:+ t)
  | ERequest req => nat_headers req !! "Authorization" = Some ("Bearer " +:+ t)
  | _ => True
  end.

(** A session that holds a user and a token. *)
Definition holding_token : Session.State :=
  {| Session.machine := initial default_env;
     Session.user := Some (JObject [("name", JString "Asha")]);
     Session.token := Some (JString "eyJhbGciOi");
     Session.loading := false;
     Session.error := "";
     Session.yogaToken := Some "eyJhbGciOi" |}.

(** What part_000 makes of a payload [d]: it never reads [success]. *)
Definition taken000 (d : JSON) (a' : Session.State) : Prop :=
  Session.token a' = field d "token"
  /\ Session.user a' = field d "user"
  /\ Session.yogaToken a' = Some (Session.String_of (field d "token")).

(** The session [a'] is the session [a] signed off: no user, no token in
    the state or in the storage, and the machine as it was. *)
Definition signed_off (a a' : Session.State) : Prop :=
  Session.machine a' = Session.machine a
  /\ Session.user a' = Some JNull
  /\ Session.token a' = Some JNull
  /\ Session.yogaToken a' = None
  /\ Session.isAuthenticated a' = false
  /\ Session.loading a' = Session.loading a.

(** The session [a] on the machine [m]. *)
Definition on_machine (a : Session.State) (m : Machine) : Session.State :=
  {| Session.machine := m; Session.user := Session.user a;
     Session.token := Session.token a; Session.loading := Session.loading a;
     Session.error := Session.error a; Session.yogaToken := Session.yogaToken a |}.

(** A backend that sleeps: of the requests sent from [n] on, the second
    (the first attempt of the call, after the wake-up request) fails
    transiently and the third is answered with [d]. *)
Definition wakes_after (retryable : Error -> bool) (w : World) (n : nat) (d : JSON)
  : Prop :=
  fails_at retryable w (S n) /\ succeeds_at w (S (S n)) d.

(** A payload that grants a session. *)
Definition granted : JSON :=
  JObject [("success", JBool true); ("token", JString "eyJhbGciOi");
           ("user", JObject [("name", JString "Asha")])].

(** A backend that is asleep when the first two requests are sent and
    answers every later one with [granted]. *)
Definition asleep : World :=
  {| isNative := false;
     fetch_net := fun n _ _ =>
       match n with
       | O | S O => mkOutcome 20 (Rejects (mkError "TypeError" "Failed to fetch"))
       | _ => mkOutcome 350 (Responds 200 (inr granted))
       end;
     native_net := fun n _ =>
       match n with
       | O | S O => NativeRejects (new_Error "Unable to resolve host: network is unreachable")
       | _ => NativeResponds (mkNativeResponse 200 granted)
       end;
     JSON_parse := sample_parse;
     abort_message := "signal is aborted without reason";
     null_message := "Cannot read properties of null (reading 'message')";
     background := fun _ => [] |}.

(** The same backend behind a browser whose error for a failed fetch names
    neither fetch nor network (the "Load failed" of Safari). *)
Definition asleep_plainly : World :=
  {| isNative := false;
     fetch_net := fun n _ _ =>
       match n with
       | O | S O => mkOutcome 20 (Rejects (mkError "TypeError" "Load failed"))
       | _ => mkOutcome 350 (Responds 200 (inr granted))
       end;
     native_net := fun n _ =>
       match n with
       | O | S O => NativeRejects (new_Error "The Internet connection appears to be offline.")
       | _ => NativeResponds (mkNativeResponse 200 granted)
       end;
     JSON_parse := sample_parse;
     abort_message := "signal is aborted without reason";
     null_message := "Cannot read properties of null (reading 'message')";
     background := fun _ => [] |}.

(** An error status whose body is the JSON text [null]. *)
Definition null_reply (st : Z) : Server.Reply :=
  {| Server.reply_status := st; Server.reply_body := JNull |}.

(** The engine's text for reading [message] off [null] mentions neither
    "fetch" nor "network" (as the texts of V8, SpiderMonkey and
    JavaScriptCore do not). *)
Definition plain_null_message (w : World) : Prop :=
  includes (null_message w) "fetch" = false
  /\ includes (null_message w) "network" = false.

(** A production backend that wakes up: it answers its health request with
    200, but only after 90 s; the local backend answers at once. *)
Definition slow_production : World :=
  {| isNative := false;
     fetch_net := fun _ url _ =>
       if starts_with "https://yoga-pose-detection-1.onrender.com/api" url
       then mkOutcome 90000 (Responds 200 (inr (JObject [("status", JString "OK")])))
       else mkOutcome 10 (Responds 200 (inr (JObject [("status", JString "OK")])));
     native_net := fun _ _ =>
       NativeResponds (mkNativeResponse 200 (JObject [("status", JString "OK")]));
     JSON_parse := sample_parse;
     abort_message := "signal is aborted without reason";
     null_message := "Cannot read properties of null (reading 'message')";
     background := fun _ => [] |}.

(** A device without a connection whose errors name neither fetch nor
    network: the "Load failed" of Safari for a fetch, the "The Internet
    connection appears to be offline." of iOS for a native request. *)
Definition plainly_offline (native : bool) : World :=
  {| isNative := native;
     fetch_net := fun _ _ _ => mkOutcome 20 (Rejects (mkError "TypeError" "Load failed"));
     native_net := fun _ _ =>
       NativeRejects (new_Error "The Internet connection appears to be offline.");
     JSON_parse := sample_parse;
     abort_message := "signal is aborted without reason";
     null_message := "Cannot read properties of null (reading 'message')";
     background := fun _ => [] |}.

(** The same device when the connection comes back after the first request:
    every later request is answered with [granted]. *)
Definition plainly_waking (native : bool) : World :=
  {| isNative := native;
     fetch_net := fun n _ _ =>
       match n with
       | O => mkOutcome 20 (Rejects (mkError "TypeError" "Load failed"))
       | S _ => mkOutcome 350 (Responds 200 (inr granted))
       end;
     native_net := fun n _ =>
       match n with
       | O => NativeRejects (new_Error "The Internet connection appears to be offline.")
       | S _ => NativeResponds (mkNativeResponse 200 granted)
       end;
     JSON_parse := sample_parse;
     abort_message := "signal is aborted without reason";
     null_message := "Cannot read properties of null (reading 'message')";
     background := fun _ => [] |}.

(** The [n]-th request sent is not answered, whatever it is: a fetch is
    rejected, or still pending when the abort timer of the call fires; a
    native request is rejected.  Nothing is said of the error. *)
Definition unanswered_at (w : World) (n : nat) : Prop :=
  fails_at (fun _ => true) w n.

(** A dispatch that fails with an error that the test of the [catch] block
    does not accept: the request is rejected before the abort timer fires,
    with an error that [retryable] refuses. *)
Definition unmatched_fetch (retryable : Error -> bool) (o : FetchOutcome) : bool :=
  (latency o <? 60000)
  && match result o with
     | Rejects e => negb (retryable e)
     | Responds _ _ => false
     end.

Definition unmatched_native (retryable : Error -> bool) (o : NativeOutcome) : bool :=
  match o with
  | NativeRejects e => negb (retryable e)
  | NativeResponds _ => false
  end.

(** The [n]-th request sent fails so, whatever it is. *)
Definition fails_unmatched_at (retryable : Error -> bool) (w : World) (n : nat)
  : Prop :=
  (forall url init, unmatched_fetch retryable (fetch_net w n url init) = true)
  /\ (forall req, unmatched_native retryable (native_net w n req) = true).

(** The requests and the waits of a call that failed after [k] waits, from
    the machine [m]. *)
Definition failed_after (url : string) (k : nat) (m m' : Machine) : Prop :=
  requests (trace m') = requests (trace m) ++ repeat url (S k)
  /\ sleeps (trace m') = sleeps (trace m) ++ repeat 2000 k.

(** The browser gets no answer from the production backend: every request
    to a URL under its base is rejected, with any error. *)
Definition production_down (env : Env) (w : World) : Prop :=
  isNative w = false
  /\ forall n endpoint init,
       exists e,
         result (fetch_net w n (PRODUCTION_API_URL env +:+ endpoint) init) = Rejects e.

(** Every request to the production backend is rejected before the timer
    of a call fires, with an error that the retry test of part_000 refuses
    (as "Load failed" is). *)
Definition production_down_plainly (env : Env) (w : World) : Prop :=
  forall n endpoint init,
    unmatched_fetch Part000.retryable
      (fetch_net w n (PRODUCTION_API_URL env +:+ endpoint) init) = true.

(** A network on which the production backend of [default_env] is down,
    with the error of Safari, and every other request is answered with
    [payload]. *)
Definition plain_outage (payload : JSON) : World :=
  {| isNative := false;
     fetch_net := fun _ url _ =>
       if starts_with "https://yoga-pose-detection-1.onrender.com/api" url
       then mkOutcome 20 (Rejects (mkError "TypeError" "Load failed"))
       else mkOutcome 15 (Responds 200 (inr payload));
     native_net := fun _ _ =>
       NativeRejects (new_Error "The Internet connection appears to be offline.");
     JSON_parse := sample_parse;
     abort_message := "signal is aborted without reason";
     null_message := "Cannot read properties of null (reading 'message')";
     background := fun _ => [] |}.

(** * Lemmas on the primitives *)

Section PrimitiveFacts.
Context (env : Env) (w : World).

Lemma requests_app t1 t2 : requests (t1 ++ t2) = requests t1 ++ requests t2.
Proof.
  induction t1 as [|e t1 IH]; [reflexivity|].
  destruct e; simpl; rewrite ?IH; reflexivity.
Qed.

Lemma sleeps_app t1 t2 : sleeps (t1 ++ t2) = sleeps t1 ++ sleeps t2.
Proof.
  induction t1 as [|e t1 IH]; [reflexivity|].
  destruct e; simpl; rewrite ?IH; reflexivity.
Qed.

Lemma urls_written_app t1 t2 :
  urls_written (t1 ++ t2) = urls_written t1 ++ urls_written t2.
Proof.
  induction t1 as [|e t1 IH]; [reflexivity|].
  destruct e; simpl; rewrite ?IH; reflexivity.
Qed.

(** The background writes touch neither the counters nor the requests. *)
Lemma background_frame ws m :
  let m' := fold_left (apply_write env) ws m in
  sent m' = sent m /\ now m' = now m
  /\ trace m' = trace m ++ map (event_of_write env) ws.
Proof.
  revert m. induction ws as [|wr ws IH]; intros m; simpl.
  - rewrite app_nil_r. auto.
  - destruct (IH (apply_write env m wr)) as (Hs & Hn & Ht).
    rewrite Hs, Hn, Ht. destruct wr; simpl; rewrite <- app_assoc; auto.
Qed.

Lemma background_requests ws :
  requests (map (event_of_write env) ws) = [].
Proof. induction ws as [|[c|s] ws IH]; simpl; auto. Qed.

Lemma background_sleeps ws :
  sleeps (map (event_of_write env) ws) = [].
Proof. induction ws as [|[c|s] ws IH]; simpl; auto. Qed.

Lemma suspend_sent m : sent (snd (suspend env w m)) = sent m.
Proof. unfold suspend; simpl. apply background_frame. Qed.

Lemma suspend_requests m :
  requests (trace (snd (suspend env w m))) = requests (trace m).
Proof.
  unfold suspend; simpl.
  destruct (background_frame (background w (now m)) m) as (_ & _ & Ht).
  rewrite Ht, requests_app, background_requests, app_nil_r. reflexivity.
Qed.

Lemma suspend_sleeps m :
  sleeps (trace (snd (suspend env w m))) = sleeps (trace m).
Proof.
  unfold suspend; simpl.
  destruct (background_frame (background w (now m)) m) as (_ & _ & Ht).
  rewrite Ht, sleeps_app, background_sleeps, app_nil_r. reflexivity.
Qed.

Lemma fetch_eq url init m :
  fetch env w url init m
  = (settle w init (fetch_net w (sent m) url init), fetched env w url init m).
Proof.
  unfold fetch, fetched, settle, bind, count_sent, emit, throw, ret; simpl.
  destruct (init_signal init) as [ms|].
  - destruct (ms <=? _); [reflexivity|].
    destruct (result _); reflexivity.
  - destruct (result _); reflexivity.
Qed.

Lemma fetched_sent url init m : sent (fetched env w url init m) = S (sent m).
Proof. unfold fetched. rewrite suspend_sent. reflexivity. Qed.

Lemma fetched_requests url init m :
  requests (trace (fetched env w url init m)) = requests (trace m) ++ [url].
Proof.
  unfold fetched. rewrite suspend_requests. simpl.
  rewrite requests_app. reflexivity.
Qed.

Lemma fetched_sleeps url init m :
  sleeps (trace (fetched env w url init m)) = sleeps (trace m).
Proof.
  unfold fetched. rewrite suspend_sleeps. simpl.
  rewrite sleeps_app. simpl. apply app_nil_r.
Qed.

End PrimitiveFacts.

Lemma fetched_quiet env w url init m :
  apiStatus (fetched env (quiet w) url init m) = apiStatus m
  /\ currentApiUrl (fetched env (quiet w) url init m) = currentApiUrl m
  /\ urls_written (trace (fetched env (quiet w) url init m))
     = urls_written (trace m).
Proof.
  unfold fetched, suspend; simpl.
  rewrite urls_written_app; simpl. rewrite app_nil_r. auto.
Qed.

(** A health request of part_000 settles into a 2xx response exactly when
    the candidate is [healthy000]. *)
Lemma tryHealth_eq env w baseUrl ms m :
  Part000.tryHealth env w baseUrl ms m
  = (if healthy000 ms (fetch_net w (sent m) (baseUrl +:+ "/health") (health_init000 ms))
     then Return tt
     else match settle w (health_init000 ms)
                  (fetch_net w (sent m) (baseUrl +:+ "/health") (health_init000 ms)) with
          | Throw e => Throw e
          | Return _ => Throw (new_Error "Health check failed")
          end,
     fetched env w (baseUrl +:+ "/health") (health_init000 ms) m).
Proof.
  unfold Part000.tryHealth, bind. fold (health_init000 ms).
  rewrite fetch_eq.
  unfold settle, healthy000, responds_ok, ok; simpl.
  destruct (fetch_net _ _ _ _) as [lat [e|st body]]; simpl;
    rewrite Z.leb_antisym; destruct (lat <? ms); simpl; try reflexivity.
  destruct ((200 <=? st) && (st <=? 299)); reflexivity.
Qed.

(** * The health check, as a function of the two health requests *)

Section Probe.
Context (env : Env) (w : World) (m : Machine).

Let primary := PRODUCTION_API_URL env +:+ "/health".
Let fallback := LOCAL_API_URL env +:+ "/health".

Lemma checkApiHealth000_eq :
  let o1 := fetch_net w (sent m) primary (health_init000 6000) in
  let o2 := fetch_net w (S (sent m)) fallback (health_init000 3000) in
  let m1 := fetched env w primary (health_init000 6000) (write_status checking m) in
  let m2 := fetched env w fallback (health_init000 3000) m1 in
  Part000.checkApiHealth env w m
  = if healthy000 6000 o1
    then (Return production,
          write_status production (write_url (PRODUCTION_API_URL env) m1))
    else if healthy000 3000 o2
    then (Return local, write_status local (write_url (LOCAL_API_URL env) m2))
    else (Return offline, write_status offline m2).
Proof.
  intros o1 o2 m1 m2.
  unfold Part000.checkApiHealth, bind at 1, setApiStatus at 1, try_catch at 1.
  unfold bind at 1. rewrite tryHealth_eq.
  change (sent (write_status checking m)) with (sent m).
  fold primary o1 m1.
  destruct (healthy000 6000 o1); [reflexivity|].
  assert (Hthrow :
    exists e, match settle w (health_init000 6000) o1 with
              | Return _ => Throw (new_Error "Health check failed")
              | Throw e => Throw e
              end = @Throw unit e).
  { destruct (settle _ _ _); eauto. }
  destruct Hthrow as [e ->].
  unfold try_catch at 1, bind at 1. rewrite tryHealth_eq.
  unfold m1 at 1. rewrite fetched_sent.
  change (sent (write_status checking m)) with (sent m).
  fold fallback o2 m2.
  destruct (healthy000 3000 o2); [reflexivity|].
  destruct (settle _ _ _); reflexivity.
Qed.

Lemma checkApiHealth001_eq :
  let o1 := fetch_net w (sent m) primary (health_init001 5000) in
  let o2 := fetch_net w (S (sent m)) fallback (health_init001 3000) in
  let m1 := fetched env w primary (health_init001 5000) (write_status checking m) in
  let m2 := fetched env w fallback (health_init001 3000) m1 in
  Part001.checkApiHealth env w m
  = if healthy001 o1
    then (Return production,
          write_status production (write_url (PRODUCTION_API_URL env) m1))
    else if healthy001 o2
    then (Return local, write_status local (write_url (LOCAL_API_URL env) m2))
    else (Return offline, write_status offline m2).
Proof.
  intros o1 o2 m1 m2.
  unfold Part001.checkApiHealth, try_catch at 1, bind at 1, setApiStatus at 1.
  unfold bind at 1, try_catch at 1, bind at 1.
  fold (health_init001 5000) (health_init001 3000) primary fallback.
  rewrite fetch_eq.
  change (sent (write_status checking m)) with (sent m).
  fold o1 m1.
  unfold healthy001, responds_ok, settle, ok; simpl.
  destruct o1 as [lat1 [e1|st1 body1]]; simpl.
  - unfold try_catch at 1, bind at 1, bind at 1. rewrite fetch_eq.
    unfold m1 at 1. rewrite fetched_sent.
    change (sent (write_status checking m)) with (sent m).
    fold o2 m2. unfold settle; simpl.
    destruct o2 as [lat2 [e2|st2 body2]]; simpl; [reflexivity|].
    destruct ((200 <=? st2) && (st2 <=? 299)); reflexivity.
  - destruct ((200 <=? st1) && (st1 <=? 299)); [reflexivity|].
    unfold ret at 1.
    unfold try_catch at 1, bind at 1, bind at 1. rewrite fetch_eq.
    unfold m1 at 1. rewrite fetched_sent.
    change (sent (write_status checking m)) with (sent m).
    fold o2 m2. unfold settle; simpl.
    destruct o2 as [lat2 [e2|st2 body2]]; simpl; [reflexivity|].
    destruct ((200 <=? st2) && (st2 <=? 299)); reflexivity.
Qed.

End Probe.

(** * The health prober *)

(** Reads the observations off a machine built from [fetched] machines and
    state writes. *)
Ltac observe :=
  cbn [fst snd];
  unfold write_status, write_url;
  repeat progress
    (cbn [apiStatus currentApiUrl trace sent requests urls_written sleeps app];
     rewrite ?requests_app, ?fetched_requests, ?urls_written_app,
       ?sleeps_app, ?fetched_sleeps, ?fetched_sent, ?app_nil_r, <- ?app_assoc).

(** Whatever the two candidates answer, [checkApiHealth] follows their
    answers in priority order.  It returns and stores the status of
    [priority_status]: production when the primary answers its health
    request, whatever the fallback would answer; otherwise local when the
    fallback answers its own request; otherwise offline.  The active
    endpoint is the base URL of the candidate chosen, and the fallback is
    contacted only after the primary failed.  In part_000 a candidate
    answers when its 2xx response arrives before the abort timer (6000 and
    3000 ms); in part_001 it answers whenever a 2xx response arrives. *)
Lemma probe_follows_answers (env : Env) (w : World) (m : Machine) :
  let primary := PRODUCTION_API_URL env +:+ "/health" in
  let fallback := LOCAL_API_URL env +:+ "/health" in
  (let up1 := healthy000 6000 (fetch_net w (sent m) primary (health_init000 6000)) in
   let up2 := healthy000 3000 (fetch_net w (S (sent m)) fallback (health_init000 3000)) in
   let out := Part000.checkApiHealth env w m in
   fst out = Return (priority_status up1 up2)
   /\ apiStatus (snd out) = priority_status up1 up2
   /\ (if up1 then currentApiUrl (snd out) = PRODUCTION_API_URL env
       else if up2 then currentApiUrl (snd out) = LOCAL_API_URL env
       else True)
   /\ requests (trace (snd out)) = requests (trace m) ++ priority_requests env up1)
  /\
  (let up1 := healthy001 (fetch_net w (sent m) primary (health_init001 5000)) in
   let up2 := healthy001 (fetch_net w (S (sent m)) fallback (health_init001 3000)) in
   let out := Part001.checkApiHealth env w m in
   fst out = Return (priority_status up1 up2)
   /\ apiStatus (snd out) = priority_status up1 up2
   /\ (if up1 then currentApiUrl (snd out) = PRODUCTION_API_URL env
       else if up2 then currentApiUrl (snd out) = LOCAL_API_URL env
       else True)
   /\ requests (trace (snd out)) = requests (trace m) ++ priority_requests env up1).
Proof.
  intros primary fallback. split.
  - intros up1 up2 out. subst out.
    rewrite checkApiHealth000_eq. fold primary fallback up1 up2.
    unfold priority_status, priority_requests. fold primary fallback.
    destruct up1; [|destruct up2]; observe; auto.
  - intros up1 up2 out. subst out.
    rewrite checkApiHealth001_eq. fold primary fallback up1 up2.
    unfold priority_status, priority_requests. fold primary fallback.
    destruct up1; [|destruct up2]; observe; auto.
Qed.

(** C1, at a production backend that answers its health request with 200
    after 90 s while the local backend answers at once.  part_000 follows
    the priority algorithm with its timeout: the abort timer ends the
    primary attempt after 6000 ms and the local backend becomes active.
    part_001 does not: its [timeout: 5000] is a key that fetch does not
    read, so the check waits for the late answer, makes production active
    and never contacts the fallback. *)
Theorem C1_timeout_key_ignored :
  (let out := Part000.checkApiHealth default_env slow_production
                (initial default_env) in
   fst out = Return local
   /\ apiStatus (snd out) = local
   /\ currentApiUrl (snd out) = "http://localhost:5000/api"
   /\ requests (trace (snd out))
      = ["https://yoga-pose-detection-1.onrender.com/api/health";
         "http://localhost:5000/api/health"])
  /\
  (let out := Part001.checkApiHealth default_env slow_production
                (initial default_env) in
   fst out = Return production
   /\ apiStatus (snd out) = production
   /\ currentApiUrl (snd out) = "https://yoga-pose-detection-1.onrender.com/api"
   /\ requests (trace (snd out))
      = ["https://yoga-pose-detection-1.onrender.com/api/health"]).
Proof. vm_compute. repeat split; reflexivity. Qed.

(** C3.  For every answer of the network to the two health requests, a
    response of any status, a rejected promise or a timeout, in any
    combination, [checkApiHealth] returns a status and does not throw; the
    status it returns is the one it stored, and it is production, local or
    offline, never checking. *)
Theorem C3_probe_never_throws (env : Env) (w : World) (m : Machine) :
  (exists st m',
      Part000.checkApiHealth env w m = (Return st, m')
      /\ apiStatus m' = st
      /\ (st = production \/ st = local \/ st = offline))
  /\
  (exists st m',
      Part001.checkApiHealth env w m = (Return st, m')
      /\ apiStatus m' = st
      /\ (st = production \/ st = local \/ st = offline)).
Proof.
  split.
  - rewrite checkApiHealth000_eq.
    destruct (healthy000 6000 _); [|destruct (healthy000 3000 _)];
      eexists; eexists; (split; [reflexivity|]); observe; auto.
  - rewrite checkApiHealth001_eq.
    destruct (healthy001 _); [|destruct (healthy001 _)];
      eexists; eexists; (split; [reflexivity|]); observe; auto.
Qed.








(** * Continuation of machines *)

Lemma url_after_app t1 t2 u0 :
  url_after (t1 ++ t2) u0 = url_after t2 (url_after t1 u0).
Proof. apply fold_left_app. Qed.

Lemma extends_refl P m : extends P m m.
Proof. exists []. rewrite app_nil_r. auto. Qed.

Lemma extends_trans P m1 m2 m3 :
  extends P m1 m2 -> extends P m2 m3 -> extends P m1 m3.
Proof.
  intros (e1 & Ht1 & Hp1 & Hu1) (e2 & Ht2 & Hp2 & Hu2).
  exists (e1 ++ e2). rewrite Ht2, Ht1, <- app_assoc, url_after_app, <- Hu1.
  split; [reflexivity|]. split; [apply Forall_app; auto | exact Hu2].
Qed.

Section Grows.
Context (env : Env) (w : World) (P : Event -> Prop) (HP : ambient env w P).

Lemma grows_ret {A} (a : A) : grows P (ret a).
Proof. intros m. apply extends_refl. Qed.

Lemma grows_throw {A} (e : Error) : grows P (@throw A e).
Proof. intros m. apply extends_refl. Qed.

Lemma grows_bind {A B} (c : M A) (k : A -> M B) :
  grows P c -> (forall a, grows P (k a)) -> grows P (bind c k).
Proof.
  intros Hc Hk m. unfold bind. specialize (Hc m).
  destruct (c m) as [[a|e] m1]; cbn [snd] in *; [|exact Hc].
  eapply extends_trans; [exact Hc | apply Hk].
Qed.

Lemma grows_try_catch {A} (c : M A) (h : Error -> M A) :
  grows P c -> (forall e, grows P (h e)) -> grows P (try_catch c h).
Proof.
  intros Hc Hh m. unfold try_catch. specialize (Hc m).
  destruct (c m) as [[a|e] m1]; cbn [snd] in *; [exact Hc|].
  eapply extends_trans; [exact Hc | apply Hh].
Qed.

Lemma extends_write m wr :
  P (event_of_write env wr) -> extends P m (apply_write env m wr).
Proof.
  intros Hwr. destruct wr as [c|s].
  - exists [EUrl (candidate_url env c)]. repeat split; auto.
  - exists [EStatus s]. repeat split; auto.
Qed.

Lemma extends_background ws m :
  Forall (fun wr => P (event_of_write env wr)) ws ->
  extends P m (fold_left (apply_write env) ws m).
Proof.
  intros Hws. revert m. induction Hws as [|wr ws Hwr Hws IH]; intros m;
    [apply extends_refl|].
  eapply extends_trans; [apply extends_write; exact Hwr | apply IH].
Qed.

Lemma grows_suspend : grows P (suspend env w).
Proof.
  intros m.
  destruct (extends_background (background w (now m)) m (amb_background _ _ _ HP _))
    as (evs & Ht & Hp & Hu).
  exists evs. unfold suspend; cbn [snd trace currentApiUrl]. auto.
Qed.

Lemma grows_emit e :
  P e -> (forall u, e <> EUrl u) -> grows P (emit e).
Proof.
  intros He Hne m. exists [e]. unfold emit, log; cbn [snd trace currentApiUrl].
  split; [reflexivity|]. split; [constructor; auto|].
  destruct e; try reflexivity. exfalso. eapply Hne. reflexivity.
Qed.

Lemma grows_count_sent : grows P count_sent.
Proof. intros m. exists []. unfold count_sent; cbn. rewrite app_nil_r. auto. Qed.

Lemma grows_setCurrentApiUrl u : P (EUrl u) -> grows P (setCurrentApiUrl u).
Proof.
  intros Hu m. exists [EUrl u]. unfold setCurrentApiUrl, write_url; cbn.
  repeat split; auto.
Qed.

Lemma grows_setApiStatus s : grows P (setApiStatus s).
Proof.
  intros m. exists [EStatus s]. unfold setApiStatus, write_status; cbn.
  repeat split; auto. constructor; [apply HP | constructor].
Qed.

Lemma grows_fetch url init : P (EFetch url init) -> grows P (fetch env w url init).
Proof.
  intros He. unfold fetch.
  apply grows_bind; [apply grows_count_sent|]. intros n.
  apply grows_bind; [apply grows_emit; [exact He | discriminate]|]. intros _.
  apply grows_bind; [apply grows_suspend|]. intros _.
  destruct (init_signal init) as [ms|].
  - destruct (ms <=? _); [apply grows_throw|].
    destruct (result _); [apply grows_throw | apply grows_ret].
  - destruct (result _); [apply grows_throw | apply grows_ret].
Qed.

Lemma grows_json res : grows P (json env w res).
Proof.
  unfold json. apply grows_bind; [apply grows_suspend|]. intros _.
  destruct (res_json res); [apply grows_throw | apply grows_ret].
Qed.

Lemma grows_request req :
  P (ERequest req) -> grows P (CapacitorHttp_request env w req).
Proof.
  intros He. unfold CapacitorHttp_request.
  apply grows_bind; [apply grows_count_sent|]. intros n.
  apply grows_bind; [apply grows_emit; [exact He | discriminate]|]. intros _.
  apply grows_bind; [apply grows_suspend|]. intros _.
  destruct (native_net _ _ _); [apply grows_throw | apply grows_ret].
Qed.

Lemma grows_sleep ms : grows P (sleep env w ms).
Proof.
  unfold sleep. apply grows_bind; [|intros _; apply grows_suspend].
  apply grows_emit; [apply HP | discriminate].
Qed.

Lemma grows_parse text : grows P (parse w text).
Proof. unfold parse. destruct (JSON_parse w text); [apply grows_throw | apply grows_ret]. Qed.

Lemma grows_get_message d : grows P (get_message w d).
Proof. destruct d; first [apply grows_throw | apply grows_ret]. Qed.

End Grows.

(** * The retry loop *)

Lemma apiCall000_unfold env w r endpoint options retries m :
  Part000.apiCall env w r endpoint options retries m
  = match Part000.attempt env w r endpoint options m with
    | (Return d, m1) => (Return d, m1)
    | (Throw err, m1) =>
        if (0 <? retries) && Part000.retryable err
        then Part000.apiCall env w r endpoint options (retries - 1)
               (snd (sleep env w 2000 m1))
        else (Throw err, m1)
    end.
Proof.
  rewrite Part000.apiCall_equation_1.
  destruct (Part000.attempt env w r endpoint options m) as [[d|err] m1];
    cbn; [reflexivity|].
  destruct (Z_lt_dec 0 retries) as [Hlt|Hge]; cbn.
  - apply Z.ltb_lt in Hlt. rewrite Hlt. reflexivity.
  - apply Z.ltb_nlt in Hge. rewrite Hge. reflexivity.
Qed.

Lemma apiCallAuth_unfold env w r endpoint options retries m :
  AuthContext.apiCall env w r endpoint options retries m
  = match AuthContext.attempt env w r endpoint options m with
    | (Return d, m1) => (Return d, m1)
    | (Throw err, m1) =>
        if (0 <? retries) && AuthContext.retryable err
        then AuthContext.apiCall env w r endpoint options (retries - 1)
               (snd (sleep env w 2000 m1))
        else (Throw err, m1)
    end.
Proof.
  rewrite AuthContext.apiCall_equation_1.
  destruct (AuthContext.attempt env w r endpoint options m) as [[d|err] m1];
    cbn; [reflexivity|].
  destruct (Z_lt_dec 0 retries) as [Hlt|Hge]; cbn.
  - apply Z.ltb_lt in Hlt. rewrite Hlt. reflexivity.
  - apply Z.ltb_nlt in Hge. rewrite Hge. reflexivity.
Qed.

(** A property of the loop that holds when no retry follows and passes from
    the retry to the call that makes it holds of every call. *)
Lemma retry_induction (Q : Z -> Machine -> Prop) :
  (forall retries m, (0 < retries -> forall m', Q (retries - 1) m') -> Q retries m) ->
  forall retries m, Q retries m.
Proof.
  intros Hstep retries.
  remember (Z.to_nat retries) as n eqn:Hn. revert retries Hn.
  induction n as [|n IH]; intros retries Hn m; apply Hstep; intros Hpos.
  - lia.
  - apply IH. lia.
Qed.

Section CallGrows.
Context (env : Env) (w : World) (P : Event -> Prop) (HP : ambient env w P).
Context (r : Render) (endpoint : string) (options : Options).

Lemma grows_body :
  grows P
    match opt_body options with
    | Some b =>
        if truthy_string (opt_body options)
        then d <- parse w b ;; ret (Some d)
        else ret None
    | None => ret None
    end.
Proof.
  destruct (opt_body options) as [b|]; [|apply grows_ret].
  destruct (truthy_string _); [|apply grows_ret].
  apply grows_bind; [apply grows_parse | intros d; apply grows_ret].
Qed.

Lemma grows_attempt000 :
  (forall init, init_headers init = Some (Part000.headers r options) ->
                P (EFetch (Part000.url r endpoint) init)) ->
  (forall req, nat_url req = Part000.url r endpoint ->
               nat_headers req = Part000.headers r options ->
               P (ERequest req)) ->
  grows P (Part000.attempt env w r endpoint options).
Proof.
  intros HF HR. unfold Part000.attempt. destruct (isNative w).
  - apply grows_bind; [apply grows_body|]. intros payload.
    apply grows_bind; [eapply grows_request; eauto|]. intros res.
    destruct (400 <=? status res); [apply grows_throw | apply grows_ret].
  - apply grows_bind; [eapply grows_fetch; eauto|]. intros res.
    apply grows_bind; [eapply grows_json; eauto|]. intros d.
    destruct (negb (ok res)); [|apply grows_ret].
    apply grows_bind; [apply grows_get_message | intros msg; apply grows_throw].
Qed.

Lemma grows_apiCall000 :
  (forall init, init_headers init = Some (Part000.headers r options) ->
                P (EFetch (Part000.url r endpoint) init)) ->
  (forall req, nat_url req = Part000.url r endpoint ->
               nat_headers req = Part000.headers r options ->
               P (ERequest req)) ->
  forall retries m,
    extends P m (snd (Part000.apiCall env w r endpoint options retries m)).
Proof.
  intros HF HR. apply retry_induction. intros retries m IH.
  rewrite apiCall000_unfold.
  pose proof (grows_attempt000 HF HR m) as Hatt.
  destruct (Part000.attempt env w r endpoint options m) as [[d|err] m1];
    cbn [snd] in *; [exact Hatt|].
  destruct (0 <? retries) eqn:Hpos; cbn [andb]; [|exact Hatt].
  destruct (Part000.retryable err); [|exact Hatt].
  eapply extends_trans; [exact Hatt|].
  eapply extends_trans; [eapply (grows_sleep env w P HP 2000)|].
  apply IH. apply Z.ltb_lt. exact Hpos.
Qed.

Lemma grows_attemptAuth :
  (forall init, init_headers init = Some (AuthContext.headers r options) ->
                P (EFetch (AuthContext.url env endpoint) init)) ->
  (forall req, nat_url req = AuthContext.url env endpoint ->
               nat_headers req = AuthContext.headers r options ->
               P (ERequest req)) ->
  grows P (AuthContext.attempt env w r endpoint options).
Proof.
  intros HF HR. unfold AuthContext.attempt. destruct (isNative w).
  - apply grows_bind; [apply grows_body|]. intros payload.
    apply grows_bind; [eapply grows_request; eauto|]. intros res.
    destruct (400 <=? status res); [|apply grows_ret].
    apply grows_bind; [apply grows_get_message | intros msg; apply grows_throw].
  - apply grows_bind; [eapply grows_fetch; eauto|]. intros res.
    apply grows_bind; [eapply grows_json; eauto|]. intros d.
    destruct (negb (ok res)); [|apply grows_ret].
    apply grows_bind; [apply grows_get_message | intros msg; apply grows_throw].
Qed.

Lemma grows_apiCallAuth :
  (forall init, init_headers init = Some (AuthContext.headers r options) ->
                P (EFetch (AuthContext.url env endpoint) init)) ->
  (forall req, nat_url req = AuthContext.url env endpoint ->
               nat_headers req = AuthContext.headers r options ->
               P (ERequest req)) ->
  forall retries m,
    extends P m (snd (AuthContext.apiCall env w r endpoint options retries m)).
Proof.
  intros HF HR. apply retry_induction. intros retries m IH.
  rewrite apiCallAuth_unfold.
  pose proof (grows_attemptAuth HF HR m) as Hatt.
  destruct (AuthContext.attempt env w r endpoint options m) as [[d|err] m1];
    cbn [snd] in *; [exact Hatt|].
  destruct (0 <? retries) eqn:Hpos; cbn [andb]; [|exact Hatt].
  destruct (AuthContext.retryable err); [|exact Hatt].
  eapply extends_trans; [exact Hatt|].
  eapply extends_trans; [eapply (grows_sleep env w P HP 2000)|].
  apply IH. apply Z.ltb_lt. exact Hpos.
Qed.

End CallGrows.

(** * Headers *)

Lemma headers_lookup (tok : option string) (caller : option (gmap string string))
  (k : string) :
  spread (spread_auth {[ "Content-Type" := "application/json" ]} tok)
    (default ∅ caller) !! k
  = expected_header tok (default ∅ caller) k.
Proof.
  unfold spread, expected_header. rewrite lookup_union.
  destruct (default ∅ caller !! k) as [v|] eqn:Hc.
  - destruct (spread_auth _ tok !! k); reflexivity.
  - rewrite (left_id None _).
    unfold spread_auth, held, spread.
    destruct tok as [t|].
    + destruct (truthy_string (Some t)).
      * rewrite lookup_union, !lookup_singleton.
        destruct (String.eqb_spec k "Authorization") as [->|Hk].
        { reflexivity. }
        destruct (decide ("Authorization" = k)) as [E|_]; [congruence|].
        rewrite (left_id None _).
        destruct (String.eqb_spec k "Content-Type") as [->|Hk'].
        { reflexivity. }
        destruct (decide ("Content-Type" = k)); congruence.
      * rewrite lookup_singleton.
        destruct (String.eqb_spec k "Authorization") as [->|Hk]; [reflexivity|].
        destruct (String.eqb_spec k "Content-Type") as [->|Hk']; [reflexivity|].
        destruct (decide ("Content-Type" = k)); congruence.
    + rewrite lookup_singleton.
      destruct (String.eqb_spec k "Authorization") as [->|Hk]; [reflexivity|].
      destruct (String.eqb_spec k "Content-Type") as [->|Hk']; [reflexivity|].
      destruct (decide ("Content-Type" = k)); congruence.
Qed.

Lemma carries_ambient env w url h : ambient env w (carries url h).
Proof.
  split; intros; try exact I.
  apply Forall_forall. intros [c|s] _; exact I.
Qed.

Lemma dispatches000 env w r endpoint options retries m :
  exists evs,
    trace (snd (Part000.apiCall env w r endpoint options retries m)) = trace m ++ evs
    /\ Forall (carries (Part000.url r endpoint) (Part000.headers r options)) evs.
Proof.
  destruct (grows_apiCall000 env w _
              (carries_ambient env w (Part000.url r endpoint) (Part000.headers r options))
              r endpoint options)
    with (retries := retries) (m := m) as (evs & Ht & Hp & _).
  - intros init Hh. split; [reflexivity | exact Hh].
  - intros req Hu Hh. split; assumption.
  - exists evs. auto.
Qed.

Lemma dispatchesAuth env w r endpoint options retries m :
  exists evs,
    trace (snd (AuthContext.apiCall env w r endpoint options retries m)) = trace m ++ evs
    /\ Forall (carries (AuthContext.url env endpoint) (AuthContext.headers r options)) evs.
Proof.
  destruct (grows_apiCallAuth env w _
              (carries_ambient env w (AuthContext.url env endpoint)
                 (AuthContext.headers r options))
              r endpoint options)
    with (retries := retries) (m := m) as (evs & Ht & Hp & _).
  - intros init Hh. split; [reflexivity | exact Hh].
  - intros req Hu Hh. split; assumption.
  - exists evs. auto.
Qed.

(** C5.  The headers [apiCall] composes are, key by key, those of
    [expected_header]: the caller's value for every key the caller supplies,
    otherwise [Bearer <token>] under Authorization exactly when a token is
    held and [application/json] under Content-Type.  Every request the call
    dispatches, on the first attempt and on every retry, over fetch or over
    the native transport, carries these headers.  With no token held ([null]
    or the empty string) the Authorization key is the caller's own or, when
    the caller supplies none, absent. *)
Theorem C5_composed_headers (env : Env) (w : World) (r : Render)
  (endpoint : string) (options : Options) (retries : Z) (m : Machine) :
  let caller := default ∅ (opt_headers options) in
  (forall k, Part000.headers r options !! k = expected_header (token r) caller k)
  /\ (forall k, AuthContext.headers r options !! k = expected_header (token r) caller k)
  /\ (exists evs,
        trace (snd (Part000.apiCall env w r endpoint options retries m)) = trace m ++ evs
        /\ Forall (carries (Part000.url r endpoint) (Part000.headers r options)) evs)
  /\ (exists evs,
        trace (snd (AuthContext.apiCall env w r endpoint options retries m)) = trace m ++ evs
        /\ Forall (carries (AuthContext.url env endpoint) (AuthContext.headers r options)) evs)
  /\ expected_header None caller "Authorization" = caller !! "Authorization"
  /\ expected_header (Some "") caller "Authorization" = caller !! "Authorization"
  /\ expected_header None ∅ "Authorization" = None.
Proof.
  intros caller. repeat split.
  - intros k. apply headers_lookup.
  - intros k. apply headers_lookup.
  - apply dispatches000.
  - apply dispatchesAuth.
  - unfold expected_header. destruct (caller !! "Authorization"); reflexivity.
  - unfold expected_header. destruct (caller !! "Authorization"); reflexivity.
Qed.

(** * One dispatch *)

Section Dispatch.
Context (env : Env) (w : World).

Lemma request_eq req m :
  CapacitorHttp_request env w req m
  = (match native_net w (sent m) req with
     | NativeRejects e => Throw e
     | NativeResponds res => Return res
     end, requested env w req m).
Proof.
  unfold CapacitorHttp_request, requested, bind, count_sent, emit, throw, ret; simpl.
  destruct (native_net _ _ _); reflexivity.
Qed.

Lemma requested_once req m : dispatched_once (nat_url req) m (requested env w req m).
Proof.
  unfold dispatched_once, requested.
  rewrite suspend_sent, suspend_requests, suspend_sleeps. cbn.
  rewrite requests_app, sleeps_app. cbn. rewrite app_nil_r. auto.
Qed.

Lemma fetched_once url init m : dispatched_once url m (fetched env w url init m).
Proof.
  unfold dispatched_once.
  rewrite fetched_sent, fetched_requests, fetched_sleeps. auto.
Qed.

Lemma web_machine_once url init m :
  dispatched_once url m (web_machine env w url init m).
Proof.
  unfold web_machine. destruct (settle _ _ _); [|apply fetched_once].
  destruct (fetched_once url init m) as (Hs & Hr & Hz).
  unfold dispatched_once.
  rewrite suspend_sent, suspend_requests, suspend_sleeps. auto.
Qed.

Lemma get_message_eq d m :
  get_message w d m
  = (match d with
     | JNull => Throw (TypeError_null w)
     | _ => Return (get_message_opt d)
     end, m).
Proof. destruct d; reflexivity. Qed.

(** The rest of a [try] body over fetch, after the request was built. *)
Lemma web_eq fallback url init m :
  (res <- fetch env w url init ;;
   d <- json env w res ;;
   if negb (ok res)
   then msg <- get_message w d ;; throw (new_Error (or_message msg fallback))
   else ret d) m
  = (web_completion w fallback init (fetch_net w (sent m) url init),
     web_machine env w url init m).
Proof.
  unfold bind at 1. rewrite fetch_eq. unfold web_completion, web_machine.
  destruct (settle _ _ _) as [res|e]; [|reflexivity].
  unfold bind at 1, json at 1, bind at 1.
  destruct (suspend env w (fetched env w url init m)) as [[[]|e] m2] eqn:Hs;
    [|discriminate Hs].
  cbn [snd].
  destruct (res_json res) as [e|d]; [reflexivity|].
  unfold ret at 1. destruct (ok res); cbn [negb]; [reflexivity|].
  unfold bind. rewrite get_message_eq. unfold rejection.
  destruct d; reflexivity.
Qed.

Lemma body_eq options m :
  match opt_body options with
  | Some b =>
      if truthy_string (opt_body options)
      then d <- parse w b ;; ret (Some d)
      else ret None
  | None => ret None
  end m
  = (native_payload w options, m).
Proof.
  unfold native_payload. destruct (opt_body options) as [b|]; [|reflexivity].
  destruct (truthy_string _); [|reflexivity].
  unfold bind, parse. destruct (JSON_parse w b); reflexivity.
Qed.

Context (r : Render) (endpoint : string) (options : Options).

Lemma attempt000_web m :
  isNative w = false ->
  Part000.attempt env w r endpoint options m
  = (web_completion w "Request failed"
       (call_init (opt_method options) (Part000.headers r options) (opt_body options))
       (fetch_net w (sent m) (Part000.url r endpoint)
          (call_init (opt_method options) (Part000.headers r options) (opt_body options))),
     web_machine env w (Part000.url r endpoint)
       (call_init (opt_method options) (Part000.headers r options) (opt_body options)) m).
Proof.
  intros Hweb. unfold Part000.attempt. rewrite Hweb. apply web_eq.
Qed.

Lemma attemptAuth_web m :
  isNative w = false ->
  AuthContext.attempt env w r endpoint options m
  = (web_completion w "Something went wrong"
       (call_init (opt_method options) (AuthContext.headers r options) (opt_body options))
       (fetch_net w (sent m) (AuthContext.url env endpoint)
          (call_init (opt_method options) (AuthContext.headers r options) (opt_body options))),
     web_machine env w (AuthContext.url env endpoint)
       (call_init (opt_method options) (AuthContext.headers r options) (opt_body options)) m).
Proof.
  intros Hweb. unfold AuthContext.attempt. rewrite Hweb. apply web_eq.
Qed.

Lemma tryApiCall_eq baseUrl m :
  Part001.tryApiCall env w r endpoint options baseUrl m
  = (web_completion w "Something went wrong" (Part001.config r options)
       (fetch_net w (sent m) (baseUrl +:+ endpoint) (Part001.config r options)),
     web_machine env w (baseUrl +:+ endpoint) (Part001.config r options) m).
Proof. apply web_eq. Qed.

Lemma attempt000_native m :
  isNative w = true ->
  Part000.attempt env w r endpoint options m
  = match native_payload w options with
    | Throw e => (Throw e, m)
    | Return payload =>
        let req := call_request (Part000.url r endpoint) (opt_method options)
                     (Part000.headers r options) payload in
        (native_completion000 (native_net w (sent m) req), requested env w req m)
    end.
Proof.
  intros Hnat. unfold Part000.attempt. rewrite Hnat.
  unfold bind at 1. rewrite body_eq.
  destruct (native_payload w options) as [payload|e]; [|reflexivity].
  unfold bind. fold (call_request (Part000.url r endpoint) (opt_method options)
                       (Part000.headers r options) payload).
  rewrite request_eq. unfold native_completion000.
  destruct (native_net _ _ _) as [e|res]; [reflexivity|].
  destruct (400 <=? status res); reflexivity.
Qed.

Lemma attemptAuth_native m :
  isNative w = true ->
  AuthContext.attempt env w r endpoint options m
  = match native_payload w options with
    | Throw e => (Throw e, m)
    | Return payload =>
        let req := call_request (AuthContext.url env endpoint) (opt_method options)
                     (AuthContext.headers r options) payload in
        (native_completionAuth w (native_net w (sent m) req), requested env w req m)
    end.
Proof.
  intros Hnat. unfold AuthContext.attempt. rewrite Hnat.
  unfold bind at 1. rewrite body_eq.
  destruct (native_payload w options) as [payload|e]; [|reflexivity].
  unfold bind at 1. fold (call_request (AuthContext.url env endpoint) (opt_method options)
                       (AuthContext.headers r options) payload).
  rewrite request_eq. unfold native_completionAuth.
  destruct (native_net _ _ _) as [e|res]; [reflexivity|].
  destruct (400 <=? status res); [|reflexivity].
  unfold bind. rewrite get_message_eq. unfold rejection.
  destruct (data res); reflexivity.
Qed.

End Dispatch.

(** * The retry budget *)

Lemma sleep_once env w ms m :
  let m' := snd (sleep env w ms m) in
  sent m' = sent m
  /\ requests (trace m') = requests (trace m)
  /\ sleeps (trace m') = sleeps (trace m) ++ [ms].
Proof.
  unfold sleep, bind, emit. cbv beta iota zeta.
  rewrite suspend_sent, suspend_requests, suspend_sleeps.
  cbn. rewrite requests_app, sleeps_app. cbn. rewrite app_nil_r. auto.
Qed.

Lemma abort_retryable000 w : Part000.retryable (AbortError w) = true.
Proof. reflexivity. Qed.

Lemma abort_retryableAuth w : AuthContext.retryable (AbortError w) = true.
Proof. reflexivity. Qed.

Lemma web_fails retryable w fallback method h body o :
  retryable (AbortError w) = true ->
  transient_fetch retryable o = true ->
  exists e, web_completion w fallback (call_init method h body) o = Throw e
            /\ retryable e = true.
Proof.
  intros Habort Ht. unfold web_completion, settle, call_init; cbn.
  unfold transient_fetch in Ht.
  destruct (60000 <=? latency o); [eauto|]. cbn in Ht.
  destruct (result o) as [e|st b]; [eauto | discriminate].
Qed.

Lemma web_succeeds w fallback method h body o st d :
  result o = Responds st (inr d) -> latency o < 60000 -> 200 <= st <= 299 ->
  web_completion w fallback (call_init method h body) o = Return d.
Proof.
  intros Hr Hl Hst. unfold web_completion, settle, call_init; cbn.
  destruct (Z.leb_spec 60000 (latency o)); [lia|]. rewrite Hr. cbn.
  unfold ok; cbn.
  destruct (Z.leb_spec 200 st); [|lia]. destruct (Z.leb_spec st 299); [|lia].
  reflexivity.
Qed.

Section Budget.
Context (env : Env) (w : World) (r : Render) (endpoint : string) (options : Options).
Context (Hbody : isNative w = true -> body_parses w options).

Lemma attempt000_fails m :
  fails_at Part000.retryable w (sent m) ->
  exists e m1,
    Part000.attempt env w r endpoint options m = (Throw e, m1)
    /\ Part000.retryable e = true
    /\ dispatched_once (Part000.url r endpoint) m m1.
Proof.
  intros [Hf Hn]. destruct (isNative w) eqn:Hnat.
  - rewrite attempt000_native by exact Hnat.
    destruct (Hbody eq_refl) as [payload ->]. cbv zeta.
    specialize (Hn (call_request (Part000.url r endpoint) (opt_method options)
                      (Part000.headers r options) payload)).
    destruct (native_net _ _ _) as [e|res]; [|discriminate Hn].
    exists e. eexists. split; [reflexivity|]. split; [exact Hn|].
    exact (requested_once env w
             (call_request (Part000.url r endpoint) (opt_method options)
                (Part000.headers r options) payload) m).
  - rewrite attempt000_web by exact Hnat.
    destruct (web_fails Part000.retryable w "Request failed" (opt_method options)
                (Part000.headers r options) (opt_body options) _
                (abort_retryable000 w)
                (Hf (Part000.url r endpoint)
                   (call_init (opt_method options) (Part000.headers r options)
                      (opt_body options)))) as (e & -> & He).
    exists e. eexists. split; [reflexivity|]. split; [exact He|].
    apply web_machine_once.
Qed.

Lemma attempt000_succeeds m d :
  succeeds_at w (sent m) d ->
  exists m1,
    Part000.attempt env w r endpoint options m = (Return d, m1)
    /\ dispatched_once (Part000.url r endpoint) m m1.
Proof.
  intros [Hf Hn]. destruct (isNative w) eqn:Hnat.
  - rewrite attempt000_native by exact Hnat.
    destruct (Hbody eq_refl) as [payload ->]. cbv zeta.
    destruct (Hn (call_request (Part000.url r endpoint) (opt_method options)
                    (Part000.headers r options) payload)) as (st & -> & Hst).
    eexists. split.
    + unfold native_completion000; cbn.
      destruct (Z.leb_spec 400 st); [lia | reflexivity].
    + exact (requested_once env w
               (call_request (Part000.url r endpoint) (opt_method options)
                  (Part000.headers r options) payload) m).
  - rewrite attempt000_web by exact Hnat.
    destruct (Hf (Part000.url r endpoint)
                (call_init (opt_method options) (Part000.headers r options)
                   (opt_body options))) as (st & Hr & Hl & Hst).
    rewrite (web_succeeds _ _ _ _ _ _ st d Hr Hl Hst).
    eexists. split; [reflexivity | apply web_machine_once].
Qed.

Lemma attemptAuth_fails m :
  fails_at AuthContext.retryable w (sent m) ->
  exists e m1,
    AuthContext.attempt env w r endpoint options m = (Throw e, m1)
    /\ AuthContext.retryable e = true
    /\ dispatched_once (AuthContext.url env endpoint) m m1.
Proof.
  intros [Hf Hn]. destruct (isNative w) eqn:Hnat.
  - rewrite attemptAuth_native by exact Hnat.
    destruct (Hbody eq_refl) as [payload ->]. cbv zeta.
    specialize (Hn (call_request (AuthContext.url env endpoint) (opt_method options)
                      (AuthContext.headers r options) payload)).
    destruct (native_net _ _ _) as [e|res]; [|discriminate Hn].
    exists e. eexists. split; [reflexivity|]. split; [exact Hn|].
    exact (requested_once env w
             (call_request (AuthContext.url env endpoint) (opt_method options)
                (AuthContext.headers r options) payload) m).
  - rewrite attemptAuth_web by exact Hnat.
    destruct (web_fails AuthContext.retryable w "Something went wrong"
                (opt_method options) (AuthContext.headers r options)
                (opt_body options) _ (abort_retryableAuth w)
                (Hf (AuthContext.url env endpoint)
                   (call_init (opt_method options) (AuthContext.headers r options)
                      (opt_body options))))
      as (e & -> & He).
    exists e. eexists. split; [reflexivity|]. split; [exact He|].
    apply web_machine_once.
Qed.

Lemma attemptAuth_succeeds m d :
  succeeds_at w (sent m) d ->
  exists m1,
    AuthContext.attempt env w r endpoint options m = (Return d, m1)
    /\ dispatched_once (AuthContext.url env endpoint) m m1.
Proof.
  intros [Hf Hn]. destruct (isNative w) eqn:Hnat.
  - rewrite attemptAuth_native by exact Hnat.
    destruct (Hbody eq_refl) as [payload ->]. cbv zeta.
    destruct (Hn (call_request (AuthContext.url env endpoint) (opt_method options)
                    (AuthContext.headers r options) payload)) as (st & -> & Hst).
    eexists. split.
    + unfold native_completionAuth; cbn.
      destruct (Z.leb_spec 400 st); [lia | reflexivity].
    + exact (requested_once env w
               (call_request (AuthContext.url env endpoint) (opt_method options)
                  (AuthContext.headers r options) payload) m).
  - rewrite attemptAuth_web by exact Hnat.
    destruct (Hf (AuthContext.url env endpoint)
                (call_init (opt_method options) (AuthContext.headers r options)
                   (opt_body options))) as (st & Hr & Hl & Hst).
    rewrite (web_succeeds _ _ _ _ _ _ st d Hr Hl Hst).
    eexists. split; [reflexivity | apply web_machine_once].
Qed.

End Budget.

Section Exhaust.
Context (env : Env) (w : World) (r : Render) (endpoint : string) (options : Options).
Context (Hbody : isNative w = true -> body_parses w options).

Lemma exhaust000 :
  (forall n, fails_at Part000.retryable w n) ->
  forall retries m, 0 <= retries ->
    let out := Part000.apiCall env w r endpoint options retries m in
    (exists e, fst out = Throw e /\ Part000.retryable e = true)
    /\ sent (snd out) = (sent m + S (Z.to_nat retries))%nat
    /\ requests (trace (snd out))
       = requests (trace m) ++ repeat (Part000.url r endpoint) (S (Z.to_nat retries))
    /\ sleeps (trace (snd out)) = sleeps (trace m) ++ repeat 2000 (Z.to_nat retries).
Proof.
  intros Hfail.
  apply (retry_induction (fun retries m => 0 <= retries -> _)).
  intros retries m IH Hge. cbv zeta. rewrite apiCall000_unfold.
  destruct (attempt000_fails env w r endpoint options Hbody m (Hfail _))
    as (e & m1 & -> & He & Hs & Hr & Hz).
  rewrite He, andb_true_r.
  destruct (Z.ltb_spec 0 retries) as [Hpos|Hzero].
  - destruct (sleep_once env w 2000 m1) as (Hs' & Hr' & Hz').
    destruct (IH Hpos (snd (sleep env w 2000 m1)) ltac:(lia))
      as (Hthrow & Hsent & Hreq & Hsl).
    replace (Z.to_nat retries) with (S (Z.to_nat (retries - 1))) by lia.
    split; [exact Hthrow|].
    rewrite Hsent, Hreq, Hsl, Hs', Hr', Hz', Hs, Hr, Hz.
    cbn [repeat]. rewrite <- !app_assoc. cbn [app].
    repeat split; try lia.
  - replace retries with 0 by lia. cbn [fst snd Z.to_nat repeat].
    rewrite Hs, Hr, Hz, app_nil_r. repeat split; eauto; lia.
Qed.

Lemma second_attempt000 m d :
  fails_at Part000.retryable w (sent m) ->
  succeeds_at w (S (sent m)) d ->
  let out := Part000.apiCall env w r endpoint options 2 m in
  fst out = Return d
  /\ requests (trace (snd out))
     = requests (trace m) ++ [Part000.url r endpoint; Part000.url r endpoint]
  /\ sleeps (trace (snd out)) = sleeps (trace m) ++ [2000].
Proof.
  intros Hfail Hok. cbv zeta. rewrite apiCall000_unfold.
  destruct (attempt000_fails env w r endpoint options Hbody m Hfail)
    as (e & m1 & -> & He & Hs & Hr & Hz).
  rewrite He. cbn [Z.ltb Z.compare andb].
  destruct (sleep_once env w 2000 m1) as (Hs' & Hr' & Hz').
  rewrite apiCall000_unfold.
  destruct (attempt000_succeeds env w r endpoint options Hbody
              (snd (sleep env w 2000 m1)) d) as (m2 & -> & Hs2 & Hr2 & Hz2).
  { rewrite Hs', Hs. exact Hok. }
  cbn [fst snd]. rewrite Hr2, Hz2, Hr', Hz', Hr, Hz, <- app_assoc. auto.
Qed.

Lemma exhaustAuth :
  (forall n, fails_at AuthContext.retryable w n) ->
  forall retries m, 0 <= retries ->
    let out := AuthContext.apiCall env w r endpoint options retries m in
    (exists e, fst out = Throw e /\ AuthContext.retryable e = true)
    /\ sent (snd out) = (sent m + S (Z.to_nat retries))%nat
    /\ requests (trace (snd out))
       = requests (trace m) ++ repeat (AuthContext.url env endpoint) (S (Z.to_nat retries))
    /\ sleeps (trace (snd out)) = sleeps (trace m) ++ repeat 2000 (Z.to_nat retries).
Proof.
  intros Hfail.
  apply (retry_induction (fun retries m => 0 <= retries -> _)).
  intros retries m IH Hge. cbv zeta. rewrite apiCallAuth_unfold.
  destruct (attemptAuth_fails env w r endpoint options Hbody m (Hfail _))
    as (e & m1 & -> & He & Hs & Hr & Hz).
  rewrite He, andb_true_r.
  destruct (Z.ltb_spec 0 retries) as [Hpos|Hzero].
  - destruct (sleep_once env w 2000 m1) as (Hs' & Hr' & Hz').
    destruct (IH Hpos (snd (sleep env w 2000 m1)) ltac:(lia))
      as (Hthrow & Hsent & Hreq & Hsl).
    replace (Z.to_nat retries) with (S (Z.to_nat (retries - 1))) by lia.
    split; [exact Hthrow|].
    rewrite Hsent, Hreq, Hsl, Hs', Hr', Hz', Hs, Hr, Hz.
    cbn [repeat]. rewrite <- !app_assoc. cbn [app].
    repeat split; try lia.
  - replace retries with 0 by lia. cbn [fst snd Z.to_nat repeat].
    rewrite Hs, Hr, Hz, app_nil_r. repeat split; eauto; lia.
Qed.

Lemma second_attemptAuth m d :
  fails_at AuthContext.retryable w (sent m) ->
  succeeds_at w (S (sent m)) d ->
  let out := AuthContext.apiCall env w r endpoint options 2 m in
  fst out = Return d
  /\ requests (trace (snd out))
     = requests (trace m) ++ [AuthContext.url env endpoint; AuthContext.url env endpoint]
  /\ sleeps (trace (snd out)) = sleeps (trace m) ++ [2000].
Proof.
  intros Hfail Hok. cbv zeta. rewrite apiCallAuth_unfold.
  destruct (attemptAuth_fails env w r endpoint options Hbody m Hfail)
    as (e & m1 & -> & He & Hs & Hr & Hz).
  rewrite He. cbn [Z.ltb Z.compare andb].
  destruct (sleep_once env w 2000 m1) as (Hs' & Hr' & Hz').
  rewrite apiCallAuth_unfold.
  destruct (attemptAuth_succeeds env w r endpoint options Hbody
              (snd (sleep env w 2000 m1)) d) as (m2 & -> & Hs2 & Hr2 & Hz2).
  { rewrite Hs', Hs. exact Hok. }
  cbn [fst snd]. rewrite Hr2, Hz2, Hr', Hz', Hr, Hz, <- app_assoc. auto.
Qed.

End Exhaust.

(** A call whose every dispatch fails with an error that the test of the
    [catch] block accepts (an AbortError, or a message that contains
    "fetch" or "network") sends exactly [retries + 1] requests, with
    [retries] backoff waits of 2000 ms between them, and then throws the
    error of the last one: three requests for the default budget of 2.  A
    call with a budget of 2 whose first dispatch fails so and whose second
    is answered with a success status returns the payload of that answer
    after two requests and one wait.  Both hold of part_000 and of
    AuthContext.js, over fetch and over the native transport (where the
    body, if any, is one that [JSON.parse] accepts). *)
Lemma accepted_failures_use_budget (env : Env) (w : World) (r : Render) (endpoint : string)
  (options : Options) (retries : Z) (m : Machine) (d : JSON)
  (Hretries : 0 <= retries)
  (Hbody : isNative w = true -> body_parses w options) :
  ((forall n, fails_at Part000.retryable w n) ->
   let out := Part000.apiCall env w r endpoint options retries m in
   (exists e, fst out = Throw e /\ Part000.retryable e = true)
   /\ length (requests (trace (snd out)))
      = (length (requests (trace m)) + (Z.to_nat retries + 1))%nat
   /\ requests (trace (snd out))
      = requests (trace m) ++ repeat (Part000.url r endpoint) (Z.to_nat retries + 1)
   /\ sleeps (trace (snd out)) = sleeps (trace m) ++ repeat 2000 (Z.to_nat retries))
  /\
  ((forall n, fails_at AuthContext.retryable w n) ->
   let out := AuthContext.apiCall env w r endpoint options retries m in
   (exists e, fst out = Throw e /\ AuthContext.retryable e = true)
   /\ length (requests (trace (snd out)))
      = (length (requests (trace m)) + (Z.to_nat retries + 1))%nat
   /\ requests (trace (snd out))
      = requests (trace m) ++ repeat (AuthContext.url env endpoint) (Z.to_nat retries + 1)
   /\ sleeps (trace (snd out)) = sleeps (trace m) ++ repeat 2000 (Z.to_nat retries))
  /\
  (fails_at Part000.retryable w (sent m) -> succeeds_at w (S (sent m)) d ->
   let out := Part000.apiCall env w r endpoint options 2 m in
   fst out = Return d
   /\ requests (trace (snd out))
      = requests (trace m) ++ [Part000.url r endpoint; Part000.url r endpoint]
   /\ sleeps (trace (snd out)) = sleeps (trace m) ++ [2000])
  /\
  (fails_at AuthContext.retryable w (sent m) -> succeeds_at w (S (sent m)) d ->
   let out := AuthContext.apiCall env w r endpoint options 2 m in
   fst out = Return d
   /\ requests (trace (snd out))
      = requests (trace m) ++ [AuthContext.url env endpoint; AuthContext.url env endpoint]
   /\ sleeps (trace (snd out)) = sleeps (trace m) ++ [2000]).
Proof.
  split; [|split; [|split]].
  - intros Hfail out.
    destruct (exhaust000 env w r endpoint options Hbody Hfail retries m Hretries)
      as (Hthrow & _ & Hreq & Hsl).
    fold out in Hthrow, Hreq, Hsl. rewrite Nat.add_1_r.
    repeat split; try assumption.
    rewrite Hreq, length_app, repeat_length. reflexivity.
  - intros Hfail out.
    destruct (exhaustAuth env w r endpoint options Hbody Hfail retries m Hretries)
      as (Hthrow & _ & Hreq & Hsl).
    fold out in Hthrow, Hreq, Hsl. rewrite Nat.add_1_r.
    repeat split; try assumption.
    rewrite Hreq, length_app, repeat_length. reflexivity.
  - intros Hfail Hok. apply second_attempt000; assumption.
  - intros Hfail Hok. apply second_attemptAuth; assumption.
Qed.

(** C2, on a device without a connection whose errors name neither fetch
    nor network (Safari rejects a fetch with "Load failed"; iOS rejects a
    native request with "The Internet connection appears to be offline.").
    With the default budget of 2 the call makes one attempt, not three, and
    waits for nothing before it throws, in part_000 and in AuthContext.js;
    and when the second attempt would have been answered, the call still
    throws the error of the first instead of returning the payload.  The
    test of the [catch] block knows a network failure by the words fetch and
    network in its message. *)
Theorem C2_unnamed_failure_not_retried :
  (forall native,
      let out := Part000.apiCall default_env (plainly_offline native)
                   (anonymous (PRODUCTION_API_URL default_env)) "/auth/login"
                   (post "{}") 2 (initial default_env) in
      fst out
      = Throw (if native
               then new_Error "The Internet connection appears to be offline."
               else mkError "TypeError" "Load failed")
      /\ requests (trace (snd out))
         = ["https://yoga-pose-detection-1.onrender.com/api/auth/login"]
      /\ sleeps (trace (snd out)) = [])
  /\
  (forall native,
      let out := AuthContext.apiCall default_env (plainly_offline native)
                   (anonymous "") "/auth/login" (post "{}") 2 (initial default_env) in
      fst out
      = Throw (if native
               then new_Error "The Internet connection appears to be offline."
               else mkError "TypeError" "Load failed")
      /\ requests (trace (snd out)) = ["http://localhost:5000/api/auth/login"]
      /\ sleeps (trace (snd out)) = [])
  /\
  (let out := AuthContext.apiCall default_env (plainly_waking false)
                (anonymous "") "/auth/login" (post "{}") 2 (initial default_env) in
   fst out = Throw (mkError "TypeError" "Load failed")
   /\ requests (trace (snd out)) = ["http://localhost:5000/api/auth/login"]
   /\ sleeps (trace (snd out)) = [])
  /\
  (let out := Part000.apiCall default_env (plainly_waking true)
                (anonymous (PRODUCTION_API_URL default_env)) "/auth/login"
                (post "{}") 2 (initial default_env) in
   fst out = Throw (new_Error "The Internet connection appears to be offline.")
   /\ requests (trace (snd out))
      = ["https://yoga-pose-detection-1.onrender.com/api/auth/login"]
   /\ sleeps (trace (snd out)) = []).
Proof.
  split; [|split; [|split]].
  - intros [|]; vm_compute; auto.
  - intros [|]; vm_compute; auto.
  - vm_compute. auto.
  - vm_compute. auto.
Qed.

(** * Errors that are not retried *)

Lemma no_retry000 env w r endpoint options retries m e m1 :
  Part000.attempt env w r endpoint options m = (Throw e, m1) ->
  Part000.retryable e = false ->
  Part000.apiCall env w r endpoint options retries m = (Throw e, m1).
Proof.
  intros Hatt He. rewrite apiCall000_unfold, Hatt, He, andb_false_r. reflexivity.
Qed.

Lemma no_retryAuth env w r endpoint options retries m e m1 :
  AuthContext.attempt env w r endpoint options m = (Throw e, m1) ->
  AuthContext.retryable e = false ->
  AuthContext.apiCall env w r endpoint options retries m = (Throw e, m1).
Proof.
  intros Hatt He. rewrite apiCallAuth_unfold, Hatt, He, andb_false_r. reflexivity.
Qed.

(** The rejection of the specification's example is surfaced with the
    server's message after one request and no wait. *)
Example invalid_credentials :
  let out := AuthContext.apiCall default_env (rejecting false "Invalid credentials")
               (anonymous "") "/auth/login" (post "{}") 2 (initial default_env) in
  fst out = Throw (new_Error "Invalid credentials")
  /\ requests (trace (snd out)) = ["http://localhost:5000/api/auth/login"]
  /\ sleeps (trace (snd out)) = [].
Proof. vm_compute. auto. Qed.

(** C4, at the response 400 [{message: "Failed to fetch user"}] with the
    default budget of 2: the server's message is surfaced, but only after
    the request was sent three times with two backoff waits, in part_000 and
    in AuthContext.js, over fetch and over the native transport.  The test of
    the [catch] block takes the word fetch in the server's message for a
    network failure. *)
Theorem C4_business_error_retried :
  (let out := AuthContext.apiCall default_env (rejecting false "Failed to fetch user")
                (anonymous "") "/user/profile" no_options 2 (initial default_env) in
   fst out = Throw (new_Error "Failed to fetch user")
   /\ requests (trace (snd out))
      = ["http://localhost:5000/api/user/profile";
         "http://localhost:5000/api/user/profile";
         "http://localhost:5000/api/user/profile"]
   /\ sleeps (trace (snd out)) = [2000; 2000])
  /\
  (let out := Part000.apiCall default_env (rejecting true "Failed to fetch user")
                (anonymous (PRODUCTION_API_URL default_env)) "/user/profile"
                no_options 2 (initial default_env) in
   fst out = Throw (new_Error "Failed to fetch user")
   /\ length (requests (trace (snd out))) = 3%nat
   /\ sleeps (trace (snd out)) = [2000; 2000]).
Proof. vm_compute. auto. Qed.

(** * Retries and the active endpoint *)

(** C6, as the code has it.  A retry waits 2000 ms, runs the call again
    with the budget less one, and sends every request of the retried call to
    the URL made of [currentApiUrl] as it was in the render that created the
    callback: whatever the other flows write to the active endpoint while
    the call is suspended, no request of the call goes anywhere else. *)
Theorem C6_retry_uses_render_url (env : Env) (w : World) (r : Render)
  (endpoint : string) (options : Options) (retries : Z) (m m1 : Machine)
  (err : Error)
  (Hfailed : Part000.attempt env w r endpoint options m = (Throw err, m1))
  (Hbudget : 0 < retries)
  (Htransient : Part000.retryable err = true) :
  let m2 := snd (sleep env w 2000 m1) in
  Part000.apiCall env w r endpoint options retries m
  = Part000.apiCall env w r endpoint options (retries - 1) m2
  /\ sleeps (trace m2) = sleeps (trace m1) ++ [2000]
  /\ requests (trace m2) = requests (trace m1)
  /\ exists evs,
       trace (snd (Part000.apiCall env w r endpoint options (retries - 1) m2))
       = trace m2 ++ evs
       /\ Forall (carries (url_of_render r +:+ endpoint) (Part000.headers r options)) evs.
Proof.
  intros m2. split; [|split; [|split]].
  - rewrite apiCall000_unfold, Hfailed, Htransient.
    apply Z.ltb_lt in Hbudget. rewrite Hbudget. reflexivity.
  - apply sleep_once.
  - apply sleep_once.
  - apply dispatches000.
Qed.

Lemma C6_retry_uses_render_url_witness :
  fst (Part000.apiCall default_env failing_over
         (anonymous (PRODUCTION_API_URL default_env)) "/auth/login" (post "{}")
         2 (initial default_env))
  = fst (Part000.apiCall default_env failing_over
           (anonymous (PRODUCTION_API_URL default_env)) "/auth/login" (post "{}")
           (2 - 1)
           (snd (sleep default_env failing_over 2000
                   (snd (Part000.attempt default_env failing_over
                           (anonymous (PRODUCTION_API_URL default_env))
                           "/auth/login" (post "{}") (initial default_env)))))).
Proof.
  destruct (C6_retry_uses_render_url default_env failing_over
              (anonymous (PRODUCTION_API_URL default_env)) "/auth/login" (post "{}")
              2 (initial default_env)
              (snd (Part000.attempt default_env failing_over
                      (anonymous (PRODUCTION_API_URL default_env))
                      "/auth/login" (post "{}") (initial default_env)))
              (mkError "TypeError" "Failed to fetch"))
    as (H & _).
  - vm_compute. reflexivity.
  - reflexivity.
  - reflexivity.
  - rewrite H. reflexivity.
Defined.

(** C6 as stated fails.  The callback was created while production was the
    active endpoint.  Its first request fails; during the backoff the active
    endpoint becomes the local backend, which is up; the two retries still go
    to production and the call fails, with [currentApiUrl] equal to the local
    URL at the time of both retries. *)
Lemma C6_retry_ignores_new_endpoint :
  let out := Part000.apiCall default_env failing_over
               (anonymous (PRODUCTION_API_URL default_env)) "/auth/login" (post "{}")
               2 (initial default_env) in
  fst out = Throw (mkError "TypeError" "Failed to fetch")
  /\ requests (trace (snd out))
     = ["https://yoga-pose-detection-1.onrender.com/api/auth/login";
        "https://yoga-pose-detection-1.onrender.com/api/auth/login";
        "https://yoga-pose-detection-1.onrender.com/api/auth/login"]
  /\ urls_written (trace (snd out)) = ["http://localhost:5000/api"]
  /\ currentApiUrl (snd out) = "http://localhost:5000/api"
  /\ rereads "/auth/login" (currentApiUrl (initial default_env)) (trace (snd out)) = false
  /\ rereads "/auth/login" (currentApiUrl (initial default_env))
       (firstn 1 (trace (snd out))) = true.
Proof. vm_compute. repeat split; reflexivity. Qed.

(** * A body that is not JSON, on the native transport *)

Section Malformed.
Context (env : Env) (w : World) (r : Render) (endpoint : string) (options : Options).
Context (b : string) (e : Error).
Context (Hnative : isNative w = true) (Hsome : opt_body options = Some b).
Context (Hnonempty : b <> "") (Hparse : JSON_parse w b = inl e).

Lemma malformed_payload : native_payload w options = Throw e.
Proof.
  unfold native_payload. rewrite Hsome.
  destruct b as [|c rest]; [congruence|]. cbn. rewrite Hparse. reflexivity.
Qed.

Lemma malformed_attempt000 m :
  Part000.attempt env w r endpoint options m = (Throw e, m).
Proof. rewrite attempt000_native, malformed_payload by exact Hnative. reflexivity. Qed.

Lemma malformed_attemptAuth m :
  AuthContext.attempt env w r endpoint options m = (Throw e, m).
Proof. rewrite attemptAuth_native, malformed_payload by exact Hnative. reflexivity. Qed.

Lemma malformed_call000 retries m :
  let out := Part000.apiCall env w r endpoint options retries m in
  fst out = Throw e
  /\ sent (snd out) = sent m
  /\ requests (trace (snd out)) = requests (trace m).
Proof.
  revert retries m. apply retry_induction. intros retries m IH. cbv zeta.
  rewrite apiCall000_unfold, malformed_attempt000.
  destruct ((0 <? retries) && Part000.retryable e) eqn:Hretry; [|auto].
  apply andb_true_iff in Hretry as [Hpos _]. apply Z.ltb_lt in Hpos.
  destruct (IH Hpos (snd (sleep env w 2000 m))) as (Hf & Hs & Hr).
  destruct (sleep_once env w 2000 m) as (Hs' & Hr' & _).
  rewrite Hf, Hs, Hr, Hs', Hr'. auto.
Qed.

Lemma malformed_callAuth retries m :
  let out := AuthContext.apiCall env w r endpoint options retries m in
  fst out = Throw e
  /\ sent (snd out) = sent m
  /\ requests (trace (snd out)) = requests (trace m).
Proof.
  revert retries m. apply retry_induction. intros retries m IH. cbv zeta.
  rewrite apiCallAuth_unfold, malformed_attemptAuth.
  destruct ((0 <? retries) && AuthContext.retryable e) eqn:Hretry; [|auto].
  apply andb_true_iff in Hretry as [Hpos _]. apply Z.ltb_lt in Hpos.
  destruct (IH Hpos (snd (sleep env w 2000 m))) as (Hf & Hs & Hr).
  destruct (sleep_once env w 2000 m) as (Hs' & Hr' & _).
  rewrite Hf, Hs, Hr, Hs', Hr'. auto.
Qed.

End Malformed.

(** C7, as the code has it.  On the native transport a body that is not
    empty and that [JSON.parse] rejects is never dispatched, with or without
    its data: the call sends no request and throws the error of
    [JSON.parse] to its caller.  When that error is not one the retry test
    matches, the call throws at once: nothing is logged, no backoff wait. *)
Theorem C7_malformed_body_throws (env : Env) (w : World) (r : Render)
  (endpoint : string) (options : Options) (retries : Z) (m : Machine)
  (b : string) (e : Error)
  (Hnative : isNative w = true)
  (Hsome : opt_body options = Some b)
  (Hnonempty : b <> "")
  (Hparse : JSON_parse w b = inl e) :
  (let out := Part000.apiCall env w r endpoint options retries m in
   fst out = Throw e
   /\ sent (snd out) = sent m
   /\ requests (trace (snd out)) = requests (trace m)
   /\ (Part000.retryable e = false -> out = (Throw e, m)))
  /\
  (let out := AuthContext.apiCall env w r endpoint options retries m in
   fst out = Throw e
   /\ sent (snd out) = sent m
   /\ requests (trace (snd out)) = requests (trace m)
   /\ (AuthContext.retryable e = false -> out = (Throw e, m))).
Proof.
  split; cbv zeta.
  - destruct (malformed_call000 env w r endpoint options b e
                Hnative Hsome Hnonempty Hparse retries m) as (Hf & Hs & Hr).
    repeat split; try assumption.
    intros Hno. apply no_retry000; [|exact Hno].
    apply (malformed_attempt000 env w r endpoint options b e); assumption.
  - destruct (malformed_callAuth env w r endpoint options b e
                Hnative Hsome Hnonempty Hparse retries m) as (Hf & Hs & Hr).
    repeat split; try assumption.
    intros Hno. apply no_retryAuth; [|exact Hno].
    apply (malformed_attemptAuth env w r endpoint options b e); assumption.
Qed.

Lemma C7_malformed_body_throws_witness :
  Part000.apiCall default_env native_app
    (anonymous (PRODUCTION_API_URL default_env)) "/auth/login" (post "{email:")
    2 (initial default_env)
  = (Throw (mkError "SyntaxError" "Unexpected token in JSON"), initial default_env).
Proof.
  destruct (C7_malformed_body_throws default_env native_app
              (anonymous (PRODUCTION_API_URL default_env)) "/auth/login"
              (post "{email:") 2 (initial default_env) "{email:"
              (mkError "SyntaxError" "Unexpected token in JSON"))
    as ((_ & _ & _ & H) & _).
  - reflexivity.
  - reflexivity.
  - discriminate.
  - reflexivity.
  - apply H. reflexivity.
Defined.

(** C7 as stated fails at the empty body.  The empty text is not JSON, and
    [JSON.parse] is not applied to it: the body counts as absent, the request
    is dispatched without data and the call returns the server's answer. *)
Lemma C7_empty_body_dispatched :
  let out := Part000.apiCall default_env native_app
               (anonymous (PRODUCTION_API_URL default_env)) "/auth/login" (post "")
               2 (initial default_env) in
  JSON_parse native_app "" = inl (mkError "SyntaxError" "Unexpected end of JSON input")
  /\ fst out = Return (JObject [("success", JBool true)])
  /\ requests (trace (snd out))
     = ["https://yoga-pose-detection-1.onrender.com/api/auth/login"]
  /\ match trace (snd out) with
     | [ERequest req] => nat_data req = None
     | _ => False
     end.
Proof. vm_compute. repeat split; reflexivity. Qed.

(** * Reactive failover *)

Lemma web_machine_quiet env w url init m :
  currentApiUrl (web_machine env (quiet w) url init m) = currentApiUrl m.
Proof.
  unfold web_machine. destruct (settle _ _ _); [|apply fetched_quiet].
  unfold suspend; cbn [quiet background fold_left snd currentApiUrl].
  apply fetched_quiet.
Qed.

Lemma apiCall001_both_fail env w r endpoint options m e1 e2 :
  let first := url_of_render r in
  let was_local := String.eqb first (LOCAL_API_URL env) in
  let second := if was_local then PRODUCTION_API_URL env else LOCAL_API_URL env in
  let m1 := web_machine env (quiet w) (first +:+ endpoint) (Part001.config r options) m in
  web_completion w "Something went wrong" (Part001.config r options)
    (fetch_net w (sent m) (first +:+ endpoint) (Part001.config r options)) = Throw e1 ->
  web_completion w "Something went wrong" (Part001.config r options)
    (fetch_net w (S (sent m)) (second +:+ endpoint) (Part001.config r options)) = Throw e2 ->
  Part001.apiCall env (quiet w) r endpoint options m
  = (Throw (new_Error (both_failed was_local e1 e2)),
     if was_local
     then web_machine env (quiet w) (PRODUCTION_API_URL env +:+ endpoint)
            (Part001.config r options) (write_url (PRODUCTION_API_URL env) m1)
     else write_url (PRODUCTION_API_URL env)
            (web_machine env (quiet w) (LOCAL_API_URL env +:+ endpoint)
               (Part001.config r options) (write_url (LOCAL_API_URL env) m1))).
Proof.
  intros first was_local second m1 H1 H2.
  unfold Part001.apiCall, try_catch at 1. rewrite tryApiCall_eq.
  change (web_completion (quiet w)) with (web_completion w).
  change (fetch_net (quiet w)) with (fetch_net w).
  fold first. rewrite H1. fold was_local m1.
  assert (Hs1 : sent m1 = S (sent m)) by apply web_machine_once.
  unfold both_failed. subst second. destruct was_local; cbn [negb].
  - unfold try_catch at 1, bind at 1, setCurrentApiUrl at 1.
    rewrite tryApiCall_eq.
    change (web_completion (quiet w)) with (web_completion w).
    change (fetch_net (quiet w)) with (fetch_net w).
    change (sent (write_url (PRODUCTION_API_URL env) m1)) with (sent m1).
    rewrite Hs1, H2. reflexivity.
  - unfold try_catch at 1, bind at 1, setCurrentApiUrl at 1.
    rewrite tryApiCall_eq.
    change (web_completion (quiet w)) with (web_completion w).
    change (fetch_net (quiet w)) with (fetch_net w).
    change (sent (write_url (LOCAL_API_URL env) m1)) with (sent m1).
    rewrite Hs1, H2. reflexivity.
Qed.

(** C10.  In part_001, when the request to the endpoint of the render fails
    and the request to the other endpoint fails too, [apiCall] throws one
    error whose message names both failures, and the active endpoint is the
    production URL when it throws, whether the call began on production (it
    switched to local and back) or on local (it switched to production). *)
Theorem C10_both_fail_back_to_production (env : Env) (w : World) (r : Render)
  (endpoint : string) (options : Options) (m : Machine) (e1 e2 : Error) :
  let first := url_of_render r in
  let was_local := String.eqb first (LOCAL_API_URL env) in
  let second := if was_local then PRODUCTION_API_URL env else LOCAL_API_URL env in
  web_completion w "Something went wrong" (Part001.config r options)
    (fetch_net w (sent m) (first +:+ endpoint) (Part001.config r options)) = Throw e1 ->
  web_completion w "Something went wrong" (Part001.config r options)
    (fetch_net w (S (sent m)) (second +:+ endpoint) (Part001.config r options)) = Throw e2 ->
  let out := Part001.apiCall env (quiet w) r endpoint options m in
  fst out = Throw (new_Error (both_failed was_local e1 e2))
  /\ currentApiUrl (snd out) = PRODUCTION_API_URL env
  /\ requests (trace (snd out))
     = requests (trace m) ++ [first +:+ endpoint; second +:+ endpoint].
Proof.
  intros first was_local second H1 H2 out. subst out.
  rewrite (apiCall001_both_fail env w r endpoint options m e1 e2 H1 H2).
  fold first was_local. cbn [fst snd].
  split; [reflexivity|].
  set (m1 := web_machine env (quiet w) (first +:+ endpoint) (Part001.config r options) m).
  assert (Hr1 : requests (trace m1) = requests (trace m) ++ [first +:+ endpoint])
    by apply web_machine_once.
  subst second. destruct was_local.
  - rewrite web_machine_quiet. split; [reflexivity|].
    destruct (web_machine_once env (quiet w) (PRODUCTION_API_URL env +:+ endpoint)
                (Part001.config r options) (write_url (PRODUCTION_API_URL env) m1))
      as (_ & -> & _).
    unfold write_url; cbn [trace].
    rewrite requests_app, Hr1. cbn [requests]. rewrite app_nil_r, <- app_assoc.
    reflexivity.
  - split; [reflexivity|].
    unfold write_url at 1; cbn [trace]. rewrite requests_app.
    destruct (web_machine_once env (quiet w) (LOCAL_API_URL env +:+ endpoint)
                (Part001.config r options) (write_url (LOCAL_API_URL env) m1))
      as (_ & -> & _).
    unfold write_url; cbn [trace].
    rewrite requests_app, Hr1. cbn [requests]. rewrite !app_nil_r, <- app_assoc.
    reflexivity.
Qed.

Lemma C10_both_fail_back_to_production_witness :
  let out := Part001.apiCall default_env (quiet unreachable)
               (anonymous (LOCAL_API_URL default_env)) "/progress" no_options
               (initial default_env) in
  fst out = Throw (new_Error
                     "Both APIs failed. Local: Failed to fetch, Production: Failed to fetch")
  /\ currentApiUrl (snd out) = "https://yoga-pose-detection-1.onrender.com/api".
Proof.
  destruct (C10_both_fail_back_to_production default_env unreachable
              (anonymous (LOCAL_API_URL default_env)) "/progress" no_options
              (initial default_env)
              (mkError "TypeError" "Failed to fetch")
              (mkError "TypeError" "Failed to fetch") eq_refl eq_refl)
    as (Hf & Hu & _).
  split; [exact Hf | exact Hu].
Defined.

(** * The active endpoint over any history *)

Section ProbeGrows.
Context (env : Env) (w : World) (P : Event -> Prop) (HP : ambient env w P).
Context (HF : forall url init, P (EFetch url init)).
Context (Hprod : P (EUrl (PRODUCTION_API_URL env))).
Context (Hlocal : P (EUrl (LOCAL_API_URL env))).

Lemma grows_tryHealth baseUrl ms : grows P (Part000.tryHealth env w baseUrl ms).
Proof.
  unfold Part000.tryHealth.
  apply (grows_bind P); [apply (grows_fetch env w P HP); apply HF|]. intros res.
  destruct (negb (ok res)); [apply grows_throw | apply grows_ret].
Qed.

Lemma grows_checkApiHealth000 : grows P (Part000.checkApiHealth env w).
Proof.
  unfold Part000.checkApiHealth.
  apply (grows_bind P); [apply (grows_setApiStatus env w P HP)|]. intros _.
  apply (grows_try_catch P).
  - apply (grows_bind P); [apply grows_tryHealth|]. intros _.
    apply (grows_bind P); [apply (grows_setCurrentApiUrl P); exact Hprod|]. intros _.
    apply (grows_bind P); [apply (grows_setApiStatus env w P HP)|]. intros _.
    apply grows_ret.
  - intros _. apply (grows_try_catch P).
    + apply (grows_bind P); [apply grows_tryHealth|]. intros _.
      apply (grows_bind P); [apply (grows_setCurrentApiUrl P); exact Hlocal|]. intros _.
      apply (grows_bind P); [apply (grows_setApiStatus env w P HP)|]. intros _.
      apply grows_ret.
    + intros _.
      apply (grows_bind P); [apply (grows_setApiStatus env w P HP)|]. intros _.
      apply grows_ret.
Qed.

Lemma grows_health001 url init u st :
  P (EUrl u) ->
  grows P
    (try_catch
       (response <- fetch env w url init ;;
        if ok response
        then setCurrentApiUrl u ;; setApiStatus st ;; ret (Some st)
        else ret None)
       (fun _ => ret None)).
Proof.
  intros Hu. apply (grows_try_catch P); [|intros _; apply grows_ret].
  apply (grows_bind P); [apply (grows_fetch env w P HP); apply HF|]. intros res.
  destruct (ok res); [|apply grows_ret].
  apply (grows_bind P); [apply (grows_setCurrentApiUrl P); exact Hu|]. intros _.
  apply (grows_bind P); [apply (grows_setApiStatus env w P HP)|]. intros _.
  apply grows_ret.
Qed.

Lemma grows_checkApiHealth001 : grows P (Part001.checkApiHealth env w).
Proof.
  unfold Part001.checkApiHealth.
  apply (grows_try_catch P).
  - apply (grows_bind P); [apply (grows_setApiStatus env w P HP)|]. intros _.
    apply (grows_bind P); [apply grows_health001; exact Hprod|]. intros [st|].
    + apply grows_ret.
    + apply (grows_bind P); [apply grows_health001; exact Hlocal|]. intros [st|].
      * apply grows_ret.
      * apply (grows_bind P); [apply (grows_setApiStatus env w P HP)|]. intros _.
        apply grows_ret.
  - intros _.
    apply (grows_bind P); [apply (grows_setApiStatus env w P HP)|]. intros _.
    apply grows_ret.
Qed.

Lemma grows_tryApiCall r endpoint options baseUrl :
  grows P (Part001.tryApiCall env w r endpoint options baseUrl).
Proof.
  unfold Part001.tryApiCall.
  apply (grows_bind P); [apply (grows_fetch env w P HP); apply HF|]. intros res.
  apply (grows_bind P); [apply (grows_json env w P HP)|]. intros d.
  destruct (negb (ok res)); [|apply grows_ret].
  apply (grows_bind P); [apply grows_get_message | intros msg; apply grows_throw].
Qed.

Lemma grows_apiCall001 r endpoint options :
  grows P (Part001.apiCall env w r endpoint options).
Proof.
  unfold Part001.apiCall.
  apply (grows_try_catch P); [apply grows_tryApiCall|]. intros error.
  destruct (negb _).
  - apply (grows_try_catch P).
    + apply (grows_bind P); [apply (grows_setCurrentApiUrl P); exact Hlocal|].
      intros _. apply grows_tryApiCall.
    + intros localError.
      apply (grows_bind P); [apply (grows_setCurrentApiUrl P); exact Hprod|].
      intros _. apply grows_throw.
  - apply (grows_try_catch P).
    + apply (grows_bind P); [apply (grows_setCurrentApiUrl P); exact Hprod|].
      intros _. apply grows_tryApiCall.
    + intros prodError. apply grows_throw.
Qed.

End ProbeGrows.

Lemma candidates_ambient env w : ambient env w (writes_candidate env).
Proof.
  split; intros; try exact I.
  apply Forall_forall. intros [[|]|s] _; cbn; unfold is_candidate; auto.
Qed.

Lemma run_op_extends env m op : extends (writes_candidate env) m (run_op env m op).
Proof.
  destruct op as [w|w|w r endpoint options retries|w r endpoint options
                 |w r endpoint options retries]; cbn [run_op].
  - apply (grows_checkApiHealth000 env w _ (candidates_ambient env w));
      cbn; unfold is_candidate; auto.
  - apply (grows_checkApiHealth001 env w _ (candidates_ambient env w));
      cbn; unfold is_candidate; auto.
  - apply (grows_apiCall000 env w _ (candidates_ambient env w)); intros; exact I.
  - apply (grows_apiCall001 env w _ (candidates_ambient env w));
      cbn; unfold is_candidate; auto.
  - apply (grows_apiCallAuth env w _ (candidates_ambient env w)); intros; exact I.
Qed.

Lemma run_extends env ops m : extends (writes_candidate env) m (run env ops m).
Proof.
  revert m. induction ops as [|op ops IH]; intros m; [apply extends_refl|].
  eapply extends_trans; [apply run_op_extends | apply IH].
Qed.

Lemma candidate_writes env evs :
  Forall (writes_candidate env) evs ->
  Forall (is_candidate env) (urls_written evs)
  /\ forall u0, is_candidate env u0 -> is_candidate env (url_after evs u0).
Proof.
  induction 1 as [|e evs He Hevs [IH1 IH2]]; [split; [constructor | auto]|].
  destruct e; cbn in *; split; auto.
Qed.

(** C8.  After any sequence of health checks and calls of the three
    versions, each in any world and each call from any render,
    [currentApiUrl] is the production URL or the local URL, and so is every
    value written to it on the way; it starts as the production URL and is
    at every moment the last value written.  It is never undefined, the
    checking window included. *)
Theorem C8_active_endpoint_is_candidate (env : Env) (ops : list Op) :
  let m := run env ops (initial env) in
  is_candidate env (currentApiUrl (initial env))
  /\ is_candidate env (currentApiUrl m)
  /\ Forall (is_candidate env) (urls_written (trace m))
  /\ currentApiUrl m = url_after (trace m) (currentApiUrl (initial env)).
Proof.
  intros m. destruct (run_extends env ops (initial env)) as (evs & Ht & Hp & Hu).
  fold m in Ht, Hu. cbn [initial trace app] in Ht. rewrite Ht.
  destruct (candidate_writes env evs Hp) as [Hw Hafter].
  assert (Hinit : is_candidate env (currentApiUrl (initial env))) by (left; reflexivity).
  repeat split; try assumption.
  rewrite Hu. apply Hafter, Hinit.
Qed.

(** * Substrings *)

Lemma append_assoc (a b c : string) : (a +:+ b) +:+ c = a +:+ (b +:+ c).
Proof.
  induction a as [|x a IH]; [reflexivity|].
  change (String x ((a +:+ b) +:+ c) = String x (a +:+ (b +:+ c))).
  rewrite IH. reflexivity.
Qed.

Lemma prefix_spec (p s : string) :
  String.prefix p s = true <-> exists b, s = p +:+ b.
Proof.
  revert s. induction p as [|x p IH]; intros s.
  - split; [intros _; exists s; reflexivity|]. intros _. destruct s; reflexivity.
  - destruct s as [|y s]; cbn [String.prefix].
    + split; [discriminate|]. intros [b Hb]. discriminate Hb.
    + destruct (Ascii.ascii_dec x y) as [->|Hxy].
      * rewrite IH. split; intros [b Hb]; exists b.
        -- rewrite Hb. reflexivity.
        -- injection Hb as Hb. exact Hb.
      * split; [discriminate|]. intros [b Hb]. injection Hb as Hy _. congruence.
Qed.

(** [includes] is substring containment: it holds exactly of the texts
    that have [p] somewhere between a beginning and an end. *)
Theorem includes_spec (s p : string) :
  includes s p = true <-> exists a b, s = a +:+ p +:+ b.
Proof.
  split.
  - induction s as [|x s IH]; cbn [includes]; rewrite orb_true_iff.
    + intros [Hp|H]; [|discriminate].
      apply prefix_spec in Hp as [b Hb]. exists "", b. exact Hb.
    + intros [Hp|H].
      * apply prefix_spec in Hp as [b Hb]. exists "", b. exact Hb.
      * destruct (IH H) as (a & b & ->). exists (String x a), b. reflexivity.
  - intros (a & b & ->). induction a as [|x a IH].
    + change ("" +:+ p +:+ b) with (p +:+ b).
      assert (Hp : String.prefix p (p +:+ b) = true) by (apply prefix_spec; eauto).
      destruct (p +:+ b); cbn [includes]; rewrite Hp; reflexivity.
    + change (String x a +:+ p +:+ b) with (String x (a +:+ p +:+ b)).
      cbn [includes]. rewrite IH. apply orb_true_r.
Qed.

Lemma includes_longer (s p q : string) :
  includes s (q +:+ p) = true -> includes s p = true.
Proof.
  rewrite !includes_spec. intros (a & b & ->).
  exists (a +:+ q), b. rewrite !append_assoc. reflexivity.
Qed.

(** X1.  The test added to the [catch] block of AuthContext.js changes nothing:
    an error is retried there exactly when part_000 retries it. *)
Theorem retry_tests_agree (e : Error) :
  AuthContext.retryable e = Part000.retryable e.
Proof.
  unfold AuthContext.retryable, Part000.retryable.
  destruct (includes (message e) "Failed to fetch") eqn:Hff.
  - rewrite (includes_longer (message e) "fetch" "Failed to " Hff).
    rewrite !orb_true_r. reflexivity.
  - rewrite orb_false_r. reflexivity.
Qed.

(** * Bounds on a call *)

Section Bounds.
Context (env : Env) (w : World) (r : Render) (endpoint : string) (options : Options).

Lemma attempt000_once m :
  exists j, (j <= 1)%nat
    /\ requests (trace (snd (Part000.attempt env w r endpoint options m)))
       = requests (trace m) ++ repeat (Part000.url r endpoint) j
    /\ sleeps (trace (snd (Part000.attempt env w r endpoint options m)))
       = sleeps (trace m).
Proof.
  destruct (isNative w) eqn:Hnat.
  - rewrite attempt000_native by exact Hnat.
    destruct (native_payload w options) as [payload|e].
    + exists 1%nat. split; [lia|]. cbv zeta. cbn [snd].
      destruct (requested_once env w
                  (call_request (Part000.url r endpoint) (opt_method options)
                     (Part000.headers r options) payload) m) as (_ & Hr & Hz).
      split; [exact Hr | exact Hz].
    + exists 0%nat. split; [lia|]. cbn. rewrite app_nil_r. auto.
  - rewrite attempt000_web by exact Hnat. exists 1%nat. split; [lia|]. cbn [snd].
    destruct (web_machine_once env w (Part000.url r endpoint)
                (call_init (opt_method options) (Part000.headers r options)
                   (opt_body options)) m) as (_ & Hr & Hz).
    split; [exact Hr | exact Hz].
Qed.

Lemma attemptAuth_once m :
  exists j, (j <= 1)%nat
    /\ requests (trace (snd (AuthContext.attempt env w r endpoint options m)))
       = requests (trace m) ++ repeat (AuthContext.url env endpoint) j
    /\ sleeps (trace (snd (AuthContext.attempt env w r endpoint options m)))
       = sleeps (trace m).
Proof.
  destruct (isNative w) eqn:Hnat.
  - rewrite attemptAuth_native by exact Hnat.
    destruct (native_payload w options) as [payload|e].
    + exists 1%nat. split; [lia|]. cbv zeta. cbn [snd].
      destruct (requested_once env w
                  (call_request (AuthContext.url env endpoint) (opt_method options)
                     (AuthContext.headers r options) payload) m) as (_ & Hr & Hz).
      split; [exact Hr | exact Hz].
    + exists 0%nat. split; [lia|]. cbn. rewrite app_nil_r. auto.
  - rewrite attemptAuth_web by exact Hnat. exists 1%nat. split; [lia|]. cbn [snd].
    destruct (web_machine_once env w (AuthContext.url env endpoint)
                (call_init (opt_method options) (AuthContext.headers r options)
                   (opt_body options)) m) as (_ & Hr & Hz).
    split; [exact Hr | exact Hz].
Qed.

Lemma bounded000 retries m :
  let out := Part000.apiCall env w r endpoint options retries m in
  exists j k, (j <= k + 1)%nat /\ (k <= Z.to_nat retries)%nat
    /\ requests (trace (snd out))
       = requests (trace m) ++ repeat (Part000.url r endpoint) j
    /\ sleeps (trace (snd out)) = sleeps (trace m) ++ repeat 2000 k.
Proof.
  revert retries m. apply retry_induction. intros retries m IH. cbv zeta.
  rewrite apiCall000_unfold.
  destruct (attempt000_once m) as (j0 & Hj0 & Hr0 & Hz0).
  destruct (Part000.attempt env w r endpoint options m) as [[d|err] m1];
    cbn [snd] in *.
  - exists j0, 0%nat. rewrite Hr0, Hz0, app_nil_r. repeat split; lia.
  - destruct ((0 <? retries) && Part000.retryable err) eqn:Hretry.
    + apply andb_true_iff in Hretry as [Hpos _]. apply Z.ltb_lt in Hpos.
      destruct (sleep_once env w 2000 m1) as (_ & Hr' & Hz').
      destruct (IH Hpos (snd (sleep env w 2000 m1))) as (j & k & Hj & Hk & Hr & Hz).
      exists (j0 + j)%nat, (S k).
      rewrite Hr, Hz, Hr', Hz', Hr0, Hz0, repeat_app, <- !app_assoc.
      repeat split; try lia.
    + exists j0, 0%nat. cbn [snd]. rewrite Hr0, Hz0, app_nil_r. repeat split; lia.
Qed.

Lemma boundedAuth retries m :
  let out := AuthContext.apiCall env w r endpoint options retries m in
  exists j k, (j <= k + 1)%nat /\ (k <= Z.to_nat retries)%nat
    /\ requests (trace (snd out))
       = requests (trace m) ++ repeat (AuthContext.url env endpoint) j
    /\ sleeps (trace (snd out)) = sleeps (trace m) ++ repeat 2000 k.
Proof.
  revert retries m. apply retry_induction. intros retries m IH. cbv zeta.
  rewrite apiCallAuth_unfold.
  destruct (attemptAuth_once m) as (j0 & Hj0 & Hr0 & Hz0).
  destruct (AuthContext.attempt env w r endpoint options m) as [[d|err] m1];
    cbn [snd] in *.
  - exists j0, 0%nat. rewrite Hr0, Hz0, app_nil_r. repeat split; lia.
  - destruct ((0 <? retries) && AuthContext.retryable err) eqn:Hretry.
    + apply andb_true_iff in Hretry as [Hpos _]. apply Z.ltb_lt in Hpos.
      destruct (sleep_once env w 2000 m1) as (_ & Hr' & Hz').
      destruct (IH Hpos (snd (sleep env w 2000 m1))) as (j & k & Hj & Hk & Hr & Hz).
      exists (j0 + j)%nat, (S k).
      rewrite Hr, Hz, Hr', Hz', Hr0, Hz0, repeat_app, <- !app_assoc.
      repeat split; try lia.
    + exists j0, 0%nat. cbn [snd]. rewrite Hr0, Hz0, app_nil_r. repeat split; lia.
Qed.

End Bounds.

(** X2.  Whatever the network, the engine and the other flows do, a call with
    the budget [retries] sends [j] requests, all to the same URL, and waits
    [k] times, each time 2000 ms, where [k] is at most [retries] (zero when
    the budget is zero or negative) and [j] is at most [k + 1]: the call
    sends at most [retries + 1] requests, and at most one more request than
    it has waited. *)
Theorem call_is_bounded (env : Env) (w : World) (r : Render) (endpoint : string)
  (options : Options) (retries : Z) (m : Machine) :
  (let out := Part000.apiCall env w r endpoint options retries m in
   exists j k, (j <= k + 1)%nat /\ (k <= Z.to_nat retries)%nat
     /\ requests (trace (snd out))
        = requests (trace m) ++ repeat (Part000.url r endpoint) j
     /\ sleeps (trace (snd out)) = sleeps (trace m) ++ repeat 2000 k)
  /\
  (let out := AuthContext.apiCall env w r endpoint options retries m in
   exists j k, (j <= k + 1)%nat /\ (k <= Z.to_nat retries)%nat
     /\ requests (trace (snd out))
        = requests (trace m) ++ repeat (AuthContext.url env endpoint) j
     /\ sleeps (trace (snd out)) = sleeps (trace m) ++ repeat 2000 k).
Proof. split; [apply bounded000 | apply boundedAuth]. Qed.

(** * The failover of part_001, case by case *)

Section Failover.
Context (env : Env) (w : World) (r : Render) (endpoint : string) (options : Options).

Let first := url_of_render r.
Let second := other_endpoint env r.
Let cfg := Part001.config r options.

Lemma apiCall001_eq m :
  let m1 := web_machine env w (first +:+ endpoint) cfg m in
  let m2 := web_machine env w (second +:+ endpoint) cfg (write_url second m1) in
  Part001.apiCall env w r endpoint options m
  = match web_completion w "Something went wrong" cfg
            (fetch_net w (sent m) (first +:+ endpoint) cfg) with
    | Return d => (Return d, m1)
    | Throw e1 =>
        match web_completion w "Something went wrong" cfg
                (fetch_net w (S (sent m)) (second +:+ endpoint) cfg) with
        | Return d => (Return d, m2)
        | Throw e2 =>
            (Throw (new_Error
                      (both_failed (String.eqb first (LOCAL_API_URL env)) e1 e2)),
             if String.eqb first (LOCAL_API_URL env) then m2
             else write_url (PRODUCTION_API_URL env) m2)
        end
    end.
Proof.
  intros m1 m2. unfold Part001.apiCall, try_catch at 1. rewrite tryApiCall_eq.
  fold first cfg m1.
  destruct (web_completion w "Something went wrong" cfg
              (fetch_net w (sent m) (first +:+ endpoint) cfg)) as [d|e1];
    [reflexivity|].
  assert (Hs1 : sent m1 = S (sent m)) by apply web_machine_once.
  subst m2 second. unfold other_endpoint, both_failed. fold first.
  destruct (String.eqb first (LOCAL_API_URL env)); cbn [negb].
  - unfold try_catch at 1, bind at 1, setCurrentApiUrl at 1.
    rewrite tryApiCall_eq. fold cfg.
    change (sent (write_url (PRODUCTION_API_URL env) m1)) with (sent m1).
    rewrite Hs1. destruct (web_completion _ _ _ _); reflexivity.
  - unfold try_catch at 1, bind at 1, setCurrentApiUrl at 1.
    rewrite tryApiCall_eq. fold cfg.
    change (sent (write_url (LOCAL_API_URL env) m1)) with (sent m1).
    rewrite Hs1. destruct (web_completion _ _ _ _); reflexivity.
Qed.

End Failover.

(** Without an AbortController the promise of a fetch settles with what the
    network answers, however late. *)
Lemma settle_unsigned w w' init o o' :
  init_signal init = None -> result o = result o' ->
  settle w init o = settle w' init o'.
Proof.
  intros Hsig Hres. unfold settle. rewrite Hsig, Hres. reflexivity.
Qed.

(** X3.  In part_001, with nothing else running, a call whose first request
    succeeds returns its payload after that one request and leaves the
    active endpoint as it was; a call whose first request fails sends one
    more request, to the other endpoint, and when that one succeeds returns
    its payload and leaves the other endpoint active.  No call sends more
    than two requests. *)
Theorem failover_outcomes (env : Env) (w : World) (r : Render)
  (endpoint : string) (options : Options) (m : Machine) :
  let first := url_of_render r +:+ endpoint in
  let second := other_endpoint env r +:+ endpoint in
  let cfg := Part001.config r options in
  let c1 := web_completion w "Something went wrong" cfg
              (fetch_net w (sent m) first cfg) in
  let c2 := web_completion w "Something went wrong" cfg
              (fetch_net w (S (sent m)) second cfg) in
  let out := Part001.apiCall env (quiet w) r endpoint options m in
  match c1 with
  | Return d =>
      fst out = Return d
      /\ currentApiUrl (snd out) = currentApiUrl m
      /\ urls_written (trace (snd out)) = urls_written (trace m)
      /\ requests (trace (snd out)) = requests (trace m) ++ [first]
  | Throw e1 =>
      requests (trace (snd out)) = requests (trace m) ++ [first; second]
      /\ match c2 with
         | Return d =>
             fst out = Return d
             /\ currentApiUrl (snd out) = other_endpoint env r
         | Throw e2 =>
             currentApiUrl (snd out) = PRODUCTION_API_URL env
         end
  end.
Proof.
  intros first second cfg c1 c2 out. subst out.
  rewrite apiCall001_eq.
  change (web_completion (quiet w)) with (web_completion w).
  change (fetch_net (quiet w)) with (fetch_net w).
  fold cfg first second c1 c2.
  set (m1 := web_machine env (quiet w) first cfg m).
  assert (Hr1 : requests (trace m1) = requests (trace m) ++ [first])
    by apply web_machine_once.
  destruct c1 as [d|e1]; cbn [fst snd].
  - split; [reflexivity|]. split; [apply web_machine_quiet|]. split; [|exact Hr1].
    subst m1. unfold web_machine. destruct (settle _ _ _).
    + unfold suspend; cbn [quiet background fold_left snd trace].
      apply fetched_quiet.
    + apply fetched_quiet.
  - set (m2 := web_machine env (quiet w) second cfg (write_url (other_endpoint env r) m1)).
    assert (Hr2 : requests (trace m2) = requests (trace m) ++ [first; second]).
    { subst m2.
      destruct (web_machine_once env (quiet w) second cfg
                  (write_url (other_endpoint env r) m1)) as (_ & -> & _).
      unfold write_url; cbn [trace]. rewrite requests_app, Hr1. cbn [requests].
      rewrite app_nil_r, <- app_assoc. reflexivity. }
    assert (Hu2 : currentApiUrl m2 = other_endpoint env r)
      by (subst m2; apply web_machine_quiet).
    destruct c2 as [d|e2]; cbn [fst snd].
    + auto.
    + unfold other_endpoint in Hu2.
      destruct (String.eqb (url_of_render r) (LOCAL_API_URL env)); cbn [snd].
      * auto.
      * unfold write_url; cbn [trace currentApiUrl].
        rewrite requests_app, Hr2. cbn [requests]. rewrite app_nil_r. auto.
Qed.

(** X4.  In part_001 neither the health check nor a call sets a timer: on two
    networks that give the same answers after different delays both return
    the same result.  (In part_000 the timers decide: see [healthy000].) *)
Theorem part001_ignores_latency (env : Env) (w w' : World) (r : Render)
  (endpoint : string) (options : Options) (m : Machine)
  (Hsame : same_answers w w')
  (Hnull : null_message w = null_message w') :
  fst (Part001.checkApiHealth env w m) = fst (Part001.checkApiHealth env w' m)
  /\ fst (Part001.apiCall env w r endpoint options m)
     = fst (Part001.apiCall env w' r endpoint options m).
Proof.
  split.
  - rewrite !checkApiHealth001_eq. unfold healthy001, responds_ok.
    rewrite <- !Hsame.
    destruct (result (fetch_net w (sent m) _ _)) as [e|st b].
    + destruct (result (fetch_net w (S (sent m)) _ _)) as [e'|st' b']; [reflexivity|].
      destruct ((200 <=? st') && (st' <=? 299)); reflexivity.
    + destruct ((200 <=? st) && (st <=? 299)); [reflexivity|].
      destruct (result (fetch_net w (S (sent m)) _ _)) as [e'|st' b']; [reflexivity|].
      destruct ((200 <=? st') && (st' <=? 299)); reflexivity.
  - rewrite !apiCall001_eq.
    assert (Hc : forall n url,
               web_completion w "Something went wrong" (Part001.config r options)
                 (fetch_net w n url (Part001.config r options))
               = web_completion w' "Something went wrong" (Part001.config r options)
                   (fetch_net w' n url (Part001.config r options))).
    { intros n url. unfold web_completion.
      rewrite (settle_unsigned w w' (Part001.config r options)
                 (fetch_net w n url (Part001.config r options))
                 (fetch_net w' n url (Part001.config r options))
                 eq_refl (Hsame n url _)).
      destruct (settle _ _ _) as [res|e]; [|reflexivity].
      destruct (res_json res) as [e|d]; [reflexivity|].
      destruct (ok res); [reflexivity|].
      unfold rejection, TypeError_null. rewrite Hnull. reflexivity. }
    rewrite !Hc.
    destruct (web_completion w' _ _ _) as [d|e1]; [reflexivity|].
    destruct (web_completion w' _ _ _) as [d|e2]; reflexivity.
Qed.

Lemma part001_ignores_latency_witness :
  fst (Part001.checkApiHealth default_env waking_up (initial default_env))
  = fst (Part001.checkApiHealth default_env
           {| isNative := false;
              fetch_net := fun n url init =>
                mkOutcome 90000 (result (fetch_net waking_up n url init));
              native_net := native_net waking_up;
              JSON_parse := JSON_parse waking_up;
              abort_message := abort_message waking_up;
              null_message := null_message waking_up;
              background := fun _ => [] |}
           (initial default_env)).
Proof.
  apply (part001_ignores_latency default_env waking_up _ (anonymous "") "" no_options).
  - intros n url init. reflexivity.
  - reflexivity.
Defined.

(** * The requests of part_001 *)

Section FailoverRequests.
Context (env : Env) (w : World) (r : Render) (endpoint : string) (options : Options).

Let P := failover_request env r endpoint options.

Lemma failover_ambient : ambient env w P.
Proof.
  split; intros; try exact I.
  apply Forall_forall. intros [c|s] _; exact I.
Qed.

Lemma grows_tryApiCall_config baseUrl :
  baseUrl = url_of_render r \/ baseUrl = LOCAL_API_URL env
  \/ baseUrl = PRODUCTION_API_URL env ->
  grows P (Part001.tryApiCall env w r endpoint options baseUrl).
Proof.
  intros Hbase. unfold Part001.tryApiCall.
  apply (grows_bind P).
  - apply (grows_fetch env w P failover_ambient). split; [reflexivity|].
    destruct Hbase as [->| [->| ->]]; auto.
  - intros res. apply (grows_bind P); [apply (grows_json env w P failover_ambient)|].
    intros d. destruct (negb (ok res)); [|apply grows_ret].
    apply (grows_bind P); [apply grows_get_message | intros msg; apply grows_throw].
Qed.

Lemma grows_apiCall001_config : grows P (Part001.apiCall env w r endpoint options).
Proof.
  unfold Part001.apiCall.
  apply (grows_try_catch P); [apply grows_tryApiCall_config; auto|]. intros error.
  destruct (negb _).
  - apply (grows_try_catch P).
    + apply (grows_bind P); [apply (grows_setCurrentApiUrl P); exact I|].
      intros _. apply grows_tryApiCall_config; auto.
    + intros localError.
      apply (grows_bind P); [apply (grows_setCurrentApiUrl P); exact I|].
      intros _. apply grows_throw.
  - apply (grows_try_catch P).
    + apply (grows_bind P); [apply (grows_setCurrentApiUrl P); exact I|].
      intros _. apply grows_tryApiCall_config; auto.
    + intros prodError. apply grows_throw.
Qed.

End FailoverRequests.

(** X5.  In part_001 every request of a call is a fetch (never a native request)
    with the one [config] of the call, to the endpoint of the render, the
    local one or the production one.  Headers passed by the caller replace
    the composed ones: Content-Type and Authorization are then sent only as
    far as the caller repeats them, token or not.  Without caller headers
    the composed ones are sent. *)
Theorem caller_headers_replace001 (env : Env) (w : World) (r : Render)
  (endpoint : string) (options : Options) (m : Machine) :
  (exists evs,
      trace (snd (Part001.apiCall env w r endpoint options m)) = trace m ++ evs
      /\ Forall (failover_request env r endpoint options) evs)
  /\ match opt_headers options with
     | Some h => init_headers (Part001.config r options) = Some h
     | None =>
         exists h0, init_headers (Part001.config r options) = Some h0
                    /\ forall k, h0 !! k = expected_header (token r) ∅ k
     end.
Proof.
  split.
  - destruct (grows_apiCall001_config env w r endpoint options m)
      as (evs & Ht & Hp & _).
    exists evs. auto.
  - unfold Part001.config; cbn [init_headers].
    destruct (opt_headers options) as [h|]; [reflexivity|].
    eexists. split; [reflexivity|]. intros k.
    apply (headers_lookup (token r) None k).
Qed.

(** * The CORS whitelist of the server *)

Lemma has_unit_app c (a b : Server.text) :
  has_unit c (a ++ b) = has_unit c a || has_unit c b.
Proof.
  induction a as [|x a IH]; [reflexivity|].
  cbn [app has_unit]. rewrite IH, orb_assoc. reflexivity.
Qed.

Lemma blank_no_comma (s : Server.text) :
  blank s = true -> has_unit Server.comma s = false.
Proof.
  induction s as [|x s IH]; [reflexivity|]. cbn [blank has_unit].
  intros [Hx Hs]%andb_true_iff. rewrite (IH Hs), orb_false_r.
  destruct (N.eqb_spec x Server.comma) as [->|]; [discriminate Hx | reflexivity].
Qed.

Lemma text_eqb_eq (a b : Server.text) : Server.text_eqb a b = true <-> a = b.
Proof.
  revert b. induction a as [|x a IH]; intros [|y b]; cbn [Server.text_eqb];
    try (split; [discriminate | congruence]); [split; reflexivity|].
  rewrite andb_true_iff, N.eqb_eq, IH. split; [intros [-> ->] | intros [= -> ->]]; auto.
Qed.

Section Split.
Context (sep : N).

Lemma split_first_free (u : Server.text) :
  has_unit sep u = false -> Server.split_first sep u = (u, []).
Proof.
  induction u as [|x u IH]; [reflexivity|]. cbn [has_unit Server.split_first].
  intros [Hx Hu]%orb_false_iff. rewrite (IH Hu), Hx. reflexivity.
Qed.

Lemma split_first_sep (u rest : Server.text) :
  has_unit sep u = false ->
  Server.split_first sep (u ++ sep :: rest) = (u, Server.split sep rest).
Proof.
  induction u as [|x u IH].
  - intros _. cbn [app Server.split_first]. unfold Server.split.
    destruct (Server.split_first sep rest). rewrite N.eqb_refl. reflexivity.
  - cbn [has_unit]. intros [Hx Hu]%orb_false_iff.
    cbn [app Server.split_first]. rewrite (IH Hu), Hx. reflexivity.
Qed.

(** No piece of a split contains the separator. *)
Lemma split_first_pieces (s : Server.text) :
  has_unit sep (fst (Server.split_first sep s)) = false
  /\ Forall (fun piece => has_unit sep piece = false) (snd (Server.split_first sep s)).
Proof.
  induction s as [|x s [IH1 IH2]]; [split; [reflexivity | constructor]|].
  cbn [Server.split_first]. destruct (Server.split_first sep s) as [piece pieces].
  cbn [fst snd] in *. destruct (N.eqb x sep) eqn:Hx; cbn [fst snd has_unit].
  - split; [reflexivity | constructor; assumption].
  - rewrite Hx, IH1. split; [reflexivity | assumption].
Qed.

Lemma split_pieces (s : Server.text) :
  Forall (fun piece => has_unit sep piece = false) (Server.split sep s).
Proof.
  unfold Server.split. pose proof (split_first_pieces s) as [H1 H2].
  destruct (Server.split_first sep s). constructor; assumption.
Qed.

End Split.

(** Splitting at the commas gives back the entries that were joined with
    commas, when none of them contains one. *)
Lemma split_join (l : list Server.text) :
  l <> [] -> Forall (fun u => has_unit Server.comma u = false) l ->
  Server.split Server.comma (join_comma l) = l.
Proof.
  intros Hne Hfree. induction Hfree as [|u l Hu Hl IH]; [congruence|].
  destruct l as [|v l].
  - cbn [join_comma]. unfold Server.split.
    rewrite (split_first_free _ u Hu). reflexivity.
  - change (join_comma (u :: v :: l))
      with (u ++ Server.comma :: join_comma (v :: l)).
    unfold Server.split at 1. rewrite (split_first_sep _ u _ Hu).
    rewrite IH by discriminate. reflexivity.
Qed.

Section Trim.

Lemma trimStart_blank (a s : Server.text) :
  blank a = true -> Server.trimStart (a ++ s) = Server.trimStart s.
Proof.
  induction a as [|x a IH]; [reflexivity|]. cbn [blank].
  intros [Hx Ha]%andb_true_iff. cbn [app Server.trimStart].
  rewrite Hx. apply IH, Ha.
Qed.

Lemma trimStart_all_blank (b : Server.text) :
  blank b = true -> Server.trimStart b = [].
Proof.
  induction b as [|y b IH]; [reflexivity|]. cbn [blank Server.trimStart].
  intros [Hy Hb]%andb_true_iff. rewrite Hy. apply IH, Hb.
Qed.

Lemma trimEnd_all_blank (b : Server.text) :
  blank b = true -> Server.trimEnd b = [].
Proof.
  induction b as [|x b IH]; [reflexivity|]. cbn [blank Server.trimEnd].
  intros [Hx Hb]%andb_true_iff. rewrite (IH Hb), Hx. reflexivity.
Qed.

Lemma trimEnd_blank (s b : Server.text) :
  blank b = true -> Server.trimEnd (s ++ b) = Server.trimEnd s.
Proof.
  intros Hb. induction s as [|x s IH].
  - apply trimEnd_all_blank, Hb.
  - cbn [app Server.trimEnd]. rewrite IH. reflexivity.
Qed.

Lemma trimStart_length (s : Server.text) :
  (length (Server.trimStart s) <= length s)%nat.
Proof.
  induction s as [|x s IH]; [reflexivity|]. cbn [Server.trimStart].
  destruct (Server.is_space x); cbn [length]; lia.
Qed.

Lemma trimEnd_length (s : Server.text) :
  (length (Server.trimEnd s) <= length s)%nat.
Proof.
  induction s as [|x s IH]; [reflexivity|]. cbn [Server.trimEnd].
  destruct (Server.trimEnd s); [destruct (Server.is_space x)|];
    cbn [length] in *; lia.
Qed.

(** A text that [trim] leaves alone is empty or starts with a character
    that is not white space, and [trimEnd] leaves it alone too. *)
Lemma trimmed_shape (u : Server.text) :
  trimmed u -> Server.trimStart u = u /\ Server.trimEnd u = u.
Proof.
  unfold trimmed, Server.trim. intros Hu.
  assert (Hs : Server.trimStart u = u).
  { destruct u as [|x u]; [reflexivity|]. cbn [Server.trimStart] in *.
    destruct (Server.is_space x); [|reflexivity].
    pose proof (trimEnd_length (Server.trimStart u)) as H1.
    pose proof (trimStart_length u) as H2.
    rewrite Hu in H1. cbn [length] in H1. lia. }
  rewrite Hs in Hu. auto.
Qed.

Lemma trim_padded (a u b : Server.text) :
  blank a = true -> blank b = true -> trimmed u -> Server.trim (a ++ u ++ b) = u.
Proof.
  intros Ha Hb Hu. destruct (trimmed_shape u Hu) as [Hs He].
  unfold Server.trim. rewrite (trimStart_blank a _ Ha).
  destruct u as [|x u].
  - cbn [app]. rewrite (trimStart_all_blank b Hb). reflexivity.
  - cbn [app Server.trimStart] in *.
    destruct (Server.is_space x).
    + pose proof (trimStart_length u) as H. rewrite Hs in H.
      cbn [length] in H. lia.
    + change (x :: u ++ b) with ((x :: u) ++ b).
      rewrite (trimEnd_blank _ b Hb). exact He.
Qed.

Lemma trimStart_no_new c (s : Server.text) :
  has_unit c (Server.trimStart s) = true -> has_unit c s = true.
Proof.
  induction s as [|x s IH]; [discriminate|]. cbn [Server.trimStart].
  destruct (Server.is_space x); [|auto].
  intros H. cbn [has_unit]. rewrite (IH H). apply orb_true_r.
Qed.

Lemma trimEnd_no_new c (s : Server.text) :
  has_unit c (Server.trimEnd s) = true -> has_unit c s = true.
Proof.
  induction s as [|x s IH]; [discriminate|]. cbn [Server.trimEnd has_unit].
  destruct (Server.trimEnd s) as [|y kept].
  - destruct (Server.is_space x); [discriminate|]. cbn [has_unit].
    rewrite orb_false_r. intros ->. reflexivity.
  - cbn [has_unit] in *. intros [->|H]%orb_true_iff; [reflexivity|].
    rewrite (IH H). apply orb_true_r.
Qed.

Lemma trimEnd_idempotent (s : Server.text) :
  Server.trimEnd (Server.trimEnd s) = Server.trimEnd s.
Proof.
  induction s as [|x s IH]; [reflexivity|]. cbn [Server.trimEnd].
  destruct (Server.trimEnd s) as [|y kept] eqn:He.
  - destruct (Server.is_space x) eqn:Hx; [reflexivity|].
    cbn [Server.trimEnd]. rewrite Hx. reflexivity.
  - cbn [Server.trimEnd] in *. rewrite IH. reflexivity.
Qed.

Lemma trim_trimmed (s : Server.text) : trimmed (Server.trim s).
Proof.
  unfold trimmed, Server.trim.
  assert (Hstart : Server.trimStart (Server.trimEnd (Server.trimStart s))
                   = Server.trimEnd (Server.trimStart s)).
  { induction s as [|x s IH]; [reflexivity|]. cbn [Server.trimStart].
    destruct (Server.is_space x) eqn:Hx; [exact IH|].
    cbn [Server.trimEnd]. destruct (Server.trimEnd s);
      rewrite ?Hx; cbn [Server.trimStart]; rewrite Hx; reflexivity. }
  rewrite Hstart. apply trimEnd_idempotent.
Qed.

(** A text with white space at either end is not [trimmed]. *)
Lemma trimmed_ends (c : N) (s : Server.text) :
  Server.is_space c = true -> ~ trimmed (c :: s) /\ ~ trimmed (s ++ [c]).
Proof.
  intros Hc. split; intros Hu; destruct (trimmed_shape _ Hu) as [Hs He].
  - cbn [Server.trimStart] in Hs. rewrite Hc in Hs.
    pose proof (trimStart_length s) as H. rewrite Hs in H. cbn [length] in H. lia.
  - rewrite (trimEnd_blank s [c]) in He by (cbn [blank]; rewrite Hc; reflexivity).
    pose proof (trimEnd_length s) as H. rewrite He, length_app in H.
    cbn [length] in H. lia.
Qed.

End Trim.

Lemma padded_free (entry : Server.text * Server.text * Server.text) :
  well_padded entry -> has_unit Server.comma (padded entry) = false.
Proof.
  destruct entry as [[a u] b]. intros (Ha & Hb & _ & Hu). unfold padded.
  rewrite !has_unit_app, Hu, (blank_no_comma a Ha), (blank_no_comma b Hb).
  reflexivity.
Qed.

Lemma padded_trim (entry : Server.text * Server.text * Server.text) :
  well_padded entry -> Server.trim (padded entry) = bare entry.
Proof.
  destruct entry as [[a u] b]. intros (Ha & Hb & Hu & _).
  apply trim_padded; assumption.
Qed.

(** X6.  FRONTEND_URL set to origins separated by commas, each with white space
    of any length around it (the white space of ECMAScript: tabs, spaces,
    line ends, U+00A0, U+FEFF and the other space characters of Unicode),
    whitelists exactly those origins, in their order: the white space is
    gone and nothing else is.  (An empty FRONTEND_URL counts as unset.) *)
Theorem configured_whitelist
  (entries : list (Server.text * Server.text * Server.text))
  (node_env : option string)
  (Hentries : entries <> [])
  (Hpadded : Forall well_padded entries)
  (Hset : join_comma (map padded entries) <> []) :
  Server.allowedOrigins
    {| Server.FRONTEND_URL := Some (join_comma (map padded entries));
       Server.NODE_ENV := node_env |}
  = map bare entries.
Proof.
  unfold Server.allowedOrigins; cbn [Server.FRONTEND_URL].
  destruct (join_comma (map padded entries)) as [|c rest] eqn:Hjoin; [congruence|].
  rewrite <- Hjoin, split_join.
  - rewrite map_map. apply map_ext_Forall.
    eapply Forall_impl; [exact Hpadded|]. intros entry. apply padded_trim.
  - destruct entries; [congruence | discriminate].
  - apply Forall_map. eapply Forall_impl; [exact Hpadded|].
    intros entry. apply padded_free.
Qed.

Lemma configured_whitelist_witness :
  Server.allowedOrigins
    {| Server.FRONTEND_URL :=
         Some (Server.units "https://yoga.example.com," ++ [160; 32]%N
               ++ Server.units "http://localhost:3000" ++ [8232; 65279; 9]%N);
       Server.NODE_ENV := Some "production" |}
  = [Server.units "https://yoga.example.com"; Server.units "http://localhost:3000"].
Proof.
  apply (configured_whitelist two_origins (Some "production")).
  - discriminate.
  - repeat constructor.
  - discriminate.
Defined.

Lemma whitelist_entries (penv : Server.ProcessEnv) :
  Forall (fun u => has_unit Server.comma u = false /\ trimmed u)
    (Server.allowedOrigins penv).
Proof.
  assert (Hdefault : Forall (fun u => has_unit Server.comma u = false /\ trimmed u)
                       [Server.units "http://localhost:3000";
                        Server.units "http://localhost:3001"])
    by (repeat constructor).
  unfold Server.allowedOrigins.
  destruct (Server.FRONTEND_URL penv) as [[|c urls]|]; try exact Hdefault.
  apply Forall_map. eapply Forall_impl; [apply (split_pieces Server.comma (c :: urls))|].
  intros piece Hfree. cbv beta. split; [|apply trim_trimmed].
  destruct (has_unit Server.comma (Server.trim piece)) eqn:H; [|reflexivity].
  unfold Server.trim in H.
  apply trimEnd_no_new, trimStart_no_new in H. congruence.
Qed.

Lemma includes_origin (o : Server.text) (l : list Server.text) :
  existsb (Server.text_eqb o) l = true <-> In o l.
Proof.
  rewrite existsb_exists. split.
  - intros (x & Hx & ->%text_eqb_eq). exact Hx.
  - intros Hin. exists o. split; [exact Hin | apply text_eqb_eq; reflexivity].
Qed.

(** X7.  The CORS decision.  A request without an Origin header is let through
    whatever the configuration, and in development every origin is.
    Otherwise an origin is let through exactly when it is one of
    [allowedOrigins], and refused with "Not allowed by CORS" when it is
    not; an origin that contains a comma, or that begins or ends with a
    character that [trim] removes, is refused under every configuration. *)
Theorem cors_policy (penv : Server.ProcessEnv) (o : Server.text) :
  Server.origin penv None = Return true
  /\ Server.origin penv (Some []) = Return true
  /\ (Server.development penv = true -> Server.origin penv (Some o) = Return true)
  /\ (Server.development penv = false -> o <> [] ->
      (Server.origin penv (Some o) = Return true <-> In o (Server.allowedOrigins penv))
      /\ (~ In o (Server.allowedOrigins penv) ->
          Server.origin penv (Some o) = Throw (new_Error "Not allowed by CORS"))
      /\ (has_unit Server.comma o = true
          \/ ~ trimmed o
          \/ (exists c s, Server.is_space c = true /\ (o = c :: s \/ o = s ++ [c])) ->
          Server.origin penv (Some o) = Throw (new_Error "Not allowed by CORS"))).
Proof.
  split; [reflexivity|]. split; [reflexivity|]. split.
  - intros Hdev. unfold Server.origin. destruct o as [|c o]; [reflexivity|].
    rewrite Hdev, orb_true_r. reflexivity.
  - intros Hdev Ho.
    assert (Hrefuse : ~ In o (Server.allowedOrigins penv) ->
                      Server.origin penv (Some o) = Throw (new_Error "Not allowed by CORS")).
    { intros Hout. unfold Server.origin. destruct o as [|c o]; [congruence|].
      rewrite Hdev, orb_false_r.
      destruct (existsb _ _) eqn:Hex; [|reflexivity].
      apply includes_origin in Hex. contradiction. }
    split; [|split; [exact Hrefuse|]].
    + split.
      * intros Hok.
        destruct (existsb (Server.text_eqb o) (Server.allowedOrigins penv)) eqn:Hex;
          [apply includes_origin; exact Hex|].
        rewrite Hrefuse in Hok; [discriminate Hok|].
        intros Hin. apply includes_origin in Hin. congruence.
      * intros Hin. unfold Server.origin. destruct o as [|c o]; [congruence|].
        apply includes_origin in Hin. rewrite Hin. reflexivity.
    + intros Hbad. apply Hrefuse. intros Hin.
      pose proof (whitelist_entries penv) as Hall.
      rewrite List.Forall_forall in Hall. destruct (Hall o Hin) as [Hfree Htrim].
      destruct Hbad as [Hcomma|[Hspace|(c & s & Hc & Hshape)]];
        [congruence | contradiction |].
      destruct (trimmed_ends c s Hc) as [Hfirst Hlast].
      destruct Hshape as [-> | ->]; contradiction.
Qed.

Lemma cors_policy_witness :
  Server.origin bare_server (Some (Server.units "http://localhost:3000")) = Return true
  /\ Server.origin bare_server
       (Some (Server.units "http://localhost:3000,http://localhost:3001"))
     = Throw (new_Error "Not allowed by CORS")
  /\ Server.origin bare_server (Some (160%N :: Server.units "http://localhost:3000"))
     = Throw (new_Error "Not allowed by CORS")
  /\ Server.origin {| Server.FRONTEND_URL := None;
                      Server.NODE_ENV := Some "development" |}
       (Some (Server.units "https://anywhere.example.com")) = Return true.
Proof.
  split; [|split; [|split]].
  - destruct (cors_policy bare_server (Server.units "http://localhost:3000"))
      as (_ & _ & _ & H).
    destruct (H eq_refl ltac:(discriminate)) as (Hiff & _).
    apply Hiff. left. reflexivity.
  - destruct (cors_policy bare_server
                (Server.units "http://localhost:3000,http://localhost:3001"))
      as (_ & _ & _ & H).
    destruct (H eq_refl ltac:(discriminate)) as (_ & _ & Hbad).
    apply Hbad. left. reflexivity.
  - destruct (cors_policy bare_server
                (160%N :: Server.units "http://localhost:3000"))
      as (_ & _ & _ & H).
    destruct (H eq_refl ltac:(discriminate)) as (_ & _ & Hbad).
    apply Hbad. right. right. exists 160%N, (Server.units "http://localhost:3000").
    split; [reflexivity | left; reflexivity].
  - destruct (cors_policy {| Server.FRONTEND_URL := None;
                             Server.NODE_ENV := Some "development" |}
                (Server.units "https://anywhere.example.com")) as (_ & _ & H & _).
    apply H. reflexivity.
Defined.

(** * The server's replies at the client *)

Section Replies.
Context (env : Env) (w : World) (r : Render) (endpoint : string) (options : Options).
Context (penv : Server.ProcessEnv) (err : Error) (rep : Server.Reply).
Context (Hrep : rep = Server.not_found \/ rep = Server.error_handler penv err).
Context (Hbody : isNative w = true -> body_parses w options).

Lemma reply_rejected fallback method h body lat :
  lat < 60000 ->
  web_completion w fallback (call_init method h body) (served lat rep)
  = Throw (new_Error (reply_message rep)).
Proof.
  intros Hlat. unfold web_completion, settle, served, call_init; cbn.
  destruct (Z.leb_spec 60000 lat); [lia|].
  destruct Hrep as [->| ->]; reflexivity.
Qed.

Lemma reply_attempt000 m :
  replies_at w (sent m) rep ->
  exists m1,
    Part000.attempt env w r endpoint options m
    = (Throw (new_Error (reply_message rep)), m1)
    /\ dispatched_once (Part000.url r endpoint) m m1.
Proof.
  intros [Hf Hn]. destruct (isNative w) eqn:Hnat.
  - rewrite attempt000_native by exact Hnat.
    destruct (Hbody eq_refl) as [payload ->]. cbv zeta. rewrite Hn.
    eexists. split.
    + unfold native_completion000. destruct Hrep as [->| ->]; reflexivity.
    + exact (requested_once env w
               (call_request (Part000.url r endpoint) (opt_method options)
                  (Part000.headers r options) payload) m).
  - rewrite attempt000_web by exact Hnat.
    destruct (Hf (Part000.url r endpoint)
                (call_init (opt_method options) (Part000.headers r options)
                   (opt_body options))) as [Hres Hlat].
    set (o := fetch_net w (sent m) _ _) in *.
    assert (Ho : o = served (latency o) rep).
    { destruct o as [lat res]. cbn [result latency] in *. subst res. reflexivity. }
    rewrite Ho, (reply_rejected _ _ _ _ (latency o) Hlat).
    eexists. split; [reflexivity|]. apply web_machine_once.
Qed.

Lemma reply_attemptAuth m :
  replies_at w (sent m) rep ->
  exists m1,
    AuthContext.attempt env w r endpoint options m
    = (Throw (new_Error (reply_message rep)), m1)
    /\ dispatched_once (AuthContext.url env endpoint) m m1.
Proof.
  intros [Hf Hn]. destruct (isNative w) eqn:Hnat.
  - rewrite attemptAuth_native by exact Hnat.
    destruct (Hbody eq_refl) as [payload ->]. cbv zeta. rewrite Hn.
    eexists. split.
    + unfold native_completionAuth. destruct Hrep as [->| ->]; reflexivity.
    + exact (requested_once env w
               (call_request (AuthContext.url env endpoint) (opt_method options)
                  (AuthContext.headers r options) payload) m).
  - rewrite attemptAuth_web by exact Hnat.
    destruct (Hf (AuthContext.url env endpoint)
                (call_init (opt_method options) (AuthContext.headers r options)
                   (opt_body options))) as [Hres Hlat].
    set (o := fetch_net w (sent m) _ _) in *.
    assert (Ho : o = served (latency o) rep).
    { destruct o as [lat res]. cbn [result latency] in *. subst res. reflexivity. }
    rewrite Ho, (reply_rejected _ _ _ _ (latency o) Hlat).
    eexists. split; [reflexivity|]. apply web_machine_once.
Qed.

Lemma reply_not_retryable :
  Part000.retryable (new_Error (reply_message rep)) = false
  /\ AuthContext.retryable (new_Error (reply_message rep)) = false.
Proof. destruct Hrep as [->| ->]; split; reflexivity. Qed.

End Replies.

(** X8.  A request that the server answers from its 404 handler or from its
    error handler is not repeated by the client, whatever the budget: the
    call throws "Route not found" or "Something went wrong!" after that one
    request and no wait.  The detail the error handler adds in development
    never reaches the thrown error. *)
Theorem server_errors_surface_unretried (env : Env) (w : World) (r : Render)
  (endpoint : string) (options : Options) (retries : Z) (m : Machine)
  (penv : Server.ProcessEnv) (err : Error) (rep : Server.Reply)
  (Hrep : rep = Server.not_found \/ rep = Server.error_handler penv err)
  (Hreply : replies_at w (sent m) rep)
  (Hbody : isNative w = true -> body_parses w options) :
  (let out := Part000.apiCall env w r endpoint options retries m in
   fst out = Throw (new_Error (reply_message rep))
   /\ requests (trace (snd out)) = requests (trace m) ++ [Part000.url r endpoint]
   /\ sleeps (trace (snd out)) = sleeps (trace m))
  /\
  (let out := AuthContext.apiCall env w r endpoint options retries m in
   fst out = Throw (new_Error (reply_message rep))
   /\ requests (trace (snd out)) = requests (trace m) ++ [AuthContext.url env endpoint]
   /\ sleeps (trace (snd out)) = sleeps (trace m)).
Proof.
  destruct (reply_not_retryable penv err rep Hrep) as [Hno000 HnoAuth].
  split; cbv zeta.
  - destruct (reply_attempt000 env w r endpoint options penv err rep Hrep Hbody m Hreply)
      as (m1 & Hatt & _ & Hr & Hz).
    rewrite (no_retry000 _ _ _ _ _ retries _ _ _ Hatt Hno000). auto.
  - destruct (reply_attemptAuth env w r endpoint options penv err rep Hrep Hbody m Hreply)
      as (m1 & Hatt & _ & Hr & Hz).
    rewrite (no_retryAuth _ _ _ _ _ retries _ _ _ Hatt HnoAuth). auto.
Qed.

Lemma server_errors_surface_unretried_witness :
  fst (AuthContext.apiCall default_env
         (answering true (Server.error_handler bare_server (new_Error "E11000 duplicate key")))
         (anonymous "") "/auth/register" (post "{}") 2 (initial default_env))
  = Throw (new_Error "Something went wrong!").
Proof.
  destruct (server_errors_surface_unretried default_env
              (answering true (Server.error_handler bare_server
                                 (new_Error "E11000 duplicate key")))
              (anonymous "") "/auth/register" (post "{}") 2 (initial default_env)
              bare_server (new_Error "E11000 duplicate key")
              (Server.error_handler bare_server (new_Error "E11000 duplicate key")))
    as (_ & H & _).
  - right. reflexivity.
  - split; intros; [split; [reflexivity | reflexivity] | reflexivity].
  - intros _. exists (Some (JObject [])). reflexivity.
  - exact H.
Defined.

(** X9.  The health route answers 200 whatever the state of the database
    connection, so the health check of the client makes production the
    active endpoint also while the server reports its database as
    disconnected. *)
Theorem health_ignores_database (env : Env) (w : World) (m : Machine)
  (penv : Server.ProcessEnv) (readyState : Z) (timestamp : string) (lat : Z)
  (Hlat : lat < 6000) :
  (fetch_net w (sent m) (PRODUCTION_API_URL env +:+ "/health") (health_init000 6000)
   = served lat (Server.health penv readyState timestamp) ->
   let out := Part000.checkApiHealth env w m in
   fst out = Return production
   /\ apiStatus (snd out) = production
   /\ currentApiUrl (snd out) = PRODUCTION_API_URL env)
  /\
  (fetch_net w (sent m) (PRODUCTION_API_URL env +:+ "/health") (health_init001 5000)
   = served lat (Server.health penv readyState timestamp) ->
   let out := Part001.checkApiHealth env w m in
   fst out = Return production
   /\ apiStatus (snd out) = production
   /\ currentApiUrl (snd out) = PRODUCTION_API_URL env).
Proof.
  split; intros Hserved; cbv zeta.
  - rewrite checkApiHealth000_eq, Hserved.
    unfold healthy000, served, responds_ok; cbn.
    destruct (Z.ltb_spec lat 6000); [|lia]. cbn. auto.
  - rewrite checkApiHealth001_eq, Hserved. cbn. auto.
Qed.

Lemma health_ignores_database_witness :
  fst (Part000.checkApiHealth default_env
         (answering false (Server.health bare_server 0 "2025-01-01T00:00:00.000Z"))
         (initial default_env))
  = Return production.
Proof.
  destruct (health_ignores_database default_env
              (answering false (Server.health bare_server 0 "2025-01-01T00:00:00.000Z"))
              (initial default_env) bare_server 0 "2025-01-01T00:00:00.000Z" 80)
    as ((H & _) & _).
  - reflexivity.
  - reflexivity.
  - exact H.
Defined.

(** * The flows of the provider *)

(** Runs the combinators of the session on the state at hand and splits on
    every completion, payload and test the flow looks at. *)
Ltac session_step :=
  cbv beta iota zeta delta
    [Session.try_finally Session.try_catchA Session.bindA Session.retA
     Session.throwA Session.lift Session.setUser Session.setToken
     Session.setLoading Session.setError Session.setItem Session.removeItem
     Session.read Provider.apiCall Provider000.apiCall Provider001.apiCall
     Provider.wake_up Provider000.wake_up];
  cbn [fst snd Session.machine Session.user Session.token Session.loading
       Session.error Session.yogaToken].

Ltac session_split :=
  match goal with
  | |- context [AuthContext.apiCall ?e ?w ?r ?p ?o ?n ?m] =>
      destruct (AuthContext.apiCall e w r p o n m) as [[?|?] ?] eqn:?
  | |- context [Part000.apiCall ?e ?w ?r ?p ?o ?n ?m] =>
      destruct (Part000.apiCall e w r p o n m) as [[?|?] ?] eqn:?
  | |- context [Part001.apiCall ?e ?w ?r ?p ?o ?m] =>
      destruct (Part001.apiCall e w r p o m) as [[?|?] ?] eqn:?
  | |- context [Part000.checkApiHealth ?e ?w ?m] =>
      destruct (Part000.checkApiHealth e w m) as [[?|?] ?] eqn:?
  | |- context [Part001.checkApiHealth ?e ?w ?m] =>
      destruct (Part001.checkApiHealth e w m) as [[?|?] ?] eqn:?
  | |- context [CapacitorHttp_request ?e ?w ?q ?m] =>
      destruct (CapacitorHttp_request e w q m) as [[?|?] ?] eqn:?
  | |- context [fetch ?e ?w ?u ?i ?m] =>
      destruct (fetch e w u i m) as [[?|?] ?] eqn:?
  | |- context [match ?d with JNull => _ | _ => _ end] =>
      is_var d; destruct d
  | |- context [if isNative ?w then _ else _] => destruct (isNative w) eqn:?
  | |- context [if truthy ?v then _ else _] => destruct (truthy v) eqn:?
  | |- context [if negb ?b then _ else _] => destruct b eqn:?; cbn [negb]
  end.

Ltac session := repeat (session_step; try session_split).

Section FlowFacts.
Context (env : Env) (w : World) (null_read : string -> string) (r : Render).

Lemma login_keeps_session body a :
  keeps_session_unless_succeeded a (Provider.login env w null_read r body a).
Proof.
  unfold keeps_session_unless_succeeded, same_session, Provider.login.
  session; auto.
Qed.

End FlowFacts.

Section FlowFrames.
Context (env : Env) (w : World) (null_read : string -> string) (r : Render).

Lemma register_keeps_session body a :
  keeps_session_unless_succeeded a (Provider.register env w null_read r body a).
Proof.
  unfold keeps_session_unless_succeeded, same_session, Provider.register.
  session; auto.
Qed.

Lemma updateProfile_keeps_session body a :
  keeps_session_unless_succeeded a (Provider.updateProfile env w null_read r body a).
Proof.
  unfold keeps_session_unless_succeeded, same_session, Provider.updateProfile.
  session; auto.
Qed.

Lemma login000_keeps_session body a :
  keeps_session_unless_succeeded a (Provider000.login env w null_read r body a).
Proof.
  unfold keeps_session_unless_succeeded, same_session, Provider000.login.
  session; auto.
Qed.

Lemma register000_keeps_session body a :
  keeps_session_unless_succeeded a (Provider000.register env w null_read r body a).
Proof.
  unfold keeps_session_unless_succeeded, same_session, Provider000.register.
  session; auto.
Qed.

Lemma login001_keeps_session body a :
  keeps_session_unless_succeeded a (Provider001.login env w null_read r body a).
Proof.
  unfold keeps_session_unless_succeeded, same_session, Provider001.login.
  session; auto.
Qed.






Lemma login_settles body a : settled (Provider.login env w null_read r body a).
Proof. unfold settled, Provider.login. session; eauto. Qed.

Lemma register_settles body a : settled (Provider.register env w null_read r body a).
Proof. unfold settled, Provider.register. session; eauto. Qed.

Lemma verifyToken_settles a : settled (Provider.verifyToken env w null_read r a).
Proof. unfold settled, Provider.verifyToken. session; eauto. Qed.

Lemma login000_settles body a : settled (Provider000.login env w null_read r body a).
Proof. unfold settled, Provider000.login. session; eauto. Qed.

Lemma register000_settles body a :
  settled (Provider000.register env w null_read r body a).
Proof. unfold settled, Provider000.register. session; eauto. Qed.

Lemma login001_settles body a : settled (Provider001.login env w null_read r body a).
Proof. unfold settled, Provider001.login. session; eauto. Qed.

Lemma register001_keeps_session body a :
  keeps_session_unless_succeeded a (Provider001.register env w null_read r body a).
Proof.
  unfold keeps_session_unless_succeeded, same_session, Provider001.register.
  session; auto.
Qed.

Lemma updateProfile001_keeps_session body a :
  keeps_session_unless_succeeded a (Provider001.updateProfile env w null_read r body a).
Proof.
  unfold keeps_session_unless_succeeded, same_session, Provider001.updateProfile.
  session; auto.
Qed.


Lemma register001_settles body a :
  settled (Provider001.register env w null_read r body a).
Proof. unfold settled, Provider001.register. session; eauto. Qed.

Lemma getters_return body a :
  returns (Provider.updateProfile env w null_read r body a)
  /\ returns (Provider.getProgress env w null_read r a)
  /\ returns (Provider.addSession env w null_read r body a)
  /\ returns (Provider.addAchievement env w null_read r body a)
  /\ returns (Provider.getStats env w null_read r a).
Proof.
  unfold returns, Provider.updateProfile, Provider.getProgress, Provider.addSession,
    Provider.addAchievement, Provider.getStats.
  repeat split; session; eauto.
Qed.

Lemma getters001_return body a :
  returns (Provider001.updateProfile env w null_read r body a)
  /\ returns (Provider001.getProgress env w null_read r a)
  /\ returns (Provider001.addSession env w null_read r body a)
  /\ returns (Provider001.addAchievement env w null_read r body a)
  /\ returns (Provider001.getStats env w null_read r a).
Proof.
  unfold returns, Provider001.updateProfile, Provider001.getProgress,
    Provider001.addSession, Provider001.addAchievement, Provider001.getStats.
  repeat split; session; eauto.
Qed.

End FlowFrames.

Lemma probe000_returns env w m :
  exists st m', Part000.checkApiHealth env w m = (Return st, m').
Proof.
  rewrite checkApiHealth000_eq.
  destruct (healthy000 6000 _); [|destruct (healthy000 3000 _)]; eauto.
Qed.

Lemma probe001_returns env w m :
  exists st m', Part001.checkApiHealth env w m = (Return st, m').
Proof.
  rewrite checkApiHealth001_eq.
  destruct (healthy001 _); [|destruct (healthy001 _)]; eauto.
Qed.

Lemma init_settles env w null_read r a :
  settled (Provider000.init env w null_read r a).
Proof.
  unfold settled, Provider000.init.
  destruct (probe000_returns env w (Session.machine a)) as (st & m' & Hprobe).
  session_step. rewrite Hprobe. session; eauto.
Qed.

Lemma initializeApp_settles env w null_read r a :
  settled (Provider001.initializeApp env w null_read r a).
Proof.
  unfold settled, Provider001.initializeApp.
  destruct (probe001_returns env w (Session.machine a)) as (st & m' & Hprobe).
  session_step. rewrite Hprobe. session; eauto.
Qed.

(** X10.  No flow of the provider throws to the component that calls it:
    [login] and [register] of the three versions and the verification of
    the token at start return whatever the network and the server do, with
    [loading] off; [updateProfile], [getProgress], [addSession],
    [addAchievement] and [getStats] of AuthContext.js and of part_001
    return too. *)
Theorem flows_never_throw (env : Env) (w : World) (null_read : string -> string)
  (r : Render) (body : string) (a : Session.State) :
  (settled (Provider.login env w null_read r body a)
   /\ settled (Provider.register env w null_read r body a)
   /\ settled (Provider.verifyToken env w null_read r a))
  /\ (settled (Provider000.init env w null_read r a)
      /\ settled (Provider000.login env w null_read r body a)
      /\ settled (Provider000.register env w null_read r body a))
  /\ (settled (Provider001.initializeApp env w null_read r a)
      /\ settled (Provider001.login env w null_read r body a)
      /\ settled (Provider001.register env w null_read r body a))
  /\ (returns (Provider.updateProfile env w null_read r body a)
      /\ returns (Provider.getProgress env w null_read r a)
      /\ returns (Provider.addSession env w null_read r body a)
      /\ returns (Provider.addAchievement env w null_read r body a)
      /\ returns (Provider.getStats env w null_read r a))
  /\ (returns (Provider001.updateProfile env w null_read r body a)
      /\ returns (Provider001.getProgress env w null_read r a)
      /\ returns (Provider001.addSession env w null_read r body a)
      /\ returns (Provider001.addAchievement env w null_read r body a)
      /\ returns (Provider001.getStats env w null_read r a)).
Proof.
  split; [split; [apply login_settles|];
          split; [apply register_settles | apply verifyToken_settles]|].
  split; [split; [apply init_settles|];
          split; [apply login000_settles | apply register000_settles]|].
  split; [split; [apply initializeApp_settles|];
          split; [apply login001_settles | apply register001_settles]|].
  split; [apply getters_return | apply getters001_return].
Qed.

(** X11.  A login, a registration or a profile update that does not end in
    [{ success: true }] changes neither the user nor the token nor the
    stored token: a failed attempt never signs the user out and never
    leaves half a session behind. *)
Theorem failed_attempts_keep_session (env : Env) (w : World)
  (null_read : string -> string) (r : Render) (body : string) (a : Session.State) :
  (keeps_session_unless_succeeded a (Provider.login env w null_read r body a)
   /\ keeps_session_unless_succeeded a (Provider.register env w null_read r body a)
   /\ keeps_session_unless_succeeded a
        (Provider.updateProfile env w null_read r body a))
  /\ (keeps_session_unless_succeeded a (Provider000.login env w null_read r body a)
      /\ keeps_session_unless_succeeded a
           (Provider000.register env w null_read r body a))
  /\ (keeps_session_unless_succeeded a (Provider001.login env w null_read r body a)
      /\ keeps_session_unless_succeeded a
           (Provider001.register env w null_read r body a)
      /\ keeps_session_unless_succeeded a
           (Provider001.updateProfile env w null_read r body a)).
Proof.
  split; [split; [apply login_keeps_session|];
          split; [apply register_keeps_session | apply updateProfile_keeps_session]|].
  split; [split; [apply login000_keeps_session | apply register000_keeps_session]|].
  split; [apply login001_keeps_session|].
  split; [apply register001_keeps_session | apply updateProfile001_keeps_session].
Qed.




(** * The verification of the token at start *)

(** Closes the cases of a flow on the payload's [success]. *)
Ltac decide_success :=
  cbn [field] in *;
  try match goal with
      | H : truthy None = true |- _ => discriminate H
      end;
  try congruence; repeat split; auto.

(** X13.  At start the token of the render is verified with one call to
    /auth/verify-token, and its completion alone decides the session: a
    payload whose [success] is truthy signs the user in as [payload.user]
    and keeps the token; any other payload (also [null], and a value that
    is no object) and any error of the call remove the token from the state
    and from the storage.  Without a token no call is made.  In every case
    [loading] ends off and the message is untouched.  In part_000 and
    part_001 the call starts from the machine the health check left. *)
Theorem verification_decides_session (env : Env) (w : World)
  (null_read : string -> string) (r : Render) (a : Session.State) :
  (let a' := snd (Provider.verifyToken env w null_read r a) in
   if truthy_string (token r)
   then verified a
          (AuthContext.apiCall env w r "/auth/verify-token"
             (with_method "POST" None) 2 (Session.machine a)) a'
   else skipped a (Session.machine a) a')
  /\ (let a' := snd (Provider000.init env w null_read r a) in
      let checked := snd (Part000.checkApiHealth env w (Session.machine a)) in
      if truthy_string (token r)
      then verified a
             (Part000.apiCall env w r "/auth/verify-token"
                (with_method "POST" None) 2 checked) a'
      else skipped a checked a')
  /\ (let a' := snd (Provider001.initializeApp env w null_read r a) in
      let checked := snd (Part001.checkApiHealth env w (Session.machine a)) in
      if truthy_string (token r)
      then verified a
             (Part001.apiCall env w r "/auth/verify-token"
                (with_method "POST" None) checked) a'
      else skipped a checked a').
Proof.
  split; [|split]; cbv zeta.
  - unfold Provider.verifyToken, render_token, verified, skipped, signed_in, signed_out.
    destruct (truthy_string (token r)); cbn [negb]; [|reflexivity].
    session; decide_success.
  - unfold Provider000.init, render_token, verified, skipped, signed_in, signed_out.
    destruct (probe000_returns env w (Session.machine a)) as (st & mh & Hprobe).
    session_step. rewrite Hprobe. cbn [snd].
    destruct (truthy_string (token r)); cbn [negb]; [|reflexivity].
    session; decide_success.
  - unfold Provider001.initializeApp, render_token, verified, skipped, signed_in, signed_out.
    destruct (probe001_returns env w (Session.machine a)) as (st & mh & Hprobe).
    session_step. rewrite Hprobe. cbn [snd].
    destruct (truthy_string (token r)); cbn [negb]; [|reflexivity].
    session; decide_success.
Qed.

(** * Calls that are never answered *)

Section Failing.
Context (env : Env) (w : World) (r : Render) (endpoint : string) (options : Options).
Context (Q : Error -> Prop).

(** A call whose every attempt throws sends one request more than it
    waits; it stops before the budget is used only on an error that the
    retry test refuses. *)
Lemma failing000_at :
  (forall m, exists e m1,
      Part000.attempt env w r endpoint options m = (Throw e, m1)
      /\ Q e /\ dispatched_once (Part000.url r endpoint) m m1) ->
  forall retries m, 0 <= retries ->
    let out := Part000.apiCall env w r endpoint options retries m in
    exists e k,
      fst out = Throw e /\ Q e /\ (k <= Z.to_nat retries)%nat
      /\ failed_after (Part000.url r endpoint) k m (snd out)
      /\ (Part000.retryable e = true -> k = Z.to_nat retries)
      /\ ((forall e', Q e' -> Part000.retryable e' = false) -> k = 0%nat).
Proof.
  intros Hfail.
  apply (retry_induction (fun retries m => 0 <= retries -> _)).
  intros retries m IH Hge. cbv zeta. rewrite apiCall000_unfold.
  destruct (Hfail m) as (e & m1 & -> & HQ & Hs & Hr & Hz).
  destruct ((0 <? retries) && Part000.retryable e) eqn:Hretry.
  - apply andb_true_iff in Hretry as [Hpos He]. apply Z.ltb_lt in Hpos.
    destruct (sleep_once env w 2000 m1) as (Hs' & Hr' & Hz').
    destruct (IH Hpos (snd (sleep env w 2000 m1)) ltac:(lia))
      as (e' & k & Hthrow & HQ' & Hk & (Hreq & Hsl) & Hall & Hnone).
    exists e', (S k). split; [exact Hthrow|]. split; [exact HQ'|].
    split; [lia|]. split; [|split].
    + unfold failed_after. rewrite Hreq, Hsl, Hr', Hz', Hr, Hz.
      cbn [repeat]. rewrite <- !app_assoc. cbn [app]. split; reflexivity.
    + intros He'. rewrite (Hall He'). lia.
    + intros Hno. rewrite (Hno e HQ) in He. discriminate He.
  - exists e, 0%nat. cbn [fst snd]. split; [reflexivity|]. split; [exact HQ|].
    split; [lia|]. split; [|split].
    + unfold failed_after. cbn [repeat]. rewrite Hr, Hz, app_nil_r. auto.
    + intros He. rewrite He, andb_true_r in Hretry.
      apply Z.ltb_ge in Hretry. lia.
    + reflexivity.
Qed.

Lemma failingAuth_at :
  (forall m, exists e m1,
      AuthContext.attempt env w r endpoint options m = (Throw e, m1)
      /\ Q e /\ dispatched_once (AuthContext.url env endpoint) m m1) ->
  forall retries m, 0 <= retries ->
    let out := AuthContext.apiCall env w r endpoint options retries m in
    exists e k,
      fst out = Throw e /\ Q e /\ (k <= Z.to_nat retries)%nat
      /\ failed_after (AuthContext.url env endpoint) k m (snd out)
      /\ (AuthContext.retryable e = true -> k = Z.to_nat retries)
      /\ ((forall e', Q e' -> AuthContext.retryable e' = false) -> k = 0%nat).
Proof.
  intros Hfail.
  apply (retry_induction (fun retries m => 0 <= retries -> _)).
  intros retries m IH Hge. cbv zeta. rewrite apiCallAuth_unfold.
  destruct (Hfail m) as (e & m1 & -> & HQ & Hs & Hr & Hz).
  destruct ((0 <? retries) && AuthContext.retryable e) eqn:Hretry.
  - apply andb_true_iff in Hretry as [Hpos He]. apply Z.ltb_lt in Hpos.
    destruct (sleep_once env w 2000 m1) as (Hs' & Hr' & Hz').
    destruct (IH Hpos (snd (sleep env w 2000 m1)) ltac:(lia))
      as (e' & k & Hthrow & HQ' & Hk & (Hreq & Hsl) & Hall & Hnone).
    exists e', (S k). split; [exact Hthrow|]. split; [exact HQ'|].
    split; [lia|]. split; [|split].
    + unfold failed_after. rewrite Hreq, Hsl, Hr', Hz', Hr, Hz.
      cbn [repeat]. rewrite <- !app_assoc. cbn [app]. split; reflexivity.
    + intros He'. rewrite (Hall He'). lia.
    + intros Hno. rewrite (Hno e HQ) in He. discriminate He.
  - exists e, 0%nat. cbn [fst snd]. split; [reflexivity|]. split; [exact HQ|].
    split; [lia|]. split; [|split].
    + unfold failed_after. cbn [repeat]. rewrite Hr, Hz, app_nil_r. auto.
    + intros He. rewrite He, andb_true_r in Hretry.
      apply Z.ltb_ge in Hretry. lia.
    + reflexivity.
Qed.

Context (Hbody : isNative w = true -> body_parses w options).

Lemma attempt000_unanswered m :
  unanswered_at w (sent m) ->
  exists e m1,
    Part000.attempt env w r endpoint options m = (Throw e, m1)
    /\ True /\ dispatched_once (Part000.url r endpoint) m m1.
Proof.
  intros [Hf Hn]. destruct (isNative w) eqn:Hnat.
  - rewrite attempt000_native by exact Hnat.
    destruct (Hbody eq_refl) as [payload ->]. cbv zeta.
    specialize (Hn (call_request (Part000.url r endpoint) (opt_method options)
                      (Part000.headers r options) payload)).
    destruct (native_net _ _ _) as [e|res]; [|discriminate Hn].
    exists e. eexists. split; [reflexivity|]. split; [exact I|].
    exact (requested_once env w
             (call_request (Part000.url r endpoint) (opt_method options)
                (Part000.headers r options) payload) m).
  - rewrite attempt000_web by exact Hnat.
    destruct (web_fails (fun _ => true) w "Request failed" (opt_method options)
                (Part000.headers r options) (opt_body options) _ eq_refl
                (Hf (Part000.url r endpoint)
                   (call_init (opt_method options) (Part000.headers r options)
                      (opt_body options)))) as (e & -> & _).
    exists e. eexists. split; [reflexivity|]. split; [exact I|].
    apply web_machine_once.
Qed.

Lemma attemptAuth_unanswered m :
  unanswered_at w (sent m) ->
  exists e m1,
    AuthContext.attempt env w r endpoint options m = (Throw e, m1)
    /\ True /\ dispatched_once (AuthContext.url env endpoint) m m1.
Proof.
  intros [Hf Hn]. destruct (isNative w) eqn:Hnat.
  - rewrite attemptAuth_native by exact Hnat.
    destruct (Hbody eq_refl) as [payload ->]. cbv zeta.
    specialize (Hn (call_request (AuthContext.url env endpoint) (opt_method options)
                      (AuthContext.headers r options) payload)).
    destruct (native_net _ _ _) as [e|res]; [|discriminate Hn].
    exists e. eexists. split; [reflexivity|]. split; [exact I|].
    exact (requested_once env w
             (call_request (AuthContext.url env endpoint) (opt_method options)
                (AuthContext.headers r options) payload) m).
  - rewrite attemptAuth_web by exact Hnat.
    destruct (web_fails (fun _ => true) w "Something went wrong" (opt_method options)
                (AuthContext.headers r options) (opt_body options) _ eq_refl
                (Hf (AuthContext.url env endpoint)
                   (call_init (opt_method options) (AuthContext.headers r options)
                      (opt_body options)))) as (e & -> & _).
    exists e. eexists. split; [reflexivity|]. split; [exact I|].
    apply web_machine_once.
Qed.

Lemma web_unmatched retryable fallback method h body o :
  unmatched_fetch retryable o = true ->
  exists e, web_completion w fallback (call_init method h body) o = Throw e
            /\ retryable e = false.
Proof.
  unfold unmatched_fetch. intros [Hlat Hres]%andb_true_iff.
  apply Z.ltb_lt in Hlat.
  unfold web_completion, settle, call_init; cbn [init_signal].
  destruct (Z.leb_spec 60000 (latency o)); [lia|].
  destruct (result o) as [e|st b]; [|discriminate Hres].
  exists e. split; [reflexivity|]. destruct (retryable e); [discriminate | reflexivity].
Qed.

Lemma attempt000_unmatched m :
  fails_unmatched_at Part000.retryable w (sent m) ->
  exists e m1,
    Part000.attempt env w r endpoint options m = (Throw e, m1)
    /\ Part000.retryable e = false
    /\ dispatched_once (Part000.url r endpoint) m m1.
Proof.
  intros [Hf Hn]. destruct (isNative w) eqn:Hnat.
  - rewrite attempt000_native by exact Hnat.
    destruct (Hbody eq_refl) as [payload ->]. cbv zeta.
    specialize (Hn (call_request (Part000.url r endpoint) (opt_method options)
                      (Part000.headers r options) payload)).
    destruct (native_net _ _ _) as [e|res]; [|discriminate Hn].
    exists e. eexists. split; [reflexivity|].
    split; [cbn [unmatched_native] in Hn; destruct (Part000.retryable e);
            [discriminate | reflexivity]|].
    exact (requested_once env w
             (call_request (Part000.url r endpoint) (opt_method options)
                (Part000.headers r options) payload) m).
  - rewrite attempt000_web by exact Hnat.
    destruct (web_unmatched Part000.retryable "Request failed" (opt_method options)
                (Part000.headers r options) (opt_body options) _
                (Hf (Part000.url r endpoint)
                   (call_init (opt_method options) (Part000.headers r options)
                      (opt_body options)))) as (e & -> & He).
    exists e. eexists. split; [reflexivity|]. split; [exact He|].
    apply web_machine_once.
Qed.

Lemma attemptAuth_unmatched m :
  fails_unmatched_at AuthContext.retryable w (sent m) ->
  exists e m1,
    AuthContext.attempt env w r endpoint options m = (Throw e, m1)
    /\ AuthContext.retryable e = false
    /\ dispatched_once (AuthContext.url env endpoint) m m1.
Proof.
  intros [Hf Hn]. destruct (isNative w) eqn:Hnat.
  - rewrite attemptAuth_native by exact Hnat.
    destruct (Hbody eq_refl) as [payload ->]. cbv zeta.
    specialize (Hn (call_request (AuthContext.url env endpoint) (opt_method options)
                      (AuthContext.headers r options) payload)).
    destruct (native_net _ _ _) as [e|res]; [|discriminate Hn].
    exists e. eexists. split; [reflexivity|].
    split; [cbn [unmatched_native] in Hn; destruct (AuthContext.retryable e);
            [discriminate | reflexivity]|].
    exact (requested_once env w
             (call_request (AuthContext.url env endpoint) (opt_method options)
                (AuthContext.headers r options) payload) m).
  - rewrite attemptAuth_web by exact Hnat.
    destruct (web_unmatched AuthContext.retryable "Something went wrong"
                (opt_method options) (AuthContext.headers r options)
                (opt_body options) _
                (Hf (AuthContext.url env endpoint)
                   (call_init (opt_method options) (AuthContext.headers r options)
                      (opt_body options)))) as (e & -> & He).
    exists e. eexists. split; [reflexivity|]. split; [exact He|].
    apply web_machine_once.
Qed.

(** A call whose first attempt fails with an error that the retry test
    refuses throws it after one request and no wait. *)
Lemma unmatched000 retries m :
  fails_unmatched_at Part000.retryable w (sent m) ->
  let out := Part000.apiCall env w r endpoint options retries m in
  (exists e, fst out = Throw e /\ Part000.retryable e = false)
  /\ failed_after (Part000.url r endpoint) 0 m (snd out).
Proof.
  intros Hfail. cbv zeta.
  destruct (attempt000_unmatched m Hfail) as (e & m1 & Hatt & He & _ & Hr & Hz).
  rewrite (no_retry000 _ _ _ _ _ retries _ _ _ Hatt He). cbn [fst snd].
  split; [eauto|]. unfold failed_after. cbn [repeat]. rewrite Hr, Hz, app_nil_r. auto.
Qed.

Lemma unmatchedAuth retries m :
  fails_unmatched_at AuthContext.retryable w (sent m) ->
  let out := AuthContext.apiCall env w r endpoint options retries m in
  (exists e, fst out = Throw e /\ AuthContext.retryable e = false)
  /\ failed_after (AuthContext.url env endpoint) 0 m (snd out).
Proof.
  intros Hfail. cbv zeta.
  destruct (attemptAuth_unmatched m Hfail) as (e & m1 & Hatt & He & _ & Hr & Hz).
  rewrite (no_retryAuth _ _ _ _ _ retries _ _ _ Hatt He). cbn [fst snd].
  split; [eauto|]. unfold failed_after. cbn [repeat]. rewrite Hr, Hz, app_nil_r. auto.
Qed.

End Failing.

(** * Starting without a network *)

(** X14.  In AuthContext.js, a start with a stored token while no request
    is answered (every fetch is rejected or runs into the abort timer,
    every native request is rejected, with any error) ends the session:
    the verification is sent to /auth/verify-token between one and three
    times, and then the token is removed from the state and from the
    storage, although no server ever refused it.  It is sent three times,
    with two waits of 2000 ms, when every failure is one that the test of
    the [catch] block accepts; it is sent once, and nothing is waited for,
    when the first failure is one that the test refuses (as "Load failed"
    is). *)
Theorem offline_start_signs_out (env : Env) (w : World)
  (null_read : string -> string) (r : Render) (a : Session.State)
  (Htoken : truthy_string (token r) = true)
  (Hoffline : forall n, unanswered_at w n) :
  let out := Provider.verifyToken env w null_read r a in
  let m := Session.machine a in
  let m' := Session.machine (snd out) in
  let url := AuthContext.API_BASE_URL env +:+ "/auth/verify-token" in
  fst out = Return tt
  /\ signed_out a (snd out)
  /\ Session.loading (snd out) = false
  /\ (exists k, (k <= 2)%nat /\ failed_after url k m m')
  /\ ((forall n, fails_at AuthContext.retryable w n) -> failed_after url 2 m m')
  /\ (fails_unmatched_at AuthContext.retryable w (sent m) -> failed_after url 0 m m').
Proof.
  cbv zeta. unfold Provider.verifyToken, render_token. rewrite Htoken. cbn [negb].
  session_step.
  assert (Hbody : isNative w = true -> body_parses w (with_method "POST" None))
    by (intros _; exists None; reflexivity).
  destruct (failingAuth_at env w r "/auth/verify-token" (with_method "POST" None)
              (fun _ => True)
              (fun m => attemptAuth_unanswered env w r "/auth/verify-token"
                          (with_method "POST" None) Hbody m (Hoffline _))
              2 (Session.machine a) ltac:(lia))
    as (e & k & He & _ & Hk & Hafter & _).
  pose proof (fun Hall => exhaustAuth env w r "/auth/verify-token"
                            (with_method "POST" None) Hbody Hall 2
                            (Session.machine a) ltac:(lia)) as Hthree.
  pose proof (unmatchedAuth env w r "/auth/verify-token" (with_method "POST" None)
                Hbody 2 (Session.machine a)) as Hone.
  cbv zeta in Hthree, Hone.
  destruct (AuthContext.apiCall env w r "/auth/verify-token"
              (with_method "POST" None) 2 (Session.machine a)) as [c m'].
  cbn [fst snd] in *. subst c.
  session_step. unfold signed_out. cbn [Session.user Session.token Session.yogaToken].
  split; [reflexivity|]. split; [auto|]. split; [reflexivity|].
  split; [exists k; split; [exact Hk | exact Hafter]|]. split.
  - intros Hall. destruct (Hthree Hall) as (_ & _ & Hreq & Hsl).
    split; assumption.
  - intros Hfirst. apply Hone, Hfirst.
Qed.

Lemma offline_start_signs_out_witness :
  (let out := Provider.verifyToken default_env unreachable v8_null_read
                {| token := Some "eyJhbGciOi"; url_of_render := "" |}
                (Session.start default_env (Some "eyJhbGciOi")) in
   Session.yogaToken (snd out) = None
   /\ failed_after "http://localhost:5000/api/auth/verify-token" 2
        (initial default_env) (Session.machine (snd out)))
  /\
  (let out := Provider.verifyToken default_env (plainly_offline false) v8_null_read
                {| token := Some "eyJhbGciOi"; url_of_render := "" |}
                (Session.start default_env (Some "eyJhbGciOi")) in
   Session.yogaToken (snd out) = None
   /\ failed_after "http://localhost:5000/api/auth/verify-token" 0
        (initial default_env) (Session.machine (snd out))).
Proof.
  split; cbv zeta.
  - destruct (offline_start_signs_out default_env unreachable v8_null_read
                {| token := Some "eyJhbGciOi"; url_of_render := "" |}
                (Session.start default_env (Some "eyJhbGciOi")))
      as (_ & (_ & _ & Hstored) & _ & _ & Hthree & _).
    + reflexivity.
    + intros n. split; intros; reflexivity.
    + split; [exact Hstored|]. apply Hthree. intros n. split; intros; reflexivity.
  - destruct (offline_start_signs_out default_env (plainly_offline false) v8_null_read
                {| token := Some "eyJhbGciOi"; url_of_render := "" |}
                (Session.start default_env (Some "eyJhbGciOi")))
      as (_ & (_ & _ & Hstored) & _ & _ & _ & Hone).
    + reflexivity.
    + intros n. split; intros; reflexivity.
    + split; [exact Hstored|]. apply Hone. split; intros; reflexivity.
Defined.

(** * A production outage at start *)

Section ExhaustAt.
Context (env : Env) (w : World) (r : Render) (endpoint : string) (options : Options).
Context (Q : Error -> Prop).

Lemma exhaust000_at :
  (forall m, exists e m1,
      Part000.attempt env w r endpoint options m = (Throw e, m1)
      /\ Part000.retryable e = true /\ Q e
      /\ dispatched_once (Part000.url r endpoint) m m1) ->
  forall retries m, 0 <= retries ->
    let out := Part000.apiCall env w r endpoint options retries m in
    (exists e, fst out = Throw e /\ Q e)
    /\ sent (snd out) = (sent m + S (Z.to_nat retries))%nat
    /\ requests (trace (snd out))
       = requests (trace m) ++ repeat (Part000.url r endpoint) (S (Z.to_nat retries))
    /\ sleeps (trace (snd out)) = sleeps (trace m) ++ repeat 2000 (Z.to_nat retries).
Proof.
  intros Hfail.
  apply (retry_induction (fun retries m => 0 <= retries -> _)).
  intros retries m IH Hge. cbv zeta. rewrite apiCall000_unfold.
  destruct (Hfail m) as (e & m1 & -> & He & HQ & Hs & Hr & Hz).
  rewrite He, andb_true_r.
  destruct (Z.ltb_spec 0 retries) as [Hpos|Hzero].
  - destruct (sleep_once env w 2000 m1) as (Hs' & Hr' & Hz').
    destruct (IH Hpos (snd (sleep env w 2000 m1)) ltac:(lia))
      as (Hthrow & Hsent & Hreq & Hsl).
    replace (Z.to_nat retries) with (S (Z.to_nat (retries - 1))) by lia.
    split; [exact Hthrow|].
    rewrite Hsent, Hreq, Hsl, Hs', Hr', Hz', Hs, Hr, Hz.
    cbn [repeat]. rewrite <- !app_assoc. cbn [app].
    repeat split; try lia.
  - replace retries with 0 by lia. cbn [fst snd Z.to_nat repeat].
    rewrite Hs, Hr, Hz, app_nil_r. repeat split; eauto; lia.
Qed.

Lemma exhaustAuth_at :
  (forall m, exists e m1,
      AuthContext.attempt env w r endpoint options m = (Throw e, m1)
      /\ AuthContext.retryable e = true /\ Q e
      /\ dispatched_once (AuthContext.url env endpoint) m m1) ->
  forall retries m, 0 <= retries ->
    let out := AuthContext.apiCall env w r endpoint options retries m in
    (exists e, fst out = Throw e /\ Q e)
    /\ sent (snd out) = (sent m + S (Z.to_nat retries))%nat
    /\ requests (trace (snd out))
       = requests (trace m) ++ repeat (AuthContext.url env endpoint) (S (Z.to_nat retries))
    /\ sleeps (trace (snd out)) = sleeps (trace m) ++ repeat 2000 (Z.to_nat retries).
Proof.
  intros Hfail.
  apply (retry_induction (fun retries m => 0 <= retries -> _)).
  intros retries m IH Hge. cbv zeta. rewrite apiCallAuth_unfold.
  destruct (Hfail m) as (e & m1 & -> & He & HQ & Hs & Hr & Hz).
  rewrite He, andb_true_r.
  destruct (Z.ltb_spec 0 retries) as [Hpos|Hzero].
  - destruct (sleep_once env w 2000 m1) as (Hs' & Hr' & Hz').
    destruct (IH Hpos (snd (sleep env w 2000 m1)) ltac:(lia))
      as (Hthrow & Hsent & Hreq & Hsl).
    replace (Z.to_nat retries) with (S (Z.to_nat (retries - 1))) by lia.
    split; [exact Hthrow|].
    rewrite Hsent, Hreq, Hsl, Hs', Hr', Hz', Hs, Hr, Hz.
    cbn [repeat]. rewrite <- !app_assoc. cbn [app].
    repeat split; try lia.
  - replace retries with 0 by lia. cbn [fst snd Z.to_nat repeat].
    rewrite Hs, Hr, Hz, app_nil_r. repeat split; eauto; lia.
Qed.

End ExhaustAt.

(** With nothing else running, the steps of a call leave the live state of
    the component alone. *)
Lemma same_state_refl m : same_state m m.
Proof. split; reflexivity. Qed.

Lemma same_state_trans m1 m2 m3 :
  same_state m1 m2 -> same_state m2 m3 -> same_state m1 m3.
Proof. intros [H1 H2] [H3 H4]. split; congruence. Qed.

Lemma suspend_quiet env w m : same_state m (snd (suspend env (quiet w) m)).
Proof. split; reflexivity. Qed.

Lemma fetched_same env w url init m :
  same_state m (fetched env (quiet w) url init m).
Proof. split; apply fetched_quiet. Qed.

Lemma web_machine_same env w url init m :
  same_state m (web_machine env (quiet w) url init m).
Proof.
  unfold web_machine. destruct (settle _ _ _); [|apply fetched_same].
  eapply same_state_trans; [apply fetched_same | apply suspend_quiet].
Qed.

Lemma requested_same env w req m : same_state m (requested env (quiet w) req m).
Proof. split; reflexivity. Qed.

Lemma sleep_same env w ms m : same_state m (snd (sleep env (quiet w) ms m)).
Proof. split; reflexivity. Qed.

Lemma attempt000_same env w r endpoint options m :
  same_state m (snd (Part000.attempt env (quiet w) r endpoint options m)).
Proof.
  destruct (isNative (quiet w)) eqn:Hnat.
  - rewrite attempt000_native by exact Hnat.
    destruct (native_payload _ _); cbn [snd];
      [apply requested_same | apply same_state_refl].
  - rewrite attempt000_web by exact Hnat. apply web_machine_same.
Qed.

Lemma call000_same env w r endpoint options :
  forall retries m,
    same_state m (snd (Part000.apiCall env (quiet w) r endpoint options retries m)).
Proof.
  apply retry_induction. intros retries m IH. rewrite apiCall000_unfold.
  pose proof (attempt000_same env w r endpoint options m) as Hatt.
  destruct (Part000.attempt env (quiet w) r endpoint options m) as [[d|err] m1];
    cbn [snd] in *; [exact Hatt|].
  destruct (0 <? retries) eqn:Hpos; cbn [andb]; [|exact Hatt].
  destruct (Part000.retryable err); [|exact Hatt].
  eapply same_state_trans; [exact Hatt|].
  eapply same_state_trans; [apply sleep_same|].
  apply IH. apply Z.ltb_lt. exact Hpos.
Qed.

Lemma refused_attempt000 env w r endpoint options :
  isNative w = false ->
  (forall n init, exists e,
      result (fetch_net w n (Part000.url r endpoint) init) = Rejects e
      /\ Part000.retryable e = true) ->
  forall m, exists e m1,
    Part000.attempt env w r endpoint options m = (Throw e, m1)
    /\ Part000.retryable e = true /\ True
    /\ dispatched_once (Part000.url r endpoint) m m1.
Proof.
  intros Hweb Hrefused m. rewrite attempt000_web by exact Hweb.
  destruct (Hrefused (sent m)
              (call_init (opt_method options) (Part000.headers r options)
                 (opt_body options))) as (e0 & Hres & He0).
  destruct (web_fails Part000.retryable w "Request failed" (opt_method options)
              (Part000.headers r options) (opt_body options)
              (fetch_net w (sent m) (Part000.url r endpoint)
                 (call_init (opt_method options) (Part000.headers r options)
                    (opt_body options)))
              (abort_retryable000 w)) as (e & -> & He).
  { unfold transient_fetch. rewrite Hres, He0. apply orb_true_r. }
  exists e. eexists. split; [reflexivity|]. split; [exact He|]. split; [exact I|].
  apply web_machine_once.
Qed.


Lemma down_unhealthy env w n endpoint init ms :
  production_down env w ->
  healthy000 ms (fetch_net w n (PRODUCTION_API_URL env +:+ endpoint) init) = false.
Proof.
  intros [_ Hdown]. destruct (Hdown n endpoint init) as (e & Hres).
  unfold healthy000, responds_ok. rewrite Hres. apply andb_false_r.
Qed.

Section Stale.
Context (env : Env) (w : World) (r : Render) (endpoint : string) (options : Options).
Context (Hweb : isNative w = false).

Lemma down_attempt000 :
  (forall n init, exists e,
      result (fetch_net w n (Part000.url r endpoint) init) = Rejects e) ->
  forall m, exists e m1,
    Part000.attempt env w r endpoint options m = (Throw e, m1)
    /\ True /\ dispatched_once (Part000.url r endpoint) m m1.
Proof.
  intros Hdown m. rewrite attempt000_web by exact Hweb.
  destruct (Hdown (sent m)
              (call_init (opt_method options) (Part000.headers r options)
                 (opt_body options))) as (e0 & Hres).
  destruct (web_fails (fun _ => true) w "Request failed" (opt_method options)
              (Part000.headers r options) (opt_body options)
              (fetch_net w (sent m) (Part000.url r endpoint)
                 (call_init (opt_method options) (Part000.headers r options)
                    (opt_body options)))
              eq_refl) as (e & -> & _).
  { unfold transient_fetch. rewrite Hres. apply orb_true_r. }
  exists e. eexists. split; [reflexivity|]. split; [exact I|].
  apply web_machine_once.
Qed.

Lemma plain_call000 retries m :
  (forall n init,
      unmatched_fetch Part000.retryable
        (fetch_net w n (Part000.url r endpoint) init) = true) ->
  failed_after (Part000.url r endpoint) 0 m
    (snd (Part000.apiCall env w r endpoint options retries m)).
Proof.
  intros Hplain.
  pose proof (attempt000_web env w r endpoint options m Hweb) as Hatt.
  destruct (web_unmatched w Part000.retryable "Request failed" (opt_method options)
              (Part000.headers r options) (opt_body options) _
              (Hplain (sent m)
                 (call_init (opt_method options) (Part000.headers r options)
                    (opt_body options)))) as (e & He & Hno).
  rewrite He in Hatt.
  rewrite (no_retry000 _ _ _ _ _ retries _ _ _ Hatt Hno). cbn [snd].
  destruct (web_machine_once env w (Part000.url r endpoint)
              (call_init (opt_method options) (Part000.headers r options)
                 (opt_body options)) m) as (_ & Hr & Hz).
  unfold failed_after. cbn [repeat]. rewrite Hr, Hz, app_nil_r. auto.
Qed.

End Stale.

(** The machine after the health check found production down and the
    local backend up. *)
Lemma stale_run (env : Env) (w : World) (null_read : string -> string)
  (tok : string) (a : Session.State) :
  tok <> "" -> production_down env w -> local_healthy env w ->
  exists mh,
    requests (trace mh)
    = requests (trace (Session.machine a))
      ++ [PRODUCTION_API_URL env +:+ "/health"; LOCAL_API_URL env +:+ "/health"]
    /\ apiStatus mh = local
    /\ currentApiUrl mh = LOCAL_API_URL env
    /\ Provider000.init env (quiet w) null_read (first_render env tok) a
       = (Return tt,
          {| Session.machine :=
               snd (Part000.apiCall env (quiet w) (first_render env tok)
                      "/auth/verify-token" (with_method "POST" None) 2 mh);
             Session.user := Session.user a;
             Session.token := Some JNull;
             Session.loading := false;
             Session.error := Session.error a;
             Session.yogaToken := None |}).
Proof.
  intros Htoken Hdown Hlocal.
  unfold Provider000.init, render_token, first_render. cbn [token].
  assert (Htruthy : truthy_string (Some tok) = true).
  { destruct tok; [congruence | reflexivity]. }
  rewrite Htruthy. cbn [negb]. session_step.
  rewrite checkApiHealth000_eq.
  change (fetch_net (quiet w)) with (fetch_net w).
  rewrite (down_unhealthy env w _ "/health" _ 6000 Hdown).
  rewrite Hlocal.
  set (m1 := fetched env (quiet w) _ _ (write_status checking (Session.machine a))).
  set (m2 := fetched env (quiet w) _ _ m1).
  set (mh := write_status local (write_url (LOCAL_API_URL env) m2)).
  exists mh. split; [|split; [reflexivity|split; [reflexivity|]]].
  { subst mh m2 m1. unfold write_status, write_url; cbn [trace].
    rewrite !requests_app, !fetched_requests. cbn [trace].
    rewrite !requests_app. cbn [requests]. rewrite !app_nil_r, <- app_assoc.
    reflexivity. }
  destruct Hdown as [Hweb Hrejected].
  set (r0 := {| token := Some tok; url_of_render := PRODUCTION_API_URL env |}).
  destruct (failing000_at env (quiet w) r0 "/auth/verify-token"
              (with_method "POST" None) (fun _ => True)
              (down_attempt000 env (quiet w) r0 "/auth/verify-token"
                 (with_method "POST" None) Hweb
                 (fun n init => Hrejected n "/auth/verify-token" init))
              2 mh ltac:(lia))
    as (e & k & He & _).
  session_step.
  destruct (Part000.apiCall env (quiet w) r0 "/auth/verify-token"
              (with_method "POST" None) 2 mh) as [c m'].
  cbn [fst snd] in *. subst c. session_step. reflexivity.
Qed.

(** X15.  In part_000, when every request to production is rejected (with
    any error) and the local backend is up at start, the health check makes
    the local backend the active endpoint, but the verification that
    follows is the callback of the render, which holds production: its
    requests, between one and three, all go to production, none to the
    local backend, and this run of [init] removes the stored token although
    a backend is up.  The verification is sent three times when every
    rejection is one that the test of the [catch] block accepts, and once
    when none is (as "Load failed" is not). *)
Theorem stale_endpoint_signs_out (env : Env) (w : World)
  (null_read : string -> string) (tok : string) (a : Session.State)
  (Htoken : tok <> "")
  (Hdown : production_down env w)
  (Hlocal : local_healthy env w) :
  let out := Provider000.init env (quiet w) null_read (first_render env tok) a in
  let m' := Session.machine (snd out) in
  let checked :=
    requests (trace (Session.machine a))
    ++ [PRODUCTION_API_URL env +:+ "/health"; LOCAL_API_URL env +:+ "/health"] in
  let url := PRODUCTION_API_URL env +:+ "/auth/verify-token" in
  fst out = Return tt
  /\ apiStatus m' = local
  /\ currentApiUrl m' = LOCAL_API_URL env
  /\ signed_out a (snd out)
  /\ Session.loading (snd out) = false
  /\ (exists k, (k <= 2)%nat /\ requests (trace m') = checked ++ repeat url (S k))
  /\ (production_unreachable env w -> requests (trace m') = checked ++ repeat url 3)
  /\ (production_down_plainly env w -> requests (trace m') = checked ++ [url]).
Proof.
  cbv zeta.
  destruct (stale_run env w null_read tok a Htoken Hdown Hlocal)
    as (mh & Hreq & Hstatus & Hactive & ->).
  cbn [fst snd Session.machine Session.loading]. unfold signed_out.
  cbn [Session.user Session.token Session.yogaToken].
  destruct Hdown as [Hweb Hrejected].
  set (r0 := first_render env tok).
  pose proof (call000_same env w r0 "/auth/verify-token" (with_method "POST" None)
                2 mh) as [Hst Hurl].
  rewrite Hst, Hurl, Hstatus, Hactive.
  split; [reflexivity|]. split; [reflexivity|]. split; [reflexivity|].
  split; [auto|]. split; [reflexivity|]. split; [|split].
  - destruct (failing000_at env (quiet w) r0 "/auth/verify-token"
                (with_method "POST" None) (fun _ => True)
                (down_attempt000 env (quiet w) r0 "/auth/verify-token"
                   (with_method "POST" None) Hweb
                   (fun n init => Hrejected n "/auth/verify-token" init))
                2 mh ltac:(lia))
      as (e & k & _ & _ & Hk & (Hreq' & _) & _).
    exists k. split; [exact Hk|]. rewrite Hreq', Hreq. reflexivity.
  - intros [_ Hrefused].
    destruct (exhaust000_at env (quiet w) r0 "/auth/verify-token"
                (with_method "POST" None) (fun _ => True)
                (refused_attempt000 env (quiet w) r0 "/auth/verify-token"
                   (with_method "POST" None) Hweb
                   (fun n init => Hrefused n "/auth/verify-token" init))
                2 mh ltac:(lia)) as (_ & _ & Hreq' & _).
    rewrite Hreq', Hreq. reflexivity.
  - intros Hplain.
    destruct (plain_call000 env (quiet w) r0 "/auth/verify-token"
                (with_method "POST" None) Hweb 2 mh
                (fun n init => Hplain n "/auth/verify-token" init)) as [Hreq' _].
    rewrite Hreq', Hreq. reflexivity.
Qed.

Lemma stale_endpoint_signs_out_witness :
  (let out := Provider000.init default_env (outage accepted) v8_null_read
                (first_render default_env "eyJhbGciOi")
                (Session.start default_env (Some "eyJhbGciOi")) in
   currentApiUrl (Session.machine (snd out)) = "http://localhost:5000/api"
   /\ Session.yogaToken (snd out) = None
   /\ length (requests (trace (Session.machine (snd out)))) = 5%nat)
  /\
  (let out := Provider000.init default_env (plain_outage accepted) v8_null_read
                (first_render default_env "eyJhbGciOi")
                (Session.start default_env (Some "eyJhbGciOi")) in
   currentApiUrl (Session.machine (snd out)) = "http://localhost:5000/api"
   /\ Session.yogaToken (snd out) = None
   /\ length (requests (trace (Session.machine (snd out)))) = 3%nat).
Proof.
  split; cbv zeta.
  - destruct (stale_endpoint_signs_out default_env (outage accepted) v8_null_read
                "eyJhbGciOi" (Session.start default_env (Some "eyJhbGciOi")))
      as (_ & _ & Hurl & (_ & _ & Hstored) & _ & _ & Hthree & _).
    + discriminate.
    + split; [reflexivity|]. intros n endpoint init.
      exists (mkError "TypeError" "Failed to fetch"). reflexivity.
    + intros n init. reflexivity.
    + split; [exact Hurl|]. split; [exact Hstored|].
      etransitivity; [apply f_equal, Hthree | reflexivity].
      split; [reflexivity|]. intros n endpoint init.
      exists (mkError "TypeError" "Failed to fetch"). split; reflexivity.
  - destruct (stale_endpoint_signs_out default_env (plain_outage accepted) v8_null_read
                "eyJhbGciOi" (Session.start default_env (Some "eyJhbGciOi")))
      as (_ & _ & Hurl & (_ & _ & Hstored) & _ & _ & _ & Hone).
    + discriminate.
    + split; [reflexivity|]. intros n endpoint init.
      exists (mkError "TypeError" "Load failed"). reflexivity.
    + intros n init. reflexivity.
    + split; [exact Hurl|]. split; [exact Hstored|].
      etransitivity; [apply f_equal, Hone | reflexivity].
      intros n endpoint init. reflexivity.
Defined.





(** * What a login shows when the server cannot be reached *)

Lemma includes_within (s p x y : string) :
  includes s p = true -> includes (x +:+ s +:+ y) p = true.
Proof.
  rewrite !includes_spec. intros (a & b & ->).
  exists (x +:+ a), (b +:+ y). rewrite !append_assoc. reflexivity.
Qed.

Lemma includes_at_end (s p x : string) :
  includes s p = true -> includes (x +:+ s) p = true.
Proof.
  rewrite !includes_spec. intros (a & b & ->).
  exists (x +:+ a), b. rewrite !append_assoc. reflexivity.
Qed.

(** The third test of [login] in AuthContext.js adds nothing to the
    first. *)
Lemma shown_by_login (msg : string) :
  includes msg "fetch" || includes msg "NetworkError" || includes msg "Failed to fetch"
  = includes msg "fetch" || includes msg "NetworkError".
Proof.
  destruct (includes msg "Failed to fetch") eqn:Hff.
  - rewrite (includes_longer msg "fetch" "Failed to " Hff). reflexivity.
  - apply orb_false_r.
Qed.

Section Rejected.
Context (env : Env) (w : World) (Hrejected : rejected_at_once w).
Context (r : Render) (endpoint : string) (options : Options).

Lemma rejected_fetch url init m :
  exists e, fetch env w url init m = (Throw e, fetched env w url init m).
Proof.
  rewrite fetch_eq. destruct Hrejected as [_ Hnet].
  destruct (Hnet (sent m) url init) as (_ & e & Hres).
  unfold settle. rewrite Hres.
  destruct (init_signal init) as [ms|]; [destruct (ms <=? _)|]; eauto.
Qed.

Lemma rejected_completion fallback init n url :
  init_signal init = None \/ init_signal init = Some 60000 ->
  exists e,
    web_completion w fallback init (fetch_net w n url init) = Throw e
    /\ network_error w e.
Proof.
  intros Hsig. destruct Hrejected as [_ Hnet].
  destruct (Hnet n url init) as (Hlat & e & Hres).
  exists e. split; [|exists n, url, init; exact Hres].
  unfold web_completion, settle. rewrite Hres.
  destruct Hsig as [-> | ->]; [reflexivity|].
  destruct (Z.leb_spec 60000 (latency (fetch_net w n url init))); [lia|reflexivity].
Qed.

Lemma rejected_attempt000 m :
  exists e m1,
    Part000.attempt env w r endpoint options m = (Throw e, m1)
    /\ network_error w e
    /\ dispatched_once (Part000.url r endpoint) m m1.
Proof.
  rewrite attempt000_web by apply Hrejected.
  destruct (rejected_completion "Request failed"
              (call_init (opt_method options) (Part000.headers r options)
                 (opt_body options))
              (sent m) (Part000.url r endpoint)) as (e & -> & He);
    [right; reflexivity|].
  exists e. eexists. split; [reflexivity|].
  split; [exact He | apply web_machine_once].
Qed.

Lemma rejected_attemptAuth m :
  exists e m1,
    AuthContext.attempt env w r endpoint options m = (Throw e, m1)
    /\ network_error w e
    /\ dispatched_once (AuthContext.url env endpoint) m m1.
Proof.
  rewrite attemptAuth_web by apply Hrejected.
  destruct (rejected_completion "Something went wrong"
              (call_init (opt_method options) (AuthContext.headers r options)
                 (opt_body options))
              (sent m) (AuthContext.url env endpoint)) as (e & -> & He);
    [right; reflexivity|].
  exists e. eexists. split; [reflexivity|].
  split; [exact He | apply web_machine_once].
Qed.

End Rejected.

(** X17.  When the browser gets no answer (every fetch is rejected at once,
    with any error), a login fails without touching the session, and what
    it does and shows depends on the version and on the text of the
    error.  AuthContext.js and part_000 send the wake-up request and then
    the login between one and three times: three times, 2000 ms apart,
    when the last error passes the test of the [catch] block, and once
    when no error of the network passes it (as "Load failed" does not).
    AuthContext.js shows its connection message with the base URL when the
    message of the error contains "fetch" or "NetworkError", and the bare
    message of the error otherwise; part_000 shows its fixed message.
    part_001 sends one request to each endpoint and shows what it makes of
    the error that names both failures: its connection message, with the
    label of the endpoint of the render, whenever one of the two messages
    contains "fetch". *)
Theorem unreachable_login_message (env : Env) (w : World)
  (null_read : string -> string) (r : Render) (body : string) (a : Session.State)
  (Hrejected : rejected_at_once w) :
  (let out := Provider.login env w null_read r body a in
   let m' := Session.machine (snd out) in
   exists e k,
     let shown :=
       if includes (message e) "fetch" || includes (message e) "NetworkError"
       then cannot_connect env else message e in
     network_error w e /\ (k <= 2)%nat
     /\ fst out = Return (Session.Failed (Some shown))
     /\ Session.error (snd out) = shown
     /\ Session.loading (snd out) = false
     /\ same_session a (snd out)
     /\ requests (trace m')
        = requests (trace (Session.machine a))
          ++ (AuthContext.API_BASE_URL env +:+ "/health")
             :: repeat (AuthContext.API_BASE_URL env +:+ "/auth/login") (S k)
     /\ sleeps (trace m') = sleeps (trace (Session.machine a)) ++ repeat 2000 k
     /\ (AuthContext.retryable e = true -> k = 2%nat)
     /\ ((forall e', network_error w e' -> AuthContext.retryable e' = false) ->
         k = 0%nat))
  /\ (let out := Provider000.login env w null_read r body a in
      let m' := Session.machine (snd out) in
      exists e k,
        network_error w e /\ (k <= 2)%nat
        /\ fst out = Return (Session.Failed None)
        /\ Session.error (snd out) = "Unable to connect to server. Please try again."
        /\ Session.loading (snd out) = false
        /\ same_session a (snd out)
        /\ requests (trace m')
           = requests (trace (Session.machine a))
             ++ (url_of_render r +:+ "/health")
                :: repeat (url_of_render r +:+ "/auth/login") (S k)
        /\ sleeps (trace m') = sleeps (trace (Session.machine a)) ++ repeat 2000 k
        /\ (Part000.retryable e = true -> k = 2%nat)
        /\ ((forall e', network_error w e' -> Part000.retryable e' = false) ->
            k = 0%nat))
  /\ (let out := Provider001.login env w null_read r body a in
      let m' := Session.machine (snd out) in
      exists e1 e2,
        let failure :=
          both_failed (String.eqb (url_of_render r) (LOCAL_API_URL env)) e1 e2 in
        let shown := Provider001.errorMessage env r (new_Error failure) in
        network_error w e1 /\ network_error w e2
        /\ fst out = Return (Session.Failed (Some shown))
        /\ Session.error (snd out) = shown
        /\ Session.loading (snd out) = false
        /\ same_session a (snd out)
        /\ requests (trace m')
           = requests (trace (Session.machine a))
             ++ [url_of_render r +:+ "/auth/login";
                 other_endpoint env r +:+ "/auth/login"]
        /\ (includes (message e1) "fetch" = true
            \/ includes (message e2) "fetch" = true ->
            shown = cannot_connect001 env r failure)).
Proof.
  split; [|split]; cbv zeta.
  - unfold Provider.login. session_step.
    pose proof Hrejected as [Hweb _]. rewrite Hweb. session_step.
    destruct (rejected_fetch env w Hrejected
                (AuthContext.API_BASE_URL env +:+ "/health")
                {| init_method := Some "GET"; init_headers := None;
                   init_body := None; init_signal := None; init_timeout := None |}
                (Session.machine a)) as (e0 & ->).
    session_step.
    set (m0 := fetched env w _ _ (Session.machine a)).
    destruct (failingAuth_at env w r "/auth/login" (with_method "POST" (Some body))
                (network_error w)
                (rejected_attemptAuth env w Hrejected r "/auth/login"
                   (with_method "POST" (Some body)))
                2 m0 ltac:(lia))
      as (e & k & He & Hnet & Hk & (Hreq & Hsl) & Hall & Hnone).
    destruct (AuthContext.apiCall env w r "/auth/login"
                (with_method "POST" (Some body)) 2 m0) as [c m'].
    cbn [fst snd] in *. subst c. session_step.
    exists e, k. rewrite shown_by_login. fold (cannot_connect env).
    unfold same_session.
    destruct (includes (message e) "fetch" || includes (message e) "NetworkError");
      session_step; cbn [Session.user Session.token Session.yogaToken];
      rewrite Hreq, Hsl; subst m0; rewrite fetched_requests, fetched_sleeps;
      unfold AuthContext.url; rewrite <- app_assoc;
      repeat split; auto.
  - unfold Provider000.login. session_step.
    destruct (rejected_fetch env w Hrejected (url_of_render r +:+ "/health")
                {| init_method := None; init_headers := None;
                   init_body := None; init_signal := None; init_timeout := None |}
                (Session.machine a)) as (e0 & ->).
    session_step.
    set (m0 := fetched env w _ _ (Session.machine a)).
    destruct (failing000_at env w r "/auth/login" (with_method "POST" (Some body))
                (network_error w)
                (rejected_attempt000 env w Hrejected r "/auth/login"
                   (with_method "POST" (Some body)))
                2 m0 ltac:(lia))
      as (e & k & He & Hnet & Hk & (Hreq & Hsl) & Hall & Hnone).
    destruct (Part000.apiCall env w r "/auth/login"
                (with_method "POST" (Some body)) 2 m0) as [c m'].
    cbn [fst snd] in *. subst c. session_step.
    exists e, k. unfold same_session.
    cbn [Session.user Session.token Session.yogaToken].
    rewrite Hreq, Hsl. subst m0. rewrite fetched_requests, fetched_sleeps.
    unfold Part000.url. rewrite <- app_assoc.
    repeat split; auto.
  - unfold Provider001.login. session_step. rewrite apiCall001_eq.
    set (cfg := Part001.config r (with_method "POST" (Some body))).
    destruct (rejected_completion w Hrejected "Something went wrong" cfg
                (sent (Session.machine a)) (url_of_render r +:+ "/auth/login"))
      as (e1 & -> & He1); [left; reflexivity|].
    destruct (rejected_completion w Hrejected "Something went wrong" cfg
                (S (sent (Session.machine a)))
                (other_endpoint env r +:+ "/auth/login"))
      as (e2 & -> & He2); [left; reflexivity|].
    exists e1, e2. session_step.
    set (m1 := web_machine env w (url_of_render r +:+ "/auth/login") cfg
                 (Session.machine a)).
    set (m2 := web_machine env w (other_endpoint env r +:+ "/auth/login") cfg
                 (write_url (other_endpoint env r) m1)).
    assert (Hreq : requests (trace m2)
                   = requests (trace (Session.machine a))
                     ++ [url_of_render r +:+ "/auth/login";
                         other_endpoint env r +:+ "/auth/login"]).
    { subst m2.
      destruct (web_machine_once env w (other_endpoint env r +:+ "/auth/login") cfg
                  (write_url (other_endpoint env r) m1)) as (_ & -> & _).
      unfold write_url; cbn [trace]. rewrite requests_app. cbn [requests].
      subst m1.
      destruct (web_machine_once env w (url_of_render r +:+ "/auth/login") cfg
                  (Session.machine a)) as (_ & -> & _).
      rewrite app_nil_r, <- app_assoc. reflexivity. }
    assert (Hshown :
              includes (message e1) "fetch" = true
              \/ includes (message e2) "fetch" = true ->
              Provider001.errorMessage env r
                (new_Error (both_failed
                              (String.eqb (url_of_render r) (LOCAL_API_URL env))
                              e1 e2))
              = cannot_connect001 env r
                  (both_failed (String.eqb (url_of_render r) (LOCAL_API_URL env))
                     e1 e2)).
    { intros Hin. unfold Provider001.errorMessage, cannot_connect001, new_Error.
      cbn [message].
      assert (Hboth : includes (both_failed
                                  (String.eqb (url_of_render r) (LOCAL_API_URL env))
                                  e1 e2) "fetch" = true).
      { unfold both_failed.
        destruct (String.eqb _ _), Hin as [H|H];
          first [apply includes_within, H
                | rewrite <- !append_assoc; apply includes_at_end, H]. }
      rewrite Hboth. reflexivity. }
    unfold same_session.
    destruct (String.eqb (url_of_render r) (LOCAL_API_URL env)) eqn:Hwas;
      session_step; cbn [Session.user Session.token Session.yogaToken];
      unfold write_url; cbn [trace]; rewrite ?requests_app, Hreq;
      cbn [requests]; rewrite ?app_nil_r; repeat split; auto.
Qed.

Lemma unreachable_login_message_witness :
  fst (Provider.login default_env unreachable v8_null_read (anonymous "") "{}"
         (Session.start default_env None))
  = Return (Session.Failed
              (Some "Cannot connect to server at http://localhost:5000/api. Please check your internet connection and try again."))
  /\ fst (Provider.login default_env (plainly_offline false) v8_null_read
            (anonymous "") "{}" (Session.start default_env None))
     = Return (Session.Failed (Some "Load failed")).
Proof.
  split.
  - destruct (unreachable_login_message default_env unreachable v8_null_read
                (anonymous "") "{}" (Session.start default_env None))
      as ((e & k & (n & url & init & He) & _ & H & _) & _).
    + split; [reflexivity|]. intros n url init.
      split; [reflexivity|]. exists (mkError "TypeError" "Failed to fetch").
      reflexivity.
    + injection He as <-. exact H.
  - destruct (unreachable_login_message default_env (plainly_offline false)
                v8_null_read (anonymous "") "{}" (Session.start default_env None))
      as ((e & k & (n & url & init & He) & _ & H & _) & _).
    + split; [reflexivity|]. intros n url init.
      split; [reflexivity|]. exists (mkError "TypeError" "Load failed").
      reflexivity.
    + injection He as <-. exact H.
Defined.

(** * A server that answers *)

Section Answered.
Context (env : Env) (w : World) (d : JSON) (Hanswers : answers w d).
Context (r : Render) (endpoint : string) (options : Options).
Context (Hbody : isNative w = true -> body_parses w options).

Lemma answered000 retries m :
  exists m1, Part000.apiCall env w r endpoint options retries m = (Return d, m1).
Proof.
  rewrite apiCall000_unfold.
  destruct (attempt000_succeeds env w r endpoint options Hbody m d (Hanswers _))
    as (m1 & -> & _).
  eauto.
Qed.

Lemma answeredAuth retries m :
  exists m1, AuthContext.apiCall env w r endpoint options retries m = (Return d, m1).
Proof.
  rewrite apiCallAuth_unfold.
  destruct (attemptAuth_succeeds env w r endpoint options Hbody m d (Hanswers _))
    as (m1 & -> & _).
  eauto.
Qed.

Lemma answered001 m :
  exists m1, Part001.apiCall env w r endpoint options m = (Return d, m1).
Proof.
  rewrite apiCall001_eq.
  destruct (Hanswers (sent m)) as [Hf _].
  destruct (Hf (url_of_render r +:+ endpoint) (Part001.config r options))
    as (st & Hres & _ & Hst).
  assert (H : web_completion w "Something went wrong" (Part001.config r options)
                (fetch_net w (sent m) (url_of_render r +:+ endpoint)
                   (Part001.config r options)) = Return d).
  { unfold web_completion, settle. cbn [init_signal Part001.config].
    rewrite Hres. cbn [res_json]. unfold ok. cbn [res_status].
    destruct (Z.leb_spec 200 st); [|lia]. destruct (Z.leb_spec st 299); [|lia].
    reflexivity. }
  rewrite H. eauto.
Qed.

End Answered.

(** Replaces the call of a flow by its answer; [Hcall] says what the call
    returns from every machine. *)
Ltac answered Hcall :=
  match goal with
  | |- context [AuthContext.apiCall _ _ _ _ _ ?n ?m] =>
      let H := fresh in destruct (Hcall n m) as [? H]; rewrite H; clear H
  | |- context [Part000.apiCall _ _ _ _ _ ?n ?m] =>
      let H := fresh in destruct (Hcall n m) as [? H]; rewrite H; clear H
  | |- context [Part001.apiCall _ _ _ _ _ ?m] =>
      let H := fresh in destruct (Hcall m) as [? H]; rewrite H; clear H
  end.

(** Runs a flow whose call is answered with a payload of known fields. *)
Ltac session_on Hcall Hd Hs Ht :=
  repeat (session_step; try answered Hcall; rewrite ?Hd, ?Hs, ?Ht;
          try session_split).

Lemma bearer_headers (env : Env) (t : string) (a' : Session.State) :
  t <> "" ->
  Session.token a' = Some (JString t) ->
  Session.yogaToken a' = Some t ->
  forall headers,
    headers = headersAuth \/ headers = headers000 \/ headers = headers001 ->
    headers (Session.render_of a') !! "Authorization" = Some ("Bearer " +:+ t)
    /\ headers (Session.render_of (Session.start env (Session.yogaToken a')))
       !! "Authorization" = Some ("Bearer " +:+ t).
Proof.
  intros Ht Htok Hstored headers Hh.
  unfold Session.render_of, Session.start. rewrite Hstored.
  cbn [Session.token]. rewrite Htok.
  unfold Session.token_text, truthy, to_String.
  assert (Htruthy : truthy_string (Some t) = true)
    by (destruct t; [congruence | reflexivity]).
  rewrite Htruthy.
  assert (Hexp :
            spread (spread_auth {[ "Content-Type" := "application/json" ]} (Some t))
              (default ∅ None) !! "Authorization" = Some ("Bearer " +:+ t)).
  { rewrite headers_lookup. unfold expected_header, held.
    rewrite Htruthy. reflexivity. }
  destruct Hh as [-> | [-> | ->]];
    unfold headersAuth, headers000, headers001, AuthContext.headers, Part000.headers,
      Part001.config, no_options;
    cbn [token opt_headers init_headers default];
    split; exact Hexp.
Qed.

Lemma granted_fields (d : JSON) (t : string) :
  grants d t ->
  exists fields,
    d = JObject fields
    /\ truthy (lookup_field "success" fields) = true
    /\ lookup_field "token" fields = Some (JString t).
Proof.
  intros (Hs & Ht & _).
  destruct d; cbn [field] in Hs, Ht; try discriminate Ht. eauto.
Qed.

Lemma signs_in_state headers env (d : JSON) (t : string) (a' : Session.State) :
  grants d t ->
  headers = headersAuth \/ headers = headers000 \/ headers = headers001 ->
  Session.user a' = field d "user" ->
  Session.token a' = Some (JString t) ->
  Session.yogaToken a' = Some t ->
  Session.loading a' = false ->
  signs_in_with headers env d t a'.
Proof.
  intros (_ & _ & Hne) Hh Hu Htok Hst Hl.
  destruct (bearer_headers env t a' Hne Htok Hst headers Hh) as [H1 H2].
  unfold signs_in_with. auto 10.
Qed.

Section Granted.
Context (env : Env) (w : World) (null_read : string -> string) (r : Render).
Context (body : string) (a : Session.State) (d : JSON) (t : string).
Context (Hanswers : answers w d).
Context (Hbody : isNative w = true -> body_parses w (with_method "POST" (Some body))).
Context (Hgrant : grants d t).

Lemma signs_in_intro headers msg (out : Completion Session.Result * Session.State) :
  headers = headersAuth \/ headers = headers000 \/ headers = headers001 ->
  fst out = Return (Session.Succeeded msg) ->
  Session.user (snd out) = field d "user" ->
  Session.token (snd out) = Some (JString t) ->
  Session.yogaToken (snd out) = Some t ->
  Session.loading (snd out) = false ->
  fst out = Return (Session.Succeeded msg) /\ signs_in_with headers env d t (snd out).
Proof.
  intros Hh Hout Hu Htok Hst Hl. split; [exact Hout|].
  destruct Hgrant as (_ & _ & Hne).
  destruct (bearer_headers env t (snd out) Hne Htok Hst headers Hh) as [H1 H2].
  unfold signs_in_with. auto 10.
Qed.

Lemma login_granted :
  let out := Provider.login env w null_read r body a in
  fst out = Return (Session.Succeeded (field d "message"))
  /\ signs_in_with headersAuth env d t (snd out).
Proof.
  cbv zeta. destruct (granted_fields d t Hgrant) as (fields & Hd & Hs & Ht).
  pose proof (answeredAuth env w d Hanswers r "/auth/login"
                (with_method "POST" (Some body)) Hbody) as Hcall.
  apply signs_in_intro; [auto|..]; unfold Provider.login;
    session_on Hcall Hd Hs Ht; cbn [field]; rewrite ?Ht; reflexivity.
Qed.

Lemma register_granted :
  let out := Provider.register env w null_read r body a in
  fst out = Return (Session.Succeeded (field d "message"))
  /\ signs_in_with headersAuth env d t (snd out).
Proof.
  cbv zeta. destruct (granted_fields d t Hgrant) as (fields & Hd & Hs & Ht).
  pose proof (answeredAuth env w d Hanswers r "/auth/register"
                (with_method "POST" (Some body)) Hbody) as Hcall.
  apply signs_in_intro; [auto|..]; unfold Provider.register;
    session_on Hcall Hd Hs Ht; cbn [field]; rewrite ?Ht; reflexivity.
Qed.

Lemma login000_granted :
  let out := Provider000.login env w null_read r body a in
  fst out = Return (Session.Succeeded None)
  /\ signs_in_with headers000 env d t (snd out).
Proof.
  cbv zeta. destruct (granted_fields d t Hgrant) as (fields & Hd & Hs & Ht).
  pose proof (answered000 env w d Hanswers r "/auth/login"
                (with_method "POST" (Some body)) Hbody) as Hcall.
  apply signs_in_intro; [auto|..]; unfold Provider000.login;
    session_on Hcall Hd Hs Ht; cbn [field]; rewrite ?Ht; reflexivity.
Qed.

Lemma register000_granted :
  let out := Provider000.register env w null_read r body a in
  fst out = Return (Session.Succeeded None)
  /\ signs_in_with headers000 env d t (snd out).
Proof.
  cbv zeta. destruct (granted_fields d t Hgrant) as (fields & Hd & Hs & Ht).
  pose proof (answered000 env w d Hanswers r "/auth/register"
                (with_method "POST" (Some body)) Hbody) as Hcall.
  apply signs_in_intro; [auto|..]; unfold Provider000.register;
    session_on Hcall Hd Hs Ht; cbn [field]; rewrite ?Ht; reflexivity.
Qed.

Lemma login001_granted :
  let out := Provider001.login env w null_read r body a in
  fst out = Return (Session.Succeeded (field d "message"))
  /\ signs_in_with headers001 env d t (snd out).
Proof.
  cbv zeta. destruct (granted_fields d t Hgrant) as (fields & Hd & Hs & Ht).
  pose proof (answered001 env w d Hanswers r "/auth/login"
                (with_method "POST" (Some body))) as Hcall.
  apply signs_in_intro; [auto|..]; unfold Provider001.login;
    session_on Hcall Hd Hs Ht; cbn [field]; rewrite ?Ht; reflexivity.
Qed.

Lemma register001_granted :
  let out := Provider001.register env w null_read r body a in
  fst out = Return (Session.Succeeded (field d "message"))
  /\ signs_in_with headers001 env d t (snd out).
Proof.
  cbv zeta. destruct (granted_fields d t Hgrant) as (fields & Hd & Hs & Ht).
  pose proof (answered001 env w d Hanswers r "/auth/register"
                (with_method "POST" (Some body))) as Hcall.
  apply signs_in_intro; [auto|..]; unfold Provider001.register;
    session_on Hcall Hd Hs Ht; cbn [field]; rewrite ?Ht; reflexivity.
Qed.

End Granted.

(** X18.  When the server answers with a payload that grants the session, a
    login or a registration returns a success, holds the user of the
    payload and its token in the state and in the storage with [loading]
    off, and a call made from the next render, or after a restart of the
    application, carries [Bearer <token>].  AuthContext.js and part_001
    return the message of the payload, part_000 returns none. *)
Theorem granted_login_signs_in (env : Env) (w : World)
  (null_read : string -> string) (r : Render) (body : string) (a : Session.State)
  (d : JSON) (t : string)
  (Hanswers : answers w d)
  (Hbody : isNative w = true -> body_parses w (with_method "POST" (Some body)))
  (Hgrant : grants d t) :
  (forall out,
      out = Provider.login env w null_read r body a
      \/ out = Provider.register env w null_read r body a ->
      fst out = Return (Session.Succeeded (field d "message"))
      /\ signs_in_with headersAuth env d t (snd out))
  /\ (forall out,
         out = Provider000.login env w null_read r body a
         \/ out = Provider000.register env w null_read r body a ->
         fst out = Return (Session.Succeeded None)
         /\ signs_in_with headers000 env d t (snd out))
  /\ (forall out,
         out = Provider001.login env w null_read r body a
         \/ out = Provider001.register env w null_read r body a ->
         fst out = Return (Session.Succeeded (field d "message"))
         /\ signs_in_with headers001 env d t (snd out)).
Proof.
  split; [|split]; intros out [-> | ->];
    eauto using login_granted, register_granted, login000_granted,
      register000_granted, login001_granted, register001_granted.
Qed.

Lemma granted_login_signs_in_witness :
  let granted := JObject [("success", JBool true); ("token", JString "eyJhbGciOi");
                          ("user", JObject [("name", JString "Asha")])] in
  let out := Provider.login default_env (accepting true granted) v8_null_read
               (anonymous "") "{}" (Session.start default_env None) in
  Session.yogaToken (snd out) = Some "eyJhbGciOi"
  /\ headersAuth (Session.render_of (snd out)) !! "Authorization"
     = Some "Bearer eyJhbGciOi".
Proof.
  cbv zeta.
  destruct (granted_login_signs_in default_env
              (accepting true
                 (JObject [("success", JBool true); ("token", JString "eyJhbGciOi");
                           ("user", JObject [("name", JString "Asha")])]))
              v8_null_read (anonymous "") "{}" (Session.start default_env None)
              (JObject [("success", JBool true); ("token", JString "eyJhbGciOi");
                        ("user", JObject [("name", JString "Asha")])])
              "eyJhbGciOi") as (H & _).
  - intros n. split.
    + intros url init. exists 200. split; [reflexivity|]. split; [reflexivity | lia].
    + intros req. exists 200. split; [reflexivity | lia].
  - intros _. exists (Some (JObject [])). reflexivity.
  - split; [reflexivity|]. split; [reflexivity | discriminate].
  - destruct (H _ (or_introl eq_refl)) as (_ & _ & _ & Hstored & _ & Hheader & _).
    split; [exact Hstored | exact Hheader].
Defined.

(** * A success status without [success] *)

Section Declined.
Context (env : Env) (w : World) (null_read : string -> string) (r : Render).
Context (body : string) (a : Session.State) (d : JSON).
Context (Hanswers : answers w d).
Context (Hbody : isNative w = true -> body_parses w (with_method "POST" (Some body))).
Context (Hobject : d <> JNull).
Context (Hdecline : truthy (field d "success") = false).

(** Runs a flow on the payload [d], case by case. *)
Ltac declined Hcall :=
  repeat (session_step; try answered Hcall; try session_split);
  cbn [field] in *; try congruence; auto.

Lemma login_declined :
  let out := Provider.login env w null_read r body a in
  fst out = Return Session.NoResult /\ same_session a (snd out).
Proof.
  pose proof (answeredAuth env w d Hanswers r "/auth/login"
                (with_method "POST" (Some body)) Hbody) as Hcall.
  cbv zeta. unfold same_session, Provider.login. clear Hanswers.
  split; declined Hcall.
Qed.

Lemma register_declined :
  let out := Provider.register env w null_read r body a in
  fst out = Return Session.NoResult /\ same_session a (snd out).
Proof.
  pose proof (answeredAuth env w d Hanswers r "/auth/register"
                (with_method "POST" (Some body)) Hbody) as Hcall.
  cbv zeta. unfold same_session, Provider.register. clear Hanswers.
  split; declined Hcall.
Qed.

Lemma updateProfile_declined :
  let out := Provider.updateProfile env w null_read r body a in
  fst out = Return Session.NoResult /\ same_session a (snd out).
Proof.
  pose proof (answeredAuth env w d Hanswers r "/user/profile"
                (with_method "PUT" (Some body)) Hbody) as Hcall.
  cbv zeta. unfold same_session, Provider.updateProfile. clear Hanswers.
  split; declined Hcall.
Qed.

Lemma login001_declined :
  let out := Provider001.login env w null_read r body a in
  fst out = Return Session.NoResult /\ same_session a (snd out).
Proof.
  pose proof (answered001 env w d Hanswers r "/auth/login"
                (with_method "POST" (Some body))) as Hcall.
  cbv zeta. unfold same_session, Provider001.login. clear Hanswers.
  split; declined Hcall.
Qed.

Lemma register001_declined :
  let out := Provider001.register env w null_read r body a in
  fst out = Return Session.NoResult /\ same_session a (snd out).
Proof.
  pose proof (answered001 env w d Hanswers r "/auth/register"
                (with_method "POST" (Some body))) as Hcall.
  cbv zeta. unfold same_session, Provider001.register. clear Hanswers.
  split; declined Hcall.
Qed.

Lemma updateProfile001_declined :
  let out := Provider001.updateProfile env w null_read r body a in
  fst out = Return Session.NoResult /\ same_session a (snd out).
Proof.
  pose proof (answered001 env w d Hanswers r "/user/profile"
                (with_method "PUT" (Some body))) as Hcall.
  cbv zeta. unfold same_session, Provider001.updateProfile. clear Hanswers.
  split; declined Hcall.
Qed.

Lemma login000_taken :
  let out := Provider000.login env w null_read r body a in
  fst out = Return (Session.Succeeded None) /\ taken000 d (snd out).
Proof.
  pose proof (answered000 env w d Hanswers r "/auth/login"
                (with_method "POST" (Some body)) Hbody) as Hcall.
  cbv zeta. unfold taken000, Provider000.login. clear Hanswers.
  split; declined Hcall.
Qed.

Lemma register000_taken :
  let out := Provider000.register env w null_read r body a in
  fst out = Return (Session.Succeeded None) /\ taken000 d (snd out).
Proof.
  pose proof (answered000 env w d Hanswers r "/auth/register"
                (with_method "POST" (Some body)) Hbody) as Hcall.
  cbv zeta. unfold taken000, Provider000.register. clear Hanswers.
  split; declined Hcall.
Qed.

End Declined.

(** X19.  When the server answers with a success status and a payload whose
    [success] is not truthy, [login], [register] and [updateProfile] of
    AuthContext.js and of part_001 end without a [return]: the caller gets
    [undefined], not a result with [success: false], and the session is
    untouched.  part_000 never reads [success]: its [login] and [register]
    take the token and the user of that payload, store the text of the
    token, and report a success. *)
Theorem payload_without_success (env : Env) (w : World)
  (null_read : string -> string) (r : Render) (body : string) (a : Session.State)
  (d : JSON)
  (Hanswers : answers w d)
  (Hbody : isNative w = true -> body_parses w (with_method "POST" (Some body)))
  (Hobject : d <> JNull)
  (Hdecline : truthy (field d "success") = false) :
  (forall out,
      out = Provider.login env w null_read r body a
      \/ out = Provider.register env w null_read r body a
      \/ out = Provider.updateProfile env w null_read r body a ->
      fst out = Return Session.NoResult /\ same_session a (snd out))
  /\ (forall out,
         out = Provider001.login env w null_read r body a
         \/ out = Provider001.register env w null_read r body a
         \/ out = Provider001.updateProfile env w null_read r body a ->
         fst out = Return Session.NoResult /\ same_session a (snd out))
  /\ (forall out,
         out = Provider000.login env w null_read r body a
         \/ out = Provider000.register env w null_read r body a ->
         fst out = Return (Session.Succeeded None) /\ taken000 d (snd out)).
Proof.
  split; [|split].
  - intros out [-> | [-> | ->]];
      eauto using login_declined, register_declined, updateProfile_declined.
  - intros out [-> | [-> | ->]];
      eauto using login001_declined, register001_declined, updateProfile001_declined.
  - intros out [-> | ->]; eauto using login000_taken, register000_taken.
Qed.

Lemma payload_without_success_witness :
  let refused := JObject [("success", JBool false);
                          ("message", JString "Invalid credentials")] in
  fst (Provider.login default_env (accepting false refused) v8_null_read
         (anonymous "") "{}" (Session.start default_env None))
  = Return Session.NoResult
  /\ Session.yogaToken
       (snd (Provider000.login default_env (accepting false refused) v8_null_read
               (anonymous "") "{}" (Session.start default_env None)))
     = Some "undefined".
Proof.
  cbv zeta.
  destruct (payload_without_success default_env
              (accepting false
                 (JObject [("success", JBool false);
                           ("message", JString "Invalid credentials")]))
              v8_null_read (anonymous "") "{}" (Session.start default_env None)
              (JObject [("success", JBool false);
                        ("message", JString "Invalid credentials")]))
    as (HAuth & _ & H000).
  - intros n. split.
    + intros url init. exists 200. split; [reflexivity|]. split; [reflexivity | lia].
    + intros req. exists 200. split; [reflexivity | lia].
  - intros Hnative. discriminate Hnative.
  - discriminate.
  - reflexivity.
  - destruct (HAuth _ (or_introl eq_refl)) as (Hres & _).
    destruct (H000 _ (or_introl eq_refl)) as (_ & _ & _ & Hstored).
    split; [exact Hres | exact Hstored].
Defined.

(** * Logout *)

Lemma bearer_of_render (r0 : Render) (t : string) (k : gmap string string) :
  token r0 = Some t -> t <> "" -> k !! "Authorization" = None ->
  expected_header (token r0) k "Authorization" = Some ("Bearer " +:+ t).
Proof.
  intros -> Ht Hk. unfold expected_header. rewrite Hk. cbn [String.eqb].
  destruct t as [|c t]; [congruence | reflexivity].
Qed.

Lemma carries_bearer_of (url : string) (h : gmap string string) (t : string)
  (evs : list Event) :
  h !! "Authorization" = Some ("Bearer " +:+ t) ->
  Forall (carries url h) evs -> Forall (carries_bearer t) evs.
Proof.
  intros Hh Hall. eapply Forall_impl; [exact Hall|].
  intros [u init|req| | |]; cbn; try tauto.
  - intros [_ Hi]. eauto.
  - intros [_ ->]. exact Hh.
Qed.

(** X20.  [logout] is local: it sends nothing and signs the session off,
    whatever the session was, and the effect that the change of the token
    starts in the next render makes no verification call, so the server is
    never told.  A call made from the next render carries no Authorization
    header.  The callbacks of earlier renders are not touched: a call
    through the [apiCall] of a render that held the token [t], made after
    the logout without headers of its own, still sends every request (the
    first and the retries) with [Bearer t].  AuthContext.js and part_001
    also clear the message; part_000 leaves it. *)
Theorem logout_is_local (env : Env) (w : World) (null_read : string -> string)
  (a : Session.State) :
  (let a1 := snd (Provider.logout a) in
   fst (Provider.logout a) = Return tt
   /\ signed_off a a1
   /\ Session.error a1 = ""
   /\ headersAuth (Session.render_of a1) !! "Authorization" = None
   /\ skipped a1 (Session.machine a)
        (snd (Provider.verifyToken env w null_read (Session.render_of a1) a1))
   /\ (forall r0 t endpoint options retries,
         token r0 = Some t -> t <> "" -> opt_headers options = None ->
         exists evs,
           trace (snd (AuthContext.apiCall env w r0 endpoint options retries
                         (Session.machine a1)))
           = trace (Session.machine a1) ++ evs
           /\ Forall (carries_bearer t) evs))
  /\ (let a1 := snd (Provider000.logout a) in
      fst (Provider000.logout a) = Return tt
      /\ signed_off a a1
      /\ Session.error a1 = Session.error a
      /\ headers000 (Session.render_of a1) !! "Authorization" = None
      /\ skipped a1 (snd (Part000.checkApiHealth env w (Session.machine a)))
           (snd (Provider000.init env w null_read (Session.render_of a1) a1))
      /\ (forall r0 t endpoint options retries,
            token r0 = Some t -> t <> "" -> opt_headers options = None ->
            exists evs,
              trace (snd (Part000.apiCall env w r0 endpoint options retries
                            (Session.machine a1)))
              = trace (Session.machine a1) ++ evs
              /\ Forall (carries_bearer t) evs))
  /\ (let a1 := snd (Provider001.logout a) in
      fst (Provider001.logout a) = Return tt
      /\ signed_off a a1
      /\ Session.error a1 = ""
      /\ headers001 (Session.render_of a1) !! "Authorization" = None
      /\ skipped a1 (snd (Part001.checkApiHealth env w (Session.machine a)))
           (snd (Provider001.initializeApp env w null_read (Session.render_of a1) a1))
      /\ (forall r0 t endpoint options,
            token r0 = Some t -> t <> "" -> opt_headers options = None ->
            exists evs,
              trace (snd (Part001.apiCall env w r0 endpoint options
                            (Session.machine a1)))
              = trace (Session.machine a1) ++ evs
              /\ Forall (carries_bearer t) evs)).
Proof.
  split; [|split]; cbv zeta.
  - split; [|split; [|split; [|split; [|split]]]];
      try (unfold Provider.logout, Provider.verifyToken, signed_off, skipped;
           session_step; repeat split; reflexivity).
    intros r0 t endpoint options retries Ht Hne Hopt.
    destruct (dispatchesAuth env w r0 endpoint options retries
                (Session.machine (snd (Provider.logout a)))) as (evs & Htr & Hall).
    exists evs. split; [exact Htr|].
    apply (carries_bearer_of _ _ t _) in Hall; [exact Hall|].
    unfold AuthContext.headers. rewrite headers_lookup, Hopt.
    apply bearer_of_render; auto.
  - destruct (probe000_returns env w (Session.machine a)) as (st & mh & Hprobe).
    split; [|split; [|split; [|split; [|split]]]];
      try (unfold Provider000.logout, Provider000.init, signed_off, skipped;
           session_step; rewrite ?Hprobe; repeat split; reflexivity).
    intros r0 t endpoint options retries Ht Hne Hopt.
    destruct (dispatches000 env w r0 endpoint options retries
                (Session.machine (snd (Provider000.logout a)))) as (evs & Htr & Hall).
    exists evs. split; [exact Htr|].
    apply (carries_bearer_of _ _ t _) in Hall; [exact Hall|].
    unfold Part000.headers. rewrite headers_lookup, Hopt.
    apply bearer_of_render; auto.
  - destruct (probe001_returns env w (Session.machine a)) as (st & mh & Hprobe).
    split; [|split; [|split; [|split; [|split]]]];
      try (unfold Provider001.logout, Provider001.initializeApp, signed_off, skipped;
           session_step; rewrite ?Hprobe; repeat split; reflexivity).
    intros r0 t endpoint options Ht Hne Hopt.
    destruct (grows_apiCall001_config env w r0 endpoint options
                (Session.machine (snd (Provider001.logout a))))
      as (evs & Htr & Hall & _).
    exists evs. split; [exact Htr|].
    eapply Forall_impl; [exact Hall|].
    intros [u init|req| | |]; cbn; try tauto.
    intros [-> _]. unfold Part001.config; cbn [init_headers]. rewrite Hopt.
    eexists. split; [reflexivity|].
    etransitivity; [exact (headers_lookup (token r0) None "Authorization")|].
    apply bearer_of_render; auto.
Qed.

Lemma logout_is_local_witness :
  let a1 := snd (Provider.logout holding_token) in
  let stale := Session.render_of holding_token in
  headersAuth (Session.render_of a1) !! "Authorization" = None
  /\ (exists evs,
        trace (snd (AuthContext.apiCall default_env unreachable
                      stale "/user/profile" no_options 2 (Session.machine a1)))
        = trace (Session.machine a1) ++ evs
        /\ Forall (carries_bearer "eyJhbGciOi") evs)
  /\ requests (trace (snd (AuthContext.apiCall default_env
                             unreachable stale
                             "/user/profile" no_options 2 (Session.machine a1))))
     = repeat "http://localhost:5000/api/user/profile" 3.
Proof.
  cbv zeta.
  destruct (logout_is_local default_env unreachable
              v8_null_read holding_token) as ((_ & _ & _ & Hnext & _ & Hstale) & _).
  split; [exact Hnext|]. split.
  - apply (Hstale (Session.render_of holding_token) "eyJhbGciOi" "/user/profile"
             no_options 2).
    + reflexivity.
    + discriminate.
    + reflexivity.
  - vm_compute. reflexivity.
Defined.

(** * A backend that wakes up *)

Section WakeUp.
Context (env : Env) (w : World) (r : Render).

Lemma wake_up_once a :
  exists m1,
    Provider.wake_up env w a = (Return tt, on_machine a m1)
    /\ dispatched_once (AuthContext.API_BASE_URL env +:+ "/health")
         (Session.machine a) m1.
Proof.
  unfold Provider.wake_up. session_step. destruct (isNative w).
  - session_step. rewrite request_eq.
    exists (requested env w
              {| nat_url := AuthContext.API_BASE_URL env +:+ "/health";
                 nat_method := "GET"; nat_headers := ∅; nat_data := None;
                 readTimeout := 0; connectTimeout := 0 |} (Session.machine a)).
    split; [destruct (native_net _ _ _); reflexivity|].
    exact (requested_once env w
             {| nat_url := AuthContext.API_BASE_URL env +:+ "/health";
                nat_method := "GET"; nat_headers := ∅; nat_data := None;
                readTimeout := 0; connectTimeout := 0 |} (Session.machine a)).
  - session_step. rewrite fetch_eq.
    eexists. split; [destruct (settle _ _ _); reflexivity|].
    apply fetched_once.
Qed.

Lemma wake_up000_once a :
  exists m1,
    Provider000.wake_up env w r a = (Return tt, on_machine a m1)
    /\ dispatched_once (url_of_render r +:+ "/health") (Session.machine a) m1.
Proof.
  unfold Provider000.wake_up. session_step. rewrite fetch_eq.
  eexists. split; [destruct (settle _ _ _); reflexivity|].
  apply fetched_once.
Qed.

End WakeUp.

(** Steps through a flow up to its wake-up request. *)
Ltac flow_step :=
  cbv beta iota zeta delta
    [Session.try_finally Session.try_catchA Session.bindA Session.retA
     Session.throwA Session.lift Session.setUser Session.setToken
     Session.setLoading Session.setError Session.setItem Session.removeItem
     Session.read Provider.apiCall Provider000.apiCall Provider001.apiCall];
  cbn [fst snd Session.machine Session.user Session.token Session.loading
       Session.error Session.yogaToken].

Section Sleeping.
Context (env : Env) (w : World) (null_read : string -> string) (r : Render).
Context (body : string) (a : Session.State) (d : JSON) (t : string).
Context (Hbody : isNative w = true -> body_parses w (with_method "POST" (Some body))).
Context (Hgrant : grants d t).

Lemma login_wakes :
  wakes_after AuthContext.retryable w (sent (Session.machine a)) d ->
  let out := Provider.login env w null_read r body a in
  (fst out = Return (Session.Succeeded (field d "message"))
   /\ signs_in_with headersAuth env d t (snd out))
  /\ requests (trace (Session.machine (snd out)))
     = requests (trace (Session.machine a))
       ++ [AuthContext.API_BASE_URL env +:+ "/health";
           AuthContext.API_BASE_URL env +:+ "/auth/login";
           AuthContext.API_BASE_URL env +:+ "/auth/login"]
  /\ sleeps (trace (Session.machine (snd out)))
     = sleeps (trace (Session.machine a)) ++ [2000].
Proof.
  intros [Hfail Hok]. cbv zeta.
  destruct (granted_fields d t Hgrant) as (fields & Hd & Hs & Ht).
  unfold Provider.login. flow_step.
  match goal with
  | |- context [Provider.wake_up ?e ?w0 ?a0] =>
      destruct (wake_up_once e w0 a0) as (m1 & Hw & Hsent & Hreq & Hsl);
      rewrite Hw
  end.
  unfold on_machine. flow_step. cbn [Session.machine] in Hsent, Hreq, Hsl.
  destruct (second_attemptAuth env w r "/auth/login" (with_method "POST" (Some body))
              Hbody m1 d) as (Hret & Hreq' & Hsl').
  { rewrite Hsent. exact Hfail. }
  { rewrite Hsent. exact Hok. }
  destruct (AuthContext.apiCall env w r "/auth/login"
              (with_method "POST" (Some body)) 2 m1) as [c m'].
  cbn [fst snd] in *. subst c. pose proof Hgrant as Hg. rewrite Hd in Hg |- *.
  flow_step. rewrite Hs. flow_step.
  split; [split; [reflexivity|];
          apply signs_in_state; [exact Hg | auto | ..];
          cbn [Session.user Session.token Session.yogaToken Session.loading field];
          rewrite ?Ht; reflexivity|].
  rewrite Hreq', Hsl', Hreq, Hsl, <- app_assoc. unfold AuthContext.url.
  split; reflexivity.
Qed.

Lemma login000_wakes :
  wakes_after Part000.retryable w (sent (Session.machine a)) d ->
  let out := Provider000.login env w null_read r body a in
  (fst out = Return (Session.Succeeded None)
   /\ signs_in_with headers000 env d t (snd out))
  /\ requests (trace (Session.machine (snd out)))
     = requests (trace (Session.machine a))
       ++ [url_of_render r +:+ "/health"; url_of_render r +:+ "/auth/login";
           url_of_render r +:+ "/auth/login"]
  /\ sleeps (trace (Session.machine (snd out)))
     = sleeps (trace (Session.machine a)) ++ [2000].
Proof.
  intros [Hfail Hok]. cbv zeta.
  destruct (granted_fields d t Hgrant) as (fields & Hd & Hs & Ht).
  unfold Provider000.login. flow_step.
  match goal with
  | |- context [Provider000.wake_up ?e ?w0 ?r0 ?a0] =>
      destruct (wake_up000_once e w0 r0 a0) as (m1 & Hw & Hsent & Hreq & Hsl);
      rewrite Hw
  end.
  unfold on_machine. flow_step. cbn [Session.machine] in Hsent, Hreq, Hsl.
  destruct (second_attempt000 env w r "/auth/login" (with_method "POST" (Some body))
              Hbody m1 d) as (Hret & Hreq' & Hsl').
  { rewrite Hsent. exact Hfail. }
  { rewrite Hsent. exact Hok. }
  destruct (Part000.apiCall env w r "/auth/login"
              (with_method "POST" (Some body)) 2 m1) as [c m'].
  cbn [fst snd] in *. subst c. pose proof Hgrant as Hg. rewrite Hd in Hg |- *.
  flow_step.
  split; [split; [reflexivity|];
          apply signs_in_state; [exact Hg | auto | ..];
          cbn [Session.user Session.token Session.yogaToken Session.loading field];
          rewrite ?Ht; reflexivity|].
  rewrite Hreq', Hsl', Hreq, Hsl, <- app_assoc. unfold Part000.url.
  split; reflexivity.
Qed.

Lemma login_stays_asleep :
  fails_unmatched_at AuthContext.retryable w (S (sent (Session.machine a))) ->
  let out := Provider.login env w null_read r body a in
  exists e,
    AuthContext.retryable e = false
    /\ fst out
       = Return (Session.Failed
                   (Some (if includes (message e) "NetworkError"
                          then cannot_connect env else message e)))
    /\ Session.loading (snd out) = false
    /\ same_session a (snd out)
    /\ requests (trace (Session.machine (snd out)))
       = requests (trace (Session.machine a))
         ++ [AuthContext.API_BASE_URL env +:+ "/health";
             AuthContext.API_BASE_URL env +:+ "/auth/login"]
    /\ sleeps (trace (Session.machine (snd out)))
       = sleeps (trace (Session.machine a)).
Proof.
  intros Hfail. cbv zeta.
  unfold Provider.login. flow_step.
  match goal with
  | |- context [Provider.wake_up ?e ?w0 ?a0] =>
      destruct (wake_up_once e w0 a0) as (m1 & Hw & Hsent & Hreq & Hsl);
      rewrite Hw
  end.
  unfold on_machine. flow_step. cbn [Session.machine] in Hsent, Hreq, Hsl.
  destruct (unmatchedAuth env w r "/auth/login" (with_method "POST" (Some body))
              Hbody 2 m1) as ((e & He & Hno) & Hreq' & Hsl').
  { rewrite Hsent. exact Hfail. }
  destruct (AuthContext.apiCall env w r "/auth/login"
              (with_method "POST" (Some body)) 2 m1) as [c m'].
  cbn [fst snd] in *. subst c. exists e. flow_step.
  rewrite shown_by_login.
  assert (Hfetch : includes (message e) "fetch" = false).
  { unfold AuthContext.retryable in Hno.
    destruct (includes (message e) "fetch"); [|reflexivity].
    rewrite orb_true_r in Hno. discriminate Hno. }
  rewrite Hfetch. cbn [orb]. fold (cannot_connect env). unfold same_session.
  destruct (includes (message e) "NetworkError"); flow_step;
    cbn [Session.user Session.token Session.yogaToken];
    rewrite Hreq', Hsl', Hreq, Hsl, <- !app_assoc, app_nil_r;
    unfold AuthContext.url; repeat split; auto.
Qed.

Lemma login000_stays_asleep :
  fails_unmatched_at Part000.retryable w (S (sent (Session.machine a))) ->
  let out := Provider000.login env w null_read r body a in
  fst out = Return (Session.Failed None)
  /\ Session.error (snd out) = "Unable to connect to server. Please try again."
  /\ Session.loading (snd out) = false
  /\ same_session a (snd out)
  /\ requests (trace (Session.machine (snd out)))
     = requests (trace (Session.machine a))
       ++ [url_of_render r +:+ "/health"; url_of_render r +:+ "/auth/login"]
  /\ sleeps (trace (Session.machine (snd out)))
     = sleeps (trace (Session.machine a)).
Proof.
  intros Hfail. cbv zeta.
  unfold Provider000.login. flow_step.
  match goal with
  | |- context [Provider000.wake_up ?e ?w0 ?r0 ?a0] =>
      destruct (wake_up000_once e w0 r0 a0) as (m1 & Hw & Hsent & Hreq & Hsl);
      rewrite Hw
  end.
  unfold on_machine. flow_step. cbn [Session.machine] in Hsent, Hreq, Hsl.
  destruct (unmatched000 env w r "/auth/login" (with_method "POST" (Some body))
              Hbody 2 m1) as ((e & He & Hno) & Hreq' & Hsl').
  { rewrite Hsent. exact Hfail. }
  destruct (Part000.apiCall env w r "/auth/login"
              (with_method "POST" (Some body)) 2 m1) as [c m'].
  cbn [fst snd] in *. subst c. flow_step. unfold same_session.
  cbn [Session.user Session.token Session.yogaToken].
  rewrite Hreq', Hsl', Hreq, Hsl, <- !app_assoc, app_nil_r.
  unfold Part000.url. repeat split; auto.
Qed.

End Sleeping.

(** X21.  A login while the backend wakes up, in AuthContext.js and in
    part_000, rests on the text of the first failure.  When the first
    attempt of the call fails with an error that the test of the [catch]
    block accepts and the next request is answered with a payload that
    grants the session, the login signs the user in after one wait of
    2000 ms, having sent the wake-up request and the login twice, whatever
    became of the wake-up request.  When the first attempt fails with an
    error that the test refuses (as "Load failed" is), the login is sent
    once and fails without a wait and without touching the session,
    whatever a second request would have received: AuthContext.js shows
    the message of the error, or its connection message if the error
    names a NetworkError, and part_000 its fixed message. *)
Theorem sleeping_backend_login (env : Env) (w : World)
  (null_read : string -> string) (r : Render) (body : string) (a : Session.State)
  (d : JSON) (t : string)
  (Hbody : isNative w = true -> body_parses w (with_method "POST" (Some body)))
  (Hgrant : grants d t) :
  (wakes_after AuthContext.retryable w (sent (Session.machine a)) d ->
   let out := Provider.login env w null_read r body a in
   (fst out = Return (Session.Succeeded (field d "message"))
    /\ signs_in_with headersAuth env d t (snd out))
   /\ requests (trace (Session.machine (snd out)))
      = requests (trace (Session.machine a))
        ++ [AuthContext.API_BASE_URL env +:+ "/health";
            AuthContext.API_BASE_URL env +:+ "/auth/login";
            AuthContext.API_BASE_URL env +:+ "/auth/login"]
   /\ sleeps (trace (Session.machine (snd out)))
      = sleeps (trace (Session.machine a)) ++ [2000])
  /\ (wakes_after Part000.retryable w (sent (Session.machine a)) d ->
      let out := Provider000.login env w null_read r body a in
      (fst out = Return (Session.Succeeded None)
       /\ signs_in_with headers000 env d t (snd out))
      /\ requests (trace (Session.machine (snd out)))
         = requests (trace (Session.machine a))
           ++ [url_of_render r +:+ "/health"; url_of_render r +:+ "/auth/login";
               url_of_render r +:+ "/auth/login"]
      /\ sleeps (trace (Session.machine (snd out)))
         = sleeps (trace (Session.machine a)) ++ [2000])
  /\ (fails_unmatched_at AuthContext.retryable w (S (sent (Session.machine a))) ->
      let out := Provider.login env w null_read r body a in
      exists e,
        AuthContext.retryable e = false
        /\ fst out
           = Return (Session.Failed
                       (Some (if includes (message e) "NetworkError"
                              then cannot_connect env else message e)))
        /\ Session.loading (snd out) = false
        /\ same_session a (snd out)
        /\ requests (trace (Session.machine (snd out)))
           = requests (trace (Session.machine a))
             ++ [AuthContext.API_BASE_URL env +:+ "/health";
                 AuthContext.API_BASE_URL env +:+ "/auth/login"]
        /\ sleeps (trace (Session.machine (snd out)))
           = sleeps (trace (Session.machine a)))
  /\ (fails_unmatched_at Part000.retryable w (S (sent (Session.machine a))) ->
      let out := Provider000.login env w null_read r body a in
      fst out = Return (Session.Failed None)
      /\ Session.error (snd out) = "Unable to connect to server. Please try again."
      /\ Session.loading (snd out) = false
      /\ same_session a (snd out)
      /\ requests (trace (Session.machine (snd out)))
         = requests (trace (Session.machine a))
           ++ [url_of_render r +:+ "/health"; url_of_render r +:+ "/auth/login"]
      /\ sleeps (trace (Session.machine (snd out)))
         = sleeps (trace (Session.machine a))).
Proof.
  split; [|split; [|split]]; intros Hwakes.
  - exact (login_wakes env w null_read r body a d t Hbody Hgrant Hwakes).
  - exact (login000_wakes env w null_read r body a d t Hbody Hgrant Hwakes).
  - exact (login_stays_asleep env w null_read r body a Hbody Hwakes).
  - exact (login000_stays_asleep env w null_read r body a Hbody Hwakes).
Qed.

Lemma sleeping_backend_login_witness :
  (let out := Provider.login default_env asleep v8_null_read (anonymous "") "{}"
                (Session.start default_env None) in
   fst out = Return (Session.Succeeded None)
   /\ Session.yogaToken (snd out) = Some "eyJhbGciOi"
   /\ sleeps (trace (Session.machine (snd out))) = [2000])
  /\ (let out := Provider.login default_env asleep_plainly v8_null_read
                   (anonymous "") "{}" (Session.start default_env None) in
      fst out = Return (Session.Failed (Some "Load failed"))
      /\ Session.yogaToken (snd out) = None
      /\ sleeps (trace (Session.machine (snd out))) = []).
Proof.
  cbv zeta. split.
  - destruct (sleeping_backend_login default_env asleep v8_null_read (anonymous "")
                "{}" (Session.start default_env None) granted "eyJhbGciOi")
      as (H & _).
    + intros Hnative. discriminate Hnative.
    + split; [reflexivity|]. split; [reflexivity | discriminate].
    + destruct H as ((Hres & _ & _ & Hstored & _) & _ & Hsleeps).
      * split.
        { split; intros; reflexivity. }
        { split.
          - intros url init. exists 200. split; [reflexivity|].
            split; [reflexivity | lia].
          - intros req. exists 200. split; [reflexivity | lia]. }
      * split; [exact Hres|]. split; [exact Hstored | exact Hsleeps].
  - destruct (sleeping_backend_login default_env asleep_plainly v8_null_read
                (anonymous "") "{}" (Session.start default_env None) granted
                "eyJhbGciOi") as (_ & _ & H & _).
    + intros Hnative. discriminate Hnative.
    + split; [reflexivity|]. split; [reflexivity | discriminate].
    + destruct H as (e & _ & _ & _ & (_ & _ & Hstored) & _ & Hsleeps).
      * split; intros; reflexivity.
      * split; [reflexivity|]. split; [exact Hstored | exact Hsleeps].
Defined.

(** * An error status with the body [null] *)

Lemma null_error_final (w : World) :
  plain_null_message w ->
  Part000.retryable (TypeError_null w) = false
  /\ AuthContext.retryable (TypeError_null w) = false.
Proof.
  intros [Hfetch Hnet].
  assert (Hff : includes (null_message w) "Failed to fetch" = false).
  { destruct (includes (null_message w) "Failed to fetch") eqn:Hff; [|reflexivity].
    rewrite (includes_longer (null_message w) "fetch" "Failed to " Hff) in Hfetch.
    discriminate Hfetch. }
  unfold Part000.retryable, AuthContext.retryable, TypeError_null. cbn [name message].
  rewrite Hfetch, Hnet, Hff. split; reflexivity.
Qed.

(** X22.  An error status whose body is [null] is reported differently by the
    two transports of part_000: over fetch the call throws the engine's
    TypeError for reading [message] off [null], over the native transport
    it throws "Request failed", since only that branch reads the message
    with [?.].  AuthContext.js throws the TypeError over both.  None of them
    repeats the request. *)
Theorem null_error_body (env : Env) (w : World) (r : Render) (endpoint : string)
  (options : Options) (retries : Z) (m : Machine) (st : Z)
  (Hstatus : 400 <= st)
  (Hreply : replies_at w (sent m) (null_reply st))
  (Hbody : isNative w = true -> body_parses w options)
  (Hplain : plain_null_message w) :
  (let out := Part000.apiCall env w r endpoint options retries m in
   fst out = Throw (if isNative w then new_Error "Request failed"
                    else TypeError_null w)
   /\ requests (trace (snd out)) = requests (trace m) ++ [Part000.url r endpoint]
   /\ sleeps (trace (snd out)) = sleeps (trace m))
  /\ (let out := AuthContext.apiCall env w r endpoint options retries m in
      fst out = Throw (TypeError_null w)
      /\ requests (trace (snd out))
         = requests (trace m) ++ [AuthContext.url env endpoint]
      /\ sleeps (trace (snd out)) = sleeps (trace m)).
Proof.
  destruct (null_error_final w Hplain) as [Hno000 HnoAuth].
  destruct Hreply as [Hf Hn].
  assert (Hweb : forall fallback method h body url,
             web_completion w fallback (call_init method h body)
               (fetch_net w (sent m) url (call_init method h body))
             = Throw (TypeError_null w)).
  { intros fallback method h body url.
    destruct (Hf url (call_init method h body)) as [Hres Hlat].
    unfold web_completion, settle, call_init. cbn [init_signal].
    destruct (Z.leb_spec 60000
                (latency (fetch_net w (sent m) url
                            {| init_method := Some (or_default method "GET");
                               init_headers := Some h; init_body := body;
                               init_signal := Some 60000; init_timeout := None |})));
      [unfold call_init in Hlat; lia|].
    unfold call_init in Hres. rewrite Hres. cbn [res_json null_reply
      Server.reply_status Server.reply_body]. unfold ok. cbn [res_status].
    destruct (Z.leb_spec 200 st); [|lia]. destruct (Z.leb_spec st 299); [lia|].
    reflexivity. }
  split; cbv zeta.
  - destruct (isNative w) eqn:Hnat.
    + pose proof (attempt000_native env w r endpoint options m Hnat) as Hatt.
      destruct (Hbody eq_refl) as [payload Hpayload]. rewrite Hpayload in Hatt.
      cbv zeta in Hatt. rewrite Hn in Hatt.
      unfold native_completion000 in Hatt. cbn [status data null_reply
        Server.reply_status Server.reply_body get_message_opt or_message] in Hatt.
      destruct (Z.leb_spec 400 st); [|lia].
      rewrite (no_retry000 _ _ _ _ _ retries _ _ _ Hatt eq_refl). cbn [fst snd].
      split; [reflexivity|].
      destruct (requested_once env w
                  (call_request (Part000.url r endpoint) (opt_method options)
                     (Part000.headers r options) payload) m) as (_ & Hr & Hz).
      auto.
    + pose proof (attempt000_web env w r endpoint options m Hnat) as Hatt.
      rewrite Hweb in Hatt.
      rewrite (no_retry000 _ _ _ _ _ retries _ _ _ Hatt Hno000). cbn [fst snd].
      split; [reflexivity|].
      destruct (web_machine_once env w (Part000.url r endpoint)
                  (call_init (opt_method options) (Part000.headers r options)
                     (opt_body options)) m) as (_ & Hr & Hz).
      auto.
  - destruct (isNative w) eqn:Hnat.
    + pose proof (attemptAuth_native env w r endpoint options m Hnat) as Hatt.
      destruct (Hbody eq_refl) as [payload Hpayload]. rewrite Hpayload in Hatt.
      cbv zeta in Hatt. rewrite Hn in Hatt.
      unfold native_completionAuth in Hatt. cbn [status data null_reply
        Server.reply_status Server.reply_body rejection] in Hatt.
      destruct (Z.leb_spec 400 st); [|lia].
      rewrite (no_retryAuth _ _ _ _ _ retries _ _ _ Hatt HnoAuth). cbn [fst snd].
      split; [reflexivity|].
      destruct (requested_once env w
                  (call_request (AuthContext.url env endpoint) (opt_method options)
                     (AuthContext.headers r options) payload) m) as (_ & Hr & Hz).
      auto.
    + pose proof (attemptAuth_web env w r endpoint options m Hnat) as Hatt.
      rewrite Hweb in Hatt.
      rewrite (no_retryAuth _ _ _ _ _ retries _ _ _ Hatt HnoAuth). cbn [fst snd].
      split; [reflexivity|].
      destruct (web_machine_once env w (AuthContext.url env endpoint)
                  (call_init (opt_method options) (AuthContext.headers r options)
                     (opt_body options)) m) as (_ & Hr & Hz).
      auto.
Qed.

Lemma null_error_body_witness :
  fst (Part000.apiCall default_env (answering true (null_reply 502))
         (anonymous "") "/progress" no_options 2 (initial default_env))
  = Throw (new_Error "Request failed")
  /\ fst (AuthContext.apiCall default_env (answering true (null_reply 502))
            (anonymous "") "/progress" no_options 2 (initial default_env))
     = Throw (mkError "TypeError" "Cannot read properties of null (reading 'message')").
Proof.
  destruct (null_error_body default_env (answering true (null_reply 502))
              (anonymous "") "/progress" no_options 2 (initial default_env) 502)
    as ((H000 & _) & (HAuth & _)).
  - lia.
  - split; intros; [split; reflexivity | reflexivity].
  - intros _. exists None. reflexivity.
  - split; reflexivity.
  - split; [exact H000 | exact HAuth].
Defined.
